(** * The asset manager of generator-assets (lib/assetmanager.js)

    A shallow embedding of [AssetManager]: the object's fields become a
    record, its methods become computations in a small state, exception and
    trace monad, and the collaborators it calls (render manager, file
    manager, error manager, logger, event emitter) appear as the events of
    the trace.  The component manager, whose source is a separate module,
    is an interface (a type class); the promises handed out by the render
    manager are a store of jobs. *)

From Stdlib Require Import ZArith String List Bool Lia.
From stdpp Require Import base gmap list.
Import ListNotations.


(** ** JavaScript values *)

Abbreviation LayerId := Z (only parsing).
Abbreviation ComponentId := Z (only parsing).
Abbreviation DocumentId := Z (only parsing).
(** A reference to a layer object of the live document. *)
Abbreviation LayerRef := nat (only parsing).
(** A reference to a promise returned by [renderManager.render]. *)
Abbreviation JobId := nat (only parsing).

(** Truthiness of a value that is a string, [undefined] or [null]: the
    empty string is falsy. *)
Definition truthy_string (v : option string) : bool :=
  match v with
  | Some s => negb (String.eqb s EmptyString)
  | None => false
  end.

(** Truthiness of a value that is a number or [undefined]. *)
Definition truthy_number (v : option Z) : bool :=
  match v with
  | Some n => negb (n =? 0)%Z
  | None => false
  end.

(** ** Objects keyed by integers

    [dependentLayers], [specificationsByLayer] and [change.layers] are plain
    objects whose keys are layer ids.  [Object.keys] lists the keys that are
    array indices (0 .. 2^32 - 2) first, in ascending order, and then the
    other keys in the order of their insertion; the passes of
    [_handleChange] run in that order. *)
Module JSObj.

Definition t (V : Type) : Type := list (Z * V).

Definition is_index (k : Z) : bool := ((0 <=? k) && (k <? 4294967295))%Z.

Fixpoint get {V} (k : Z) (o : t V) : option V :=
  match o with
  | [] => None
  | (k', v) :: o' => if (k =? k')%Z then Some v else get k o'
  end.

Definition has {V} (k : Z) (o : t V) : bool :=
  match get k o with Some _ => true | None => false end.

Definition keys {V} (o : t V) : list Z := map fst o.

Fixpoint replace {V} (k : Z) (v : V) (o : t V) : t V :=
  match o with
  | [] => []
  | (k', v') :: o' =>
      if (k =? k')%Z then (k, v) :: o' else (k', v') :: replace k v o'
  end.

Fixpoint insert_index {V} (k : Z) (v : V) (o : t V) : t V :=
  match o with
  | [] => [(k, v)]
  | (k', v') :: o' =>
      if is_index k' && (k' <? k)%Z
      then (k', v') :: insert_index k v o'
      else (k, v) :: (k', v') :: o'
  end.

(** [o[k] = v] *)
Definition set {V} (k : Z) (v : V) (o : t V) : t V :=
  if has k o then replace k v o
  else if is_index k then insert_index k v o
  else o ++ [(k, v)].

(** [delete o[k]] *)
Fixpoint delete {V} (k : Z) (o : t V) : t V :=
  match o with
  | [] => []
  | (k', v') :: o' =>
      if (k =? k')%Z then delete k o' else (k', v') :: delete k o'
  end.

End JSObj.

(** ** The document *)

(** A layer object.  [layer_name] is [None] when the layer has no [name]
    property; [layer_group] is the enclosing group, absent for the top-level
    group; [layer_adjustment] is [layer instanceof AdjustmentLayer]. *)
Record Layer : Type := mkLayer {
  layer_id : LayerId;
  layer_name : option string;
  layer_group : option LayerRef;
  layer_adjustment : bool
}.

(** The live document, as it is when a method of the asset manager runs:
    [doc_heap] dereferences layer objects (a [group] reference may point
    anywhere, also back into its own chain), [doc_layers] is the order in
    which [document.layers.visit] calls its visitor, [doc_path] is the base
    path the file manager derives in [updateBasePath]. *)
Record Document : Type := mkDocument {
  doc_id : DocumentId;
  doc_saved : bool;
  doc_path : option string;
  doc_heap : LayerRef -> Layer;
  doc_layers : list LayerRef
}.

(** [layer.name ? ... : ...] *)
Definition has_name (doc : Document) (layer : LayerRef) : bool :=
  truthy_string (layer_name (doc_heap doc layer)).

(** ** Components *)

(** A component specification, as parsed from a layer name.  [spec_default]
    is [specification.hasOwnProperty("default")]. *)
Record Specification : Type := mkSpecification {
  spec_name : string;
  spec_file : string;
  spec_default : bool
}.

(** One element of the result of [findAllComponents]. *)
Record ParseResult : Type := mkParseResult {
  result_component : option Specification;
  result_errors : option (list string)
}.

(** A component held by the component manager. *)
Record Component : Type := mkComponent {
  comp_id : ComponentId;
  comp_name : string;
  comp_assetPath : string;
  comp_layer : LayerRef
}.

(** Outcome of [addComponent]: the new component's id, or the message of
    the exception it throws. *)
Inductive AddResult : Type :=
| Added (componentId : ComponentId)
| AddFailed (message : string).

(** The component manager (lib/componentmanager.js), as the asset manager
    uses it.  [getComponentsByLayer] gives the keys of the object the
    method returns. *)
Class ComponentManagerOps (CM : Type) : Type := {
  cm_new : CM;
  findAllComponents : CM -> Document -> LayerRef -> list ParseResult;
  addComponent : CM -> Document -> LayerRef -> Specification -> CM * AddResult;
  removeComponent : CM -> ComponentId -> CM;
  getComponentsByLayer : CM -> LayerId -> list ComponentId;
  getBasicComponentsByLayer : CM -> LayerId -> list Component;
  getDerivedComponents : CM -> ComponentId -> list Component
}.

(** ** Change notifications *)

Record FileChange : Type := mkFileChange {
  (** [change.file.hasOwnProperty("previousSaved")] *)
  file_previousSaved : bool
}.

Record LayerChange : Type := mkLayerChange {
  change_type : string;
  change_layer : LayerRef
}.

Record Change : Type := mkChange {
  change_file : option FileChange;
  change_resolution : option Z;
  change_layers : option (JSObj.t LayerChange)
}.

(** ** Render jobs *)

(** State of a promise (Q's [promise.inspect().state]): a render is
    fulfilled with the temporary path of the asset (or nothing) and rejected
    with an error, or with nothing when it was cancelled. *)
Inductive PromiseState : Type :=
| Pending
| Fulfilled (tmpPath : option string)
| Rejected (err : option string).

Definition is_pending (p : PromiseState) : bool :=
  match p with Pending => true | _ => false end.

(** A promise returned by [renderManager.render], with the component its
    handlers close over.  [job_delivered] holds once the handlers attached
    in [_requestRender] have run; a promise is settled some time before its
    handlers run. *)
Record Job : Type := mkJob {
  job_component : Component;
  job_state : PromiseState;
  job_delivered : bool
}.

(** ** Observable calls *)

Inductive Signal : Type := Active | Idle.

Inductive Event : Type :=
| Emit (signal : Signal) (documentId : DocumentId)
| Render (component : Component)
| CancelRender (componentId : ComponentId)
| CancelAll (documentId : DocumentId)
| UpdateBasePath (documentId : DocumentId)
| MoveFileInto (tmpPath assetPath : string)
| RemoveFileWithin (assetPath : string)
| FileCancelAll
| AddError (layer : LayerRef) (message : string)
| RemoveErrors (layerId : LayerId)
| RemoveAllErrors
| ReportErrors
| LogDebug
| LogWarn (name : string) (layerId : LayerId) (err : string)
| LogCanceled (name : string) (layerId : LayerId)
| AddListener
| RemoveListener.

Global Instance Signal_eq_dec : EqDecision Signal.
Proof. solve_decision. Defined.

(** ** Results

    A computation ends normally or throws.  Every loop of the program is
    over a finite array, and its one recursion, [getDependentLayers], ends
    with a [RangeError] when it uses up the call stack: nothing runs for
    ever. *)
Inductive Res (A : Type) : Type :=
| Done (a : A)
| Throw (message : string).
Arguments Done {A} a.
Arguments Throw {A} message.

(** ** The asset manager and its computations *)

Section AssetManager.

Context {CM : Type} `{!ComponentManagerOps CM}.

(** The fields of an [AssetManager] instance that change: [_renderPromises]
    and [_componentManager] are [null] until [_init] runs.
    [fm_basePath] is [this._fileManager.basePath].

    Modelled from the spec: the promises of the Render Dispatcher
    ([rm_jobs], one per call of [render]) and the subscription to the
    document's change notifications ([listeners], the number of times
    [_handleChange] is registered). *)
Record AssetManager : Type := mkAssetManager {
  _renderPromises : option (gmap Z nat);
  _componentManager : option CM;
  fm_basePath : option string;
  rm_jobs : list Job;
  listeners : nat
}.

(** The instance the constructor builds. *)
Definition created : AssetManager :=
  mkAssetManager None None None [] 0.

Definition set_renderPromises (t : option (gmap Z nat)) (s : AssetManager) :=
  mkAssetManager t (_componentManager s) (fm_basePath s) (rm_jobs s) (listeners s).
Definition set_componentManager (c : option CM) (s : AssetManager) :=
  mkAssetManager (_renderPromises s) c (fm_basePath s) (rm_jobs s) (listeners s).
Definition set_basePath (p : option string) (s : AssetManager) :=
  mkAssetManager (_renderPromises s) (_componentManager s) p (rm_jobs s) (listeners s).
Definition set_jobs (js : list Job) (s : AssetManager) :=
  mkAssetManager (_renderPromises s) (_componentManager s) (fm_basePath s) js (listeners s).
Definition set_listeners (n : nat) (s : AssetManager) :=
  mkAssetManager (_renderPromises s) (_componentManager s) (fm_basePath s) (rm_jobs s) n.

(** *** The monad

    The fields keep the updates made before an exception, and the calls
    made so far stay made. *)

Record Out (A : Type) : Type := mkOut {
  out_res : Res A;
  out_state : AssetManager;
  out_trace : list Event
}.
Arguments mkOut {A} _ _ _.
Arguments out_res {A} _.
Arguments out_state {A} _.
Arguments out_trace {A} _.

Definition M (A : Type) : Type := AssetManager -> Out A.

Definition ret {A} (a : A) : M A := fun s => mkOut (Done a) s [].

(** The calls [trace] were made before the computation that ended as [o]. *)
Definition prepend {A} (trace : list Event) (o : Out A) : Out A :=
  match o with
  | mkOut r s t => mkOut r s (trace ++ t)
  end.

Definition bind {A B} (m : M A) (k : A -> M B) : M B := fun s =>
  match m s with
  | mkOut (Done a) s' t => prepend t (k a s')
  | mkOut (Throw e) s' t => mkOut (Throw e) s' t
  end.

Definition throw {A} (e : string) : M A := fun s => mkOut (Throw e) s [].

Definition lift {A} (r : Res A) : M A := fun s => mkOut r s [].

(** [try { m } catch (ex) { h ex.message }] *)
Definition try_catch {A} (m : M A) (h : string -> M A) : M A := fun s =>
  match m s with
  | mkOut (Throw e) s' t => prepend t (h e s')
  | o => o
  end.

Definition call (e : Event) : M unit := fun s => mkOut (Done tt) s [e].
Definition gets {A} (f : AssetManager -> A) : M A := fun s => mkOut (Done (f s)) s [].
Definition modify (f : AssetManager -> AssetManager) : M unit :=
  fun s => mkOut (Done tt) (f s) [].

End AssetManager.

Arguments AssetManager CM : clear implicits.
Arguments M CM A : clear implicits.
Arguments Out CM A : clear implicits.
Arguments mkOut {CM A} _ _ _.
Arguments prepend {CM A} _ _.
Arguments out_res {CM A} _.
Arguments out_state {CM A} _.
Arguments out_trace {CM A} _.
Arguments _renderPromises {CM} _.
Arguments _componentManager {CM} _.
Arguments fm_basePath {CM} _.
Arguments rm_jobs {CM} _.
Arguments listeners {CM} _.
Arguments mkAssetManager {CM} _ _ _ _ _.

Declare Scope am_scope.
Delimit Scope am_scope with am.
Notation "'let*' x ':=' m 'in' k" := (bind m (fun x => k))
  (at level 10, x name, m at level 100, k at level 200) : am_scope.
Notation "m ;; k" := (bind m (fun _ => k))
  (at level 100, k at level 200, right associativity) : am_scope.
Open Scope am_scope.

Section Methods.

Context {CM : Type} `{!ComponentManagerOps CM}.

Fixpoint forEach {A} (l : list A) (f : A -> M CM unit) : M CM unit :=
  match l with
  | [] => ret tt
  | x :: l' => f x ;; forEach l' f
  end.

(** [l.reduce(f, b)] *)
Fixpoint reduce {A B} (f : B -> A -> M CM B) (l : list A) (b : B) : M CM B :=
  match l with
  | [] => ret b
  | x :: l' => let* b' := f b x in reduce f l' b'
  end.

Definition when (b : bool) (m : M CM unit) : M CM unit :=
  if b then m else ret tt.

(** Reading a property of [null] or [undefined] throws a [TypeError]. *)
Definition deref {A} (v : option A) : M CM A :=
  match v with
  | Some a => ret a
  | None => throw "TypeError"
  end.

Definition the_renderPromises : M CM (gmap Z nat) :=
  let* t := gets _renderPromises in deref t.
Definition the_componentManager : M CM CM :=
  let* c := gets _componentManager in deref c.

(** *** Collaborators *)

(** Modelled from the spec: the Render Dispatcher (lib/rendermanager.js).
    [render] returns a new pending promise; [cancel] settles the pending
    jobs of the component as cancelled (rejected with no error) at once,
    their handlers run later; [cancelAll] does so for every pending job of
    the document.  [cancel_job] is the cancellation of one job. *)
Definition cancel_job (j : Job) : Job :=
  if is_pending (job_state j)
  then mkJob (job_component j) (Rejected None) (job_delivered j)
  else j.

(** Modelled from the spec: [renderManager.render], a new pending job. *)
Definition rm_render (component : Component) : M CM nat :=
  let* jobs := gets rm_jobs in
  modify (set_jobs (jobs ++ [mkJob component Pending false])) ;;
  call (Render component) ;;
  ret (length jobs).

(** Modelled from the spec: the jobs after [renderManager.cancel]. *)
Definition cancel_component (componentId : Z) (jobs : list Job) : list Job :=
  (fun j => if (comp_id (job_component j) =? componentId)%Z
            then cancel_job j else j) <$> jobs.

(** Modelled from the spec: [renderManager.cancel]. *)
Definition rm_cancel (componentId : Z) : M CM unit :=
  modify (fun s => set_jobs (cancel_component componentId (rm_jobs s)) s) ;;
  call (CancelRender componentId).

(** Modelled from the spec: [renderManager.cancelAll]. *)
Definition rm_cancelAll (doc : Document) : M CM unit :=
  modify (fun s => set_jobs (cancel_job <$> rm_jobs s) s) ;;
  call (CancelAll (doc_id doc)).

(** [promise.inspect().state === "pending"]; a reference outside the store
    does not occur in the states an instance reaches. *)
Definition promise_pending (j : nat) : M CM bool :=
  let* jobs := gets rm_jobs in
  ret (match jobs !! j with
       | Some job => is_pending (job_state job)
       | None => false
       end).

(** Modelled from the spec: the Artifact Placer sets its base path from the
    document. *)
Definition fm_updateBasePath (doc : Document) : M CM unit :=
  modify (set_basePath (doc_path doc)) ;;
  call (UpdateBasePath (doc_id doc)).

(** *** Methods *)

(** [getDependentLayers], with [fuel] the number of nested calls the call
    stack has room for.  The recursion has no guard: a call that finds no
    room, as any call after enough others on a cyclic chain of [group]
    references, throws a [RangeError] (maximum call stack size exceeded),
    which no caller in this file catches. *)
Fixpoint getDependentLayers (fuel : nat) (doc : Document) (layer : nat)
  : Res (list nat) :=
  match fuel with
  | O => Throw "RangeError"
  | S fuel' =>
      let dependencies := if has_name doc layer then [layer] else [] in
      match layer_group (doc_heap doc layer) with
      | Some group =>
          match getDependentLayers fuel' doc group with
          | Done ancestors => Done (dependencies ++ ancestors)
          | r => r
          end
      | None => Done dependencies
      end
  end.

Definition _hasPendingRender (componentId : Z) : M CM bool :=
  let* t := the_renderPromises in
  match t !! componentId with
  | Some promise => promise_pending promise
  | None => ret false
  end.

Definition _cleanupDerivedComponents (componentId : Z) : M CM unit :=
  let* cm := the_componentManager in
  forEach (getDerivedComponents cm componentId) (fun derivedComponent =>
    let* pending := _hasPendingRender (comp_id derivedComponent) in
    when pending (rm_cancel (comp_id derivedComponent)) ;;
    call (RemoveFileWithin (comp_assetPath derivedComponent))).

Definition _cleanup (doc : Document) : M CM unit :=
  let* cm := gets _componentManager in
  let* basePath := gets fm_basePath in
  match cm with
  | Some _ =>
      when (truthy_string basePath)
        (forEach (doc_layers doc) (fun layer =>
           match layer_group (doc_heap doc layer) with
           | None => ret tt
           | Some _ =>
               let* cm := the_componentManager in
               forEach (getComponentsByLayer cm (layer_id (doc_heap doc layer)))
                 _cleanupDerivedComponents
           end))
  | None => ret tt
  end.

Definition _requestRender (doc : Document) (component : Component) : M CM unit :=
  let* renderPromise := rm_render component in
  let* t := the_renderPromises in
  when (bool_decide (size t = 0)) (call (Emit Active (doc_id doc))) ;;
  let* t := the_renderPromises in
  modify (set_renderPromises (Some (<[comp_id component := renderPromise]> t))).

(** The value of a string that is known to be truthy. *)
Definition string_of (v : option string) : string := default EmptyString v.

(** The handlers [_requestRender] attaches to the promise ([then], [fail],
    [finally]), as they run once the promise is settled in state [p]. *)
Definition handlers (doc : Document) (component : Component) (p : PromiseState)
  : M CM unit :=
  match p with
  | Pending => ret tt
  | Fulfilled tmpPath =>
      when (truthy_string tmpPath)
        (call (MoveFileInto (string_of tmpPath) (comp_assetPath component)))
  | Rejected err =>
      if truthy_string err
      then call (LogWarn (comp_name component)
                   (layer_id (doc_heap doc (comp_layer component))) (string_of err))
      else call (LogCanceled (comp_name component)
                   (layer_id (doc_heap doc (comp_layer component))))
  end ;;
  let* t := the_renderPromises in
  modify (set_renderPromises (Some (delete (comp_id component) t))) ;;
  let* t := the_renderPromises in
  when (bool_decide (size t = 0)) (call (Emit Idle (doc_id doc))).

Definition _init (doc : Document) : M CM unit :=
  modify (set_renderPromises (Some ∅)) ;;
  modify (set_componentManager (Some cm_new)) ;;
  fm_updateBasePath doc ;;
  call RemoveAllErrors ;;
  rm_cancelAll doc ;;
  let* layerIdsWithComponents :=
    reduce (fun layerIdsWithComponents layer =>
      match layer_group (doc_heap doc layer) with
      | None => ret layerIdsWithComponents
      | Some _ =>
          let* cm := the_componentManager in
          let* hasValidComponent :=
            reduce (fun hasValidComponent result =>
              match result_component result with
              | Some component =>
                  try_catch
                    (let* cm := the_componentManager in
                     match addComponent cm doc layer component with
                     | (cm', Added _) =>
                         modify (set_componentManager (Some cm')) ;; ret true
                     | (cm', AddFailed message) =>
                         modify (set_componentManager (Some cm')) ;; throw message
                     end)
                    (fun message =>
                       call (AddError layer message) ;; ret hasValidComponent)
              | None =>
                  match result_errors result with
                  | Some errors =>
                      forEach errors (fun error => call (AddError layer error)) ;;
                      ret hasValidComponent
                  | None => ret hasValidComponent
                  end
              end) (findAllComponents cm doc layer) false in
          ret (if hasValidComponent : bool
               then layerIdsWithComponents ++ [layer_id (doc_heap doc layer)]
               else layerIdsWithComponents)
      end) (doc_layers doc) [] in
  call ReportErrors ;;
  forEach layerIdsWithComponents (fun layerId =>
    let* cm := the_componentManager in
    forEach (getBasicComponentsByLayer cm layerId) (fun component =>
      let* cm := the_componentManager in
      forEach (getDerivedComponents cm (comp_id component)) (_requestRender doc))).

Definition _reset (doc : Document) : M CM unit :=
  _cleanup doc ;; _init doc.

(** [dependentLayers[layer.id] = layer] for each layer of [layers]. *)
Definition addDependentLayers (doc : Document) (dependentLayers : JSObj.t nat)
    (layers : list nat) : JSObj.t nat :=
  fold_left (fun dependentLayers layer =>
               JSObj.set (layer_id (doc_heap doc layer)) layer dependentLayers)
            layers dependentLayers.

(** One step of the first [reduce] of [_handleChange]. *)
Definition closeLayer (fuel : nat) (doc : Document) (layers : JSObj.t LayerChange)
    (acc : Res (JSObj.t nat)) (id : Z) : Res (JSObj.t nat) :=
  match acc with
  | Done dependentLayers =>
      match JSObj.get id layers with
      | Some layerChange =>
          match getDependentLayers fuel doc (change_layer layerChange) with
          | Done dependencies =>
              Done (addDependentLayers doc dependentLayers dependencies)
          | Throw e => Throw e
          end
      | None => Throw "TypeError"
      end
  | r => r
  end.

(** The first [reduce] of [_handleChange]: the changed layers closed with
    their dependencies. *)
Definition dependentLayersOf (fuel : nat) (doc : Document)
    (layers : JSObj.t LayerChange) : Res (JSObj.t nat) :=
  fold_left (closeLayer fuel doc layers) (JSObj.keys layers) (Done []).

(** [validSpecifications] of one layer: the body of the inner [forEach]. *)
Definition collectStep (layer : nat) (validSpecifications : list Specification)
    (specification : ParseResult) : M CM (list Specification) :=
  match result_component specification with
  | Some component => ret (validSpecifications ++ [component])
  | None =>
      match result_errors specification with
      | Some errors =>
          forEach errors (fun error => call (AddError layer error)) ;;
          ret validSpecifications
      | None => ret validSpecifications
      end
  end.

Definition collectValid (layer : nat) (results : list ParseResult)
  : M CM (list Specification) :=
  reduce (collectStep layer) results [].

(** The second [reduce]: [specificationsByLayer]. *)
Definition specificationsStep (doc : Document) (dependentLayers : JSObj.t nat)
    (specifications : JSObj.t (list Specification)) (layerId : Z)
  : M CM (JSObj.t (list Specification)) :=
  call (RemoveErrors layerId) ;;
  let* layer := deref (JSObj.get layerId dependentLayers) in
  let* cm := the_componentManager in
  let* validSpecifications := collectValid layer (findAllComponents cm doc layer) in
  ret (if (0 <? length validSpecifications)%nat
       then JSObj.set (layer_id (doc_heap doc layer)) validSpecifications
              specifications
       else specifications).

Definition findSpecifications (doc : Document) (dependentLayers : JSObj.t nat)
  : M CM (JSObj.t (list Specification)) :=
  reduce (specificationsStep doc dependentLayers) (JSObj.keys dependentLayers) [].

(** The value of [resetRequired]. *)
Definition resetRequired (doc : Document) (dependentLayers : JSObj.t nat)
    (specificationsByLayer : JSObj.t (list Specification)) : bool :=
  existsb (fun layerId =>
      match JSObj.get layerId dependentLayers with
      | Some layer => layer_adjustment (doc_heap doc layer)
      | None => false
      end
      || existsb spec_default
           (default [] (JSObj.get layerId specificationsByLayer)))
    (JSObj.keys specificationsByLayer).

(** The [filter] that computes [removedLayerIds] and deletes the removed
    layers from [specificationsByLayer]. *)
Definition removedLayers (layers : JSObj.t LayerChange) (changedLayerIds : list Z)
    (specificationsByLayer : JSObj.t (list Specification))
  : M CM (list Z * JSObj.t (list Specification)) :=
  reduce (fun acc layerId =>
      let removedLayerIds := fst acc in
      let specificationsByLayer := snd acc in
      let* layerChange := deref (JSObj.get layerId layers) in
      if String.eqb (change_type layerChange) "removed"
      then ret (removedLayerIds ++ [layerId],
                JSObj.delete layerId specificationsByLayer)
      else ret (removedLayerIds, specificationsByLayer))
    changedLayerIds ([], specificationsByLayer).

(** Clean up and remove the components a layer has in the component
    manager. *)
Definition removeLayerComponents (layerId : Z) : M CM unit :=
  let* cm := the_componentManager in
  forEach (getComponentsByLayer cm layerId) (fun componentId =>
    _cleanupDerivedComponents componentId ;;
    let* cm := the_componentManager in
    modify (set_componentManager (Some (removeComponent cm componentId)))).

(** The body of [currentComponents.forEach]. *)
Definition addCurrentComponent (doc : Document) (layer : nat)
    (component : Specification) : M CM unit :=
  try_catch
    (let* cm := the_componentManager in
     match addComponent cm doc layer component with
     | (cm', Added componentId) =>
         modify (set_componentManager (Some cm')) ;;
         let* cm := the_componentManager in
         forEach (getDerivedComponents cm componentId) (_requestRender doc)
     | (cm', AddFailed message) =>
         modify (set_componentManager (Some cm')) ;; throw message
     end)
    (fun message => call (AddError layer message)).

(** The last [forEach] of [_handleChange], for one layer. *)
Definition updateLayer (doc : Document) (dependentLayers : JSObj.t nat)
    (specificationsByLayer : JSObj.t (list Specification)) (layerId : Z)
  : M CM unit :=
  let* layer := deref (JSObj.get layerId dependentLayers) in
  let* currentComponents := deref (JSObj.get layerId specificationsByLayer) in
  removeLayerComponents layerId ;;
  forEach currentComponents (addCurrentComponent doc layer).

(** The body of [if (change.layers)]. *)
Definition handleLayers (fuel : nat) (doc : Document)
    (layers : JSObj.t LayerChange) : M CM unit :=
  let changedLayerIds := JSObj.keys layers in
  let* dependentLayers := lift (dependentLayersOf fuel doc layers) in
  let* specificationsByLayer := findSpecifications doc dependentLayers in
  if resetRequired doc dependentLayers specificationsByLayer
  then _reset doc
  else
    let* removed := removedLayers layers changedLayerIds specificationsByLayer in
    let removedLayerIds := fst removed in
    let specificationsByLayer := snd removed in
    forEach removedLayerIds (fun layerId =>
      removeLayerComponents layerId ;;
      call (RemoveErrors layerId)) ;;
    forEach (JSObj.keys specificationsByLayer)
      (updateLayer doc dependentLayers specificationsByLayer) ;;
    call ReportErrors.

Definition _handleChange (fuel : nat) (doc : Document) (change : Change)
  : M CM unit :=
  call LogDebug ;;
  let* proceed :=
    match change_file change with
    | Some file =>
        if doc_saved doc && negb (file_previousSaved file)
        then ret false
        else fm_updateBasePath doc ;; ret true
    | None => ret true
    end in
  if proceed : bool
  then
    when (truthy_number (change_resolution change)) (_reset doc) ;;
    match change_layers change with
    | Some layers => handleLayers fuel doc layers
    | None => ret tt
    end
  else ret tt.

Definition start (doc : Document) : M CM unit :=
  modify (fun s => set_listeners (S (listeners s)) s) ;;
  call AddListener ;;
  _init doc.

Definition stop (doc : Document) : M CM unit :=
  modify (fun s => set_listeners (pred (listeners s)) s) ;;
  call RemoveListener ;;
  rm_cancelAll doc ;;
  call FileCancelAll.

(** *** The instance in its environment

    What happens to an instance: its owner starts or stops it, the document
    emits a change notification (handled once per registration of
    [_handleChange]), the render manager settles a pending promise, and the
    handlers of a settled promise run. *)
Inductive Input : Type :=
| DoStart
| DoStop
| Notify (change : Change)
| Settle (job : nat) (p : PromiseState)
| Deliver (job : nat).

Fixpoint times (n : nat) (m : M CM unit) : M CM unit :=
  match n with
  | O => ret tt
  | S n' => m ;; times n' m
  end.

(** Modelled from the spec: the render manager settles a pending promise
    in state [p]; a settled promise stays as it is. *)
Definition settle (job : nat) (p : PromiseState) : M CM unit :=
  let* jobs := gets rm_jobs in
  match jobs !! job with
  | Some j =>
      when (is_pending (job_state j) && negb (is_pending p))
        (modify (set_jobs (<[job := mkJob (job_component j) p (job_delivered j)]> jobs)))
  | None => ret tt
  end.

(** The handlers of a settled promise run, once. *)
Definition deliver (doc : Document) (job : nat) : M CM unit :=
  let* jobs := gets rm_jobs in
  match jobs !! job with
  | Some j =>
      when (negb (is_pending (job_state j)) && negb (job_delivered j))
        (modify (set_jobs (<[job := mkJob (job_component j) (job_state j) true]> jobs)) ;;
         handlers doc (job_component j) (job_state j))
  | None => ret tt
  end.

Definition step (fuel : nat) (doc : Document) (i : Input) : M CM unit :=
  match i with
  | DoStart => start doc
  | DoStop => stop doc
  | Notify change =>
      let* n := gets listeners in
      times n (_handleChange fuel doc change)
  | Settle job p => settle job p
  | Deliver job => deliver doc job
  end.

(** An exception that leaves a step goes to the code that made the call
    ([document.emit] passes on what a listener throws); the instance stays
    as the step left it. *)
Definition uncaught (m : M CM unit) : M CM unit :=
  try_catch m (fun _ => ret tt).

(** A run: each input comes with the document as it is at that time, and
    the instance goes on with the next input whether or not the step threw
    (a run that ends with the exception is the run of the inputs so far). *)
Fixpoint run (fuel : nat) (inputs : list (Document * Input)) : M CM unit :=
  match inputs with
  | [] => ret tt
  | (doc, i) :: inputs' => uncaught (step fuel doc i) ;; run fuel inputs'
  end.

End Methods.

(** ** A component manager for the examples *)

(** Modelled from the spec: a Component Catalog with the simplest parser.
    A named layer has one basic component, whose name and asset path are the
    layer's name and which is flagged "default" when the name starts with
    [default]; a basic component has one derived component, itself; adding
    a component whose asset path is taken already fails (a name
    collision). *)
Record SimpleCM : Type := mkSimpleCM {
  next_id : Z;
  catalog : list (Z * Component)
}.

Definition simple_find (doc : Document) (layer : nat) : list ParseResult :=
  match layer_name (doc_heap doc layer) with
  | Some name =>
      if String.eqb name EmptyString then []
      else [mkParseResult
              (Some (mkSpecification name name (String.prefix "default" name)))
              None]
  | None => []
  end.

Definition simple_add (cm : SimpleCM) (doc : Document) (layer : nat)
    (spec : Specification) : SimpleCM * AddResult :=
  if existsb (fun e => String.eqb (comp_assetPath (snd e)) (spec_file spec))
       (catalog cm)
  then (cm, AddFailed "Duplicate asset path")
  else (mkSimpleCM (next_id cm + 1)
          (catalog cm ++
             [(layer_id (doc_heap doc layer),
               mkComponent (next_id cm) (spec_name spec) (spec_file spec) layer)]),
        Added (next_id cm)).

Global Instance simple_ops : ComponentManagerOps SimpleCM := {
  cm_new := mkSimpleCM 1 [];
  findAllComponents := fun _ => simple_find;
  addComponent := simple_add;
  removeComponent := fun cm id =>
    mkSimpleCM (next_id cm)
      (List.filter (fun e => negb (comp_id (snd e) =? id)%Z) (catalog cm));
  getComponentsByLayer := fun cm layerId =>
    map (fun e => comp_id (snd e))
      (List.filter (fun e => (fst e =? layerId)%Z) (catalog cm));
  getBasicComponentsByLayer := fun cm layerId =>
    map snd (List.filter (fun e => (fst e =? layerId)%Z) (catalog cm));
  getDerivedComponents := fun cm id =>
    map snd (List.filter (fun e => (comp_id (snd e) =? id)%Z) (catalog cm))
}.

(** ** Documents and instances used in the examples *)

Open Scope string_scope.

(** A document with a root group and one layer named [icon.png]. *)
Definition icon_heap (layer : nat) : Layer :=
  match layer with
  | 1 => mkLayer 1 (Some "icon.png") (Some 0) false
  | _ => mkLayer 0 None None false
  end.

Definition icon_doc : Document :=
  mkDocument 7 true (Some "/assets") icon_heap [0; 1].

(** The chain of P4: A (named) in B (named) in C (unnamed) in D (root). *)
Definition p4_heap (layer : nat) : Layer :=
  match layer with
  | 1 => mkLayer 11 (Some "a.png") (Some 2) false
  | 2 => mkLayer 12 (Some "b") (Some 3) false
  | 3 => mkLayer 13 None (Some 0) false
  | _ => mkLayer 0 (Some "d") None false
  end.

Definition p4_doc : Document :=
  mkDocument 7 true (Some "/assets") p4_heap [0; 3; 2; 1].

(** A malformed document: layer 1 is its own group. *)
Definition cyclic_heap (layer : nat) : Layer :=
  match layer with
  | 1 => mkLayer 1 (Some "loop.png") (Some 1) false
  | _ => mkLayer 0 None None false
  end.

Definition cyclic_doc : Document :=
  mkDocument 7 true (Some "/assets") cyclic_heap [0; 1].



(** An instance that is started and has rendered nothing yet. *)
Definition started : AssetManager SimpleCM :=
  mkAssetManager (Some ∅) (Some cm_new) (Some "/assets") [] 1.

Definition icon_component : Component := mkComponent 1 "icon.png" "icon.png" 1.

Close Scope string_scope.

(** ** Notions the properties are stated with *)

(** The chain of [group] references of a layer, from the layer itself up to
    a layer without group.  A layer whose references run in a cycle has no
    chain. *)
Inductive group_chain (doc : Document) : nat -> list nat -> Prop :=
| chain_top (layer : nat) :
    layer_group (doc_heap doc layer) = None ->
    group_chain doc layer [layer]
| chain_group (layer group : nat) (ancestors : list nat) :
    layer_group (doc_heap doc layer) = Some group ->
    group_chain doc group ancestors ->
    group_chain doc layer (layer :: ancestors).

(** Every changed layer has a chain, and the call stack has room for the
    walk along it. *)
Definition walkable (fuel : nat) (doc : Document) (layers : JSObj.t LayerChange)
  : Prop :=
  forall k layerChange, JSObj.get k layers = Some layerChange ->
    exists chain, group_chain doc (change_layer layerChange) chain /\
                  length chain <= fuel.

Section Notions.

Context {CM : Type} `{!ComponentManagerOps CM}.

(** [_init] has run: the two fields it sets are not [null]. *)
Definition initialised (s : AssetManager CM) : Prop :=
  is_Some (_renderPromises s) /\ is_Some (_componentManager s).

(** Every entry of the table refers to a promise of the store, made for the
    component the entry is keyed by. *)
Definition table_ok (t : gmap Z nat) (jobs : list Job) : Prop :=
  forall c j, t !! c = Some j ->
    exists job, jobs !! j = Some job /\ comp_id (job_component job) = c.

Definition wf (s : AssetManager CM) : Prop :=
  forall t, _renderPromises s = Some t -> table_ok t (rm_jobs s).

(** The number of render jobs in flight: requested, and their handlers
    have not run yet. *)
Definition in_flight (s : AssetManager CM) : nat :=
  length (List.filter (fun j => negb (job_delivered j)) (rm_jobs s)).

(** The table holds exactly the jobs in flight, each under the id of its
    component. *)
Definition tracks (s : AssetManager CM) : Prop :=
  exists t, _renderPromises s = Some t /\
    forall c j, t !! c = Some j <->
      exists job, rm_jobs s !! j = Some job /\ job_delivered job = false /\
                  comp_id (job_component job) = c.

(** Render requests and settlements: a settlement is the promise being
    settled (unless it was cancelled before) and its handlers running. *)
Inductive RenderEvent : Type :=
| Request (component : Component)
| Settlement (job : nat) (p : PromiseState).

Definition render_step (doc : Document) (e : RenderEvent) : M CM unit :=
  match e with
  | Request component => _requestRender doc component
  | Settlement job p => settle job p ;; deliver doc job
  end.

Definition is_emit (signal : Signal) (e : Event) : bool :=
  match e with
  | Emit signal' _ => bool_decide (signal = signal')
  | _ => false
  end.

(** How often a signal is emitted in a trace. *)
Definition emitted (signal : Signal) (trace : list Event) : nat :=
  length (List.filter (is_emit signal) trace).

(** One step is edge-triggered: "active" is emitted once if the count of
    jobs in flight goes from zero to non-zero and not otherwise, "idle" once
    if it goes from non-zero to zero and not otherwise. *)
Definition edge (before after : nat) (trace : list Event) : bool :=
  (emitted Active trace =? (if (before =? 0) && negb (after =? 0) then 1 else 0))
  && (emitted Idle trace =? (if negb (before =? 0) && (after =? 0) then 1 else 0)).

Fixpoint edge_triggered (doc : Document) (events : list RenderEvent)
    (s : AssetManager CM) : bool :=
  match events with
  | [] => true
  | e :: events' =>
      let o := render_step doc e s in
      edge (in_flight s) (in_flight (out_state o)) (out_trace o)
      && edge_triggered doc events' (out_state o)
  end.

(** No render is requested for a component id that has an entry in the
    table at that time. *)
Fixpoint fresh_requests (doc : Document) (events : list RenderEvent)
    (s : AssetManager CM) : bool :=
  match events with
  | [] => true
  | e :: events' =>
      match e, _renderPromises s with
      | Request component, Some t => bool_decide (t !! comp_id component = None)
      | _, _ => true
      end
      && fresh_requests doc events' (out_state (render_step doc e s))
  end.

(** The four outcomes of a render job. *)
Definition success_with_path (p : PromiseState) : bool :=
  match p with Fulfilled tmpPath => truthy_string tmpPath | _ => false end.
Definition success_without_path (p : PromiseState) : bool :=
  match p with Fulfilled tmpPath => negb (truthy_string tmpPath) | _ => false end.
Definition failure (p : PromiseState) : bool :=
  match p with Rejected err => truthy_string err | _ => false end.
Definition cancellation (p : PromiseState) : bool :=
  match p with Rejected err => negb (truthy_string err) | _ => false end.

(** The valid specifications [findAllComponents] yields for a layer. *)
Definition validSpecifications (cm : CM) (doc : Document) (layer : nat)
  : list Specification :=
  flat_map (fun r => match result_component r with Some c => [c] | None => [] end)
           (findAllComponents cm doc layer).


(** [_hasPendingRender], as a function of the table and the promises. *)
Definition pending_in (t : gmap Z nat) (jobs : list Job) (componentId : Z) : bool :=
  match t !! componentId with
  | Some j =>
      match jobs !! j with
      | Some job => is_pending (job_state job)
      | None => false
      end
  | None => false
  end.

(** The promises after the loop of [_cleanupDerivedComponents] over the
    derived components [ds], and the calls the loop makes. *)
Fixpoint cleanup_jobs (t : gmap Z nat) (ds : list Component) (jobs : list Job)
  : list Job :=
  match ds with
  | [] => jobs
  | d :: ds' =>
      cleanup_jobs t ds'
        (if pending_in t jobs (comp_id d)
         then cancel_component (comp_id d) jobs else jobs)
  end.

Fixpoint cleanup_trace (t : gmap Z nat) (ds : list Component) (jobs : list Job)
  : list Event :=
  match ds with
  | [] => []
  | d :: ds' =>
      (if pending_in t jobs (comp_id d) then [CancelRender (comp_id d)] else [])
      ++ RemoveFileWithin (comp_assetPath d)
      :: cleanup_trace t ds'
           (if pending_in t jobs (comp_id d)
            then cancel_component (comp_id d) jobs else jobs)
  end.

Definition is_removeFile (e : Event) : bool :=
  match e with RemoveFileWithin _ => true | _ => false end.

(** What the table and the count of jobs in flight depend on. *)
Definition job_key (j : Job) : Component * bool :=
  (job_component j, job_delivered j).

(** What the [then] and [fail] handlers of a job do for each state of its
    promise, and what [finally] emits once the table is [t]. *)
Definition outcome_events (doc : Document) (c : Component) (p : PromiseState)
  : list Event :=
  if success_with_path p then
    [MoveFileInto (string_of (match p with Fulfilled v => v | _ => None end))
       (comp_assetPath c)]
  else if failure p then
    [LogWarn (comp_name c) (layer_id (doc_heap doc (comp_layer c)))
       (string_of (match p with Rejected v => v | _ => None end))]
  else if cancellation p then
    [LogCanceled (comp_name c) (layer_id (doc_heap doc (comp_layer c)))]
  else [].

Definition idle_events (doc : Document) (t : gmap Z nat) : list Event :=
  if bool_decide (size t = 0) then [Emit Idle (doc_id doc)] else [].

(** Calls that undo a render or an asset. *)
Definition undoes (e : Event) : Prop :=
  match e with
  | CancelRender _ | CancelAll _ | RemoveFileWithin _ => True
  | _ => False
  end.

(** Calls to the error manager that record or clear the errors of a layer. *)
Definition diagnostic (e : Event) : Prop :=
  match e with
  | AddError _ _ | RemoveErrors _ => True
  | _ => False
  end.

(** [specificationsByLayer], as a function of the component manager and the
    closure. *)
Definition specificationsOfStep (cm : CM) (doc : Document) (deps : JSObj.t nat)
    (specs : JSObj.t (list Specification)) (layerId : Z)
  : JSObj.t (list Specification) :=
  match JSObj.get layerId deps with
  | Some layer =>
      if (0 <? length (validSpecifications cm doc layer))%nat
      then JSObj.set (layer_id (doc_heap doc layer))
             (validSpecifications cm doc layer) specs
      else specs
  | None => specs
  end.

Definition specificationsOf (cm : CM) (doc : Document) (deps : JSObj.t nat)
  : JSObj.t (list Specification) :=
  fold_left (specificationsOfStep cm doc deps) (JSObj.keys deps) [].

(** Sets of calls. *)
Definition anything (e : Event) : Prop := True.
Definition not_active (e : Event) : Prop := forall d, e <> Emit Active d.

(** No change listener is registered. *)
Definition stopped (s : AssetManager CM) : Prop := listeners s = 0.

(** [m] keeps [I] and emits only events in [Q], however it ends. *)
Definition safe {A} (I : AssetManager CM -> Prop) (Q : Event -> Prop)
    (m : M CM A) : Prop :=
  forall s, I s -> I (out_state (m s)) /\ Forall Q (out_trace (m s)).

(** [m] ends normally from every state in [I]. *)
Definition completes {A} (I : AssetManager CM -> Prop) (m : M CM A) : Prop :=
  forall s, I s -> exists a, out_res (m s) = Done a.

End Notions.


(** ** Notions for the further properties *)

Section FurtherNotions.

Context {CM : Type} `{!ComponentManagerOps CM}.

(** The parts of [_init], named: the body of the inner [forEach], the
    visitor, the traversal that computes [layerIdsWithComponents], and the
    final loop that requests the renders. *)
Definition initResult (doc : Document) (layer : nat) (hasValidComponent : bool)
    (result : ParseResult) : M CM bool :=
  match result_component result with
  | Some component =>
      try_catch
        (let* cm := the_componentManager in
         match addComponent cm doc layer component with
         | (cm', Added _) =>
             modify (set_componentManager (Some cm')) ;; ret true
         | (cm', AddFailed message) =>
             modify (set_componentManager (Some cm')) ;; throw message
         end)
        (fun message =>
           call (AddError layer message) ;; ret hasValidComponent)
  | None =>
      match result_errors result with
      | Some errors =>
          forEach errors (fun error => call (AddError layer error)) ;;
          ret hasValidComponent
      | None => ret hasValidComponent
      end
  end.

Definition initLayer (doc : Document) (layerIdsWithComponents : list Z)
    (layer : nat) : M CM (list Z) :=
  match layer_group (doc_heap doc layer) with
  | None => ret layerIdsWithComponents
  | Some _ =>
      let* cm := the_componentManager in
      let* hasValidComponent :=
        reduce (initResult doc layer) (findAllComponents cm doc layer) false in
      ret (if hasValidComponent : bool
           then layerIdsWithComponents ++ [layer_id (doc_heap doc layer)]
           else layerIdsWithComponents)
  end.

Definition initLayers (doc : Document) : M CM (list Z) :=
  reduce (initLayer doc) (doc_layers doc) [].

Definition initRenders (doc : Document) (layerIdsWithComponents : list Z)
  : M CM unit :=
  forEach layerIdsWithComponents (fun layerId =>
    let* cm := the_componentManager in
    forEach (getBasicComponentsByLayer cm layerId) (fun component =>
      let* cm := the_componentManager in
      forEach (getDerivedComponents cm (comp_id component)) (_requestRender doc))).

(** The components [initRenders] asks renders for, in order. *)
Definition initComponents (cm : CM) (layerIds : list Z) : list Component :=
  flat_map (fun layerId =>
      flat_map (fun component => getDerivedComponents cm (comp_id component))
               (getBasicComponentsByLayer cm layerId))
    layerIds.

(** The promise [renderManager.render] returns. *)
Definition new_job (c : Component) : Job := mkJob c Pending false.

(** The table after the renders of [cs] are requested in turn, the first
    promise being number [n], and the calls made when the table was [t]. *)
Fixpoint render_table (t : gmap Z nat) (n : nat) (cs : list Component)
  : gmap Z nat :=
  match cs with
  | [] => t
  | c :: cs' => render_table (<[comp_id c := n]> t) (S n) cs'
  end.

Definition render_trace (doc : Document) (t : gmap Z nat) (cs : list Component)
  : list Event :=
  match cs with
  | [] => []
  | c :: cs' =>
      Render c
      :: (if bool_decide (size t = 0) then [Emit Active (doc_id doc)] else [])
      ++ map Render cs'
  end.

(** Each promise is as it was, or was pending and is cancelled. *)
Definition only_cancelled (jobs jobs' : list Job) : Prop :=
  Forall2 (fun j j' => j' = j \/ (is_pending (job_state j) = true /\ j' = cancel_job j))
          jobs jobs'.

(** Kinds of calls. *)
Definition is_render (e : Event) : bool :=
  match e with Render _ => true | _ => false end.
Definition asset_call (e : Event) : Prop :=
  match e with
  | CancelRender _ | RemoveFileWithin _ => True
  | _ => False
  end.
Definition render_call (e : Event) : Prop :=
  match e with
  | Render _ | Emit Active _ => True
  | _ => False
  end.
(** An error recorded for a layer that has a group. *)
Definition grouped_error (doc : Document) (e : Event) : Prop :=
  match e with
  | AddError layer _ => layer_group (doc_heap doc layer) <> None
  | _ => False
  end.

(** [layerChange.type === "removed"] for the change of a layer id. *)
Definition is_removed (layers : JSObj.t LayerChange) (layerId : Z) : bool :=
  match JSObj.get layerId layers with
  | Some layerChange => String.eqb (change_type layerChange) "removed"
  | None => false
  end.

(** The derived components [_cleanup] visits: those of the components of
    the layers that lie in a group, in the order of the visit. *)
Definition cleanupComponents (cm : CM) (doc : Document) (layers : list nat)
  : list Component :=
  flat_map (fun layer =>
      match layer_group (doc_heap doc layer) with
      | Some _ =>
          flat_map (getDerivedComponents cm)
                   (getComponentsByLayer cm (layer_id (doc_heap doc layer)))
      | None => []
      end) layers.

(** The calls made when the specifications of [layer] are added. *)
Definition update_call (layer : nat) (e : Event) : Prop :=
  match e with
  | Render _ | Emit Active _ => True
  | AddError layer' _ => layer' = layer
  | _ => False
  end.

(** Calls other than the report of the errors. *)
Definition unreported (e : Event) : Prop := e <> ReportErrors.

(** What holds of every state an instance reaches: [_init] has run, or
    the instance has no listener and no job. *)
Definition sound (s : AssetManager CM) : Prop :=
  initialised s \/ (listeners s = 0 /\ rm_jobs s = []).

(** [m] ends normally from a state in [I], and keeps [I]. *)
Definition unfailing {A} (I : AssetManager CM -> Prop) (m : M CM A) : Prop :=
  forall s, I s -> (exists a, out_res (m s) = Done a) /\ I (out_state (m s)).

(** The check of the file at the head of [_handleChange] lets the change
    through: it has no [file], or the document is not saved, or the file
    change has [previousSaved]. *)
Definition passes_file_check (doc : Document) (change : Change) : Prop :=
  forall file, change_file change = Some file ->
    doc_saved doc && negb (file_previousSaved file) = false.

(** The state and the calls once a change is through the check: a change
    of the file updates the base path. *)
Definition after_file_check (doc : Document) (change : Change)
    (s : AssetManager CM) : AssetManager CM :=
  match change_file change with
  | Some _ => set_basePath (doc_path doc) s
  | None => s
  end.

Definition file_check_calls (doc : Document) (change : Change) : list Event :=
  LogDebug ::
  match change_file change with
  | Some _ => [UpdateBasePath (doc_id doc)]
  | None => []
  end.



(** The pass that cleans up and removes the components [ids] of a layer,
    one after the other, from component manager [cm]: the promises it
    leaves and the calls it makes. *)
Fixpoint removal_jobs (t : gmap Z nat) (ids : list Z) (cm : CM) (jobs : list Job)
  : list Job :=
  match ids with
  | [] => jobs
  | id :: ids' =>
      removal_jobs t ids' (removeComponent cm id)
        (cleanup_jobs t (getDerivedComponents cm id) jobs)
  end.

Fixpoint removal_trace (t : gmap Z nat) (ids : list Z) (cm : CM) (jobs : list Job)
  : list Event :=
  match ids with
  | [] => []
  | id :: ids' =>
      cleanup_trace t (getDerivedComponents cm id) jobs
      ++ removal_trace t ids' (removeComponent cm id)
           (cleanup_jobs t (getDerivedComponents cm id) jobs)
  end.

(** The pass that adds the specifications [specs] of [layer], one after the
    other, to component manager [cm]: the component manager it leaves, the
    components it requests renders for, and the calls it makes when the
    table is [t]. *)
Definition added_manager (doc : Document) (layer : nat)
    (specs : list Specification) (cm : CM) : CM :=
  fold_left (fun cm specification => fst (addComponent cm doc layer specification))
            specs cm.

Fixpoint added_components (doc : Document) (layer : nat)
    (specs : list Specification) (cm : CM) : list Component :=
  match specs with
  | [] => []
  | specification :: specs' =>
      match addComponent cm doc layer specification with
      | (cm', Added componentId) =>
          getDerivedComponents cm' componentId
          ++ added_components doc layer specs' cm'
      | (cm', AddFailed _) => added_components doc layer specs' cm'
      end
  end.

Fixpoint added_trace (doc : Document) (layer : nat) (specs : list Specification)
    (cm : CM) (t : gmap Z nat) (n : nat) : list Event :=
  match specs with
  | [] => []
  | specification :: specs' =>
      match addComponent cm doc layer specification with
      | (cm', Added componentId) =>
          render_trace doc t (getDerivedComponents cm' componentId)
          ++ added_trace doc layer specs' cm'
               (render_table t n (getDerivedComponents cm' componentId))
               (n + length (getDerivedComponents cm' componentId))
      | (cm', AddFailed message) =>
          AddError layer message :: added_trace doc layer specs' cm' t n
      end
  end.

End FurtherNotions.

(** ** Facts about objects *)

Module JSObjFacts.
Import JSObj.

Lemma get_replace {V} (k k' : Z) (v : V) (o : t V) :
  get k o <> None ->
  get k' (replace k v o) = if (k' =? k)%Z then Some v else get k' o.
Proof.
  induction o as [|[k1 v1] o IH]; simpl; [congruence|].
  intros Hk. destruct (Z.eqb_spec k k1) as [->|Hne]; simpl.
  - destruct (Z.eqb_spec k' k1); reflexivity.
  - destruct (Z.eqb_spec k' k1) as [->|Hne'].
    + destruct (Z.eqb_spec k1 k); [congruence | reflexivity].
    + apply IH, Hk.
Qed.

Lemma get_insert_index {V} (k k' : Z) (v : V) (o : t V) :
  get k o = None ->
  get k' (insert_index k v o) = if (k' =? k)%Z then Some v else get k' o.
Proof.
  induction o as [|[k1 v1] o IH]; simpl; intros Hk.
  - destruct (k' =? k)%Z; reflexivity.
  - destruct (Z.eqb_spec k k1) as [->|Hne]; [discriminate|].
    destruct (is_index k1 && (k1 <? k)%Z); simpl.
    + destruct (Z.eqb_spec k' k1) as [->|Hne'].
      * destruct (Z.eqb_spec k1 k); [congruence | reflexivity].
      * apply IH, Hk.
    + destruct (Z.eqb_spec k' k); reflexivity.
Qed.

Lemma get_app_new {V} (k k' : Z) (v : V) (o : t V) :
  get k o = None ->
  get k' (o ++ [(k, v)]) = if (k' =? k)%Z then Some v else get k' o.
Proof.
  induction o as [|[k1 v1] o IH]; simpl; intros Hk.
  - reflexivity.
  - destruct (Z.eqb_spec k k1) as [->|Hne]; [discriminate|].
    destruct (Z.eqb_spec k' k1) as [->|Hne'].
    + destruct (Z.eqb_spec k1 k); [congruence | reflexivity].
    + apply IH, Hk.
Qed.

Lemma get_set {V} (k k' : Z) (v : V) (o : t V) :
  get k' (set k v o) = if (k' =? k)%Z then Some v else get k' o.
Proof.
  unfold set, has. destruct (get k o) eqn:E.
  - apply get_replace. congruence.
  - destruct (is_index k); [apply get_insert_index | apply get_app_new]; exact E.
Qed.

Lemma get_delete {V} (k k' : Z) (o : t V) :
  get k' (delete k o) = if (k' =? k)%Z then None else get k' o.
Proof.
  induction o as [|[k1 v1] o IH]; simpl.
  - destruct (k' =? k)%Z; reflexivity.
  - destruct (Z.eqb_spec k k1) as [->|Hne]; simpl.
    + rewrite IH. destruct (Z.eqb_spec k' k1); reflexivity.
    + destruct (Z.eqb_spec k' k1) as [->|Hne'].
      * destruct (Z.eqb_spec k1 k); [congruence | reflexivity].
      * apply IH.
Qed.

Lemma in_keys {V} (k : Z) (o : t V) : In k (keys o) <-> get k o <> None.
Proof.
  unfold keys. induction o as [|[k1 v1] o IH]; simpl.
  - split; [tauto | congruence].
  - destruct (Z.eqb_spec k k1) as [->|Hne].
    + split; [congruence | auto].
    + rewrite <- IH. split; [intros [?|?]; [congruence | assumption] | auto].
Qed.

Lemma keys_replace {V} (k : Z) (v : V) (o : t V) :
  keys (replace k v o) = keys o.
Proof.
  unfold keys. induction o as [|[k1 v1] o IH]; simpl; [reflexivity|].
  destruct (Z.eqb_spec k k1) as [->|Hne]; simpl; [reflexivity | now rewrite IH].
Qed.

Lemma keys_insert_index {V} (k : Z) (v : V) (o : t V) :
  Permutation (keys (insert_index k v o)) (k :: keys o).
Proof.
  unfold keys. induction o as [|[k1 v1] o IH]; simpl; [reflexivity|].
  destruct (is_index k1 && (k1 <? k)%Z); simpl; [|reflexivity].
  rewrite IH. apply perm_swap.
Qed.

Lemma nodup_keys_set {V} (k : Z) (v : V) (o : t V) :
  NoDup (keys o) -> NoDup (keys (set k v o)).
Proof.
  intros Hnd. unfold set, has. destruct (get k o) eqn:E.
  - now rewrite keys_replace.
  - assert (Hk : ~ In k (keys o)) by (rewrite in_keys; congruence).
    destruct (is_index k).
    + rewrite keys_insert_index. apply NoDup_cons_2; [|assumption].
      now rewrite list_elem_of_In.
    + unfold keys in *. rewrite map_app. simpl.
      apply NoDup_app. repeat split.
      * assumption.
      * intros x Hx Hx'. apply list_elem_of_In in Hx, Hx'.
        destruct Hx' as [->|[]]. contradiction.
      * apply NoDup_singleton.
Qed.

End JSObjFacts.

(** ** The dependency closure *)

Section Closure.

Variable doc : Document.

Lemma group_chain_functional (layer : nat) (c1 c2 : list nat) :
  group_chain doc layer c1 -> group_chain doc layer c2 -> c1 = c2.
Proof.
  intros H1. revert c2. induction H1 as [l Hl | l g anc Hl _ IH]; intros c2 H2.
  - inversion H2; subst; [reflexivity | congruence].
  - inversion H2; subst; [congruence|].
    assert (g = group) by congruence. subst. f_equal. now apply IH.
Qed.

(** With enough depth the recursion returns the named layers of the chain. *)
Lemma getDependentLayers_chain (layer : nat) (chain : list nat) :
  group_chain doc layer chain ->
  forall fuel, length chain <= fuel ->
  getDependentLayers fuel doc layer = Done (List.filter (has_name doc) chain).
Proof.
  induction 1 as [l Hl | l g anc Hl _ IH]; intros fuel Hfuel;
    (destruct fuel as [|fuel]; [simpl in Hfuel; lia|]); simpl; rewrite Hl.
  - destruct (has_name doc l); reflexivity.
  - rewrite IH by (simpl in Hfuel; lia).
    destruct (has_name doc l); reflexivity.
Qed.

(** A recursion that returns has walked a chain. *)
Lemma getDependentLayers_done (fuel : nat) (layer : nat) (deps : list nat) :
  getDependentLayers fuel doc layer = Done deps ->
  exists chain, group_chain doc layer chain /\ length chain <= fuel
                /\ deps = List.filter (has_name doc) chain.
Proof.
  revert layer deps. induction fuel as [|fuel IH]; intros layer deps; simpl;
    [discriminate|].
  destruct (layer_group (doc_heap doc layer)) as [g|] eqn:Hg.
  - destruct (getDependentLayers fuel doc g) as [anc|e] eqn:Hrec; try discriminate.
    intros [= <-]. destruct (IH _ _ Hrec) as (chain & Hc & Hlen & ->).
    exists (layer :: chain). split; [now apply chain_group with g|].
    split; [simpl; lia|]. simpl. destruct (has_name doc layer); reflexivity.
  - intros [= <-]. exists [layer]. split; [now apply chain_top|].
    split; [simpl; lia|]. simpl. destruct (has_name doc layer); reflexivity.
Qed.

(** The only exception of the recursion is the [RangeError]. *)
Lemma getDependentLayers_throw (fuel : nat) : forall (layer : nat) (e : string),
  getDependentLayers fuel doc layer = Throw e -> e = "RangeError"%string.
Proof.
  induction fuel as [|fuel IH]; intros layer e; simpl; [now intros [= <-]|].
  destruct (layer_group (doc_heap doc layer)) as [g|]; [|discriminate].
  destruct (getDependentLayers fuel doc g) as [anc|e'] eqn:Hrec; [discriminate|].
  intros [= <-]. now apply (IH g).
Qed.

(** A chain longer than the call stack has room for overflows it. *)
Lemma getDependentLayers_short (layer : nat) (chain : list nat) (fuel : nat) :
  group_chain doc layer chain -> fuel < length chain ->
  getDependentLayers fuel doc layer = Throw "RangeError".
Proof.
  intros Hc Hlen.
  destruct (getDependentLayers fuel doc layer) as [deps|e] eqn:Hres.
  - destruct (getDependentLayers_done _ _ _ Hres) as (chain' & Hc' & Hlen' & _).
    rewrite (group_chain_functional _ _ _ Hc' Hc) in Hlen'. lia.
  - now rewrite (getDependentLayers_throw _ _ _ Hres).
Qed.

(** Without a chain, as on a cycle, there is room for no walk. *)
Lemma getDependentLayers_unchained (layer : nat) (fuel : nat) :
  (forall chain, ~ group_chain doc layer chain) ->
  getDependentLayers fuel doc layer = Throw "RangeError".
Proof.
  intros Hno.
  destruct (getDependentLayers fuel doc layer) as [deps|e] eqn:Hres.
  - destruct (getDependentLayers_done _ _ _ Hres) as (chain & Hc & _).
    now destruct (Hno chain).
  - now rewrite (getDependentLayers_throw _ _ _ Hres).
Qed.

Lemma get_addDependentLayers (acc : JSObj.t nat) (ds : list nat) (id : Z) (l : nat) :
  JSObj.get id (addDependentLayers doc acc ds) = Some l ->
  JSObj.get id acc = Some l \/ (In l ds /\ layer_id (doc_heap doc l) = id).
Proof.
  unfold addDependentLayers. revert acc.
  induction ds as [|d ds IH]; intros acc; simpl; [auto|].
  intros H. apply IH in H. destruct H as [H|[H1 H2]]; [|auto].
  rewrite JSObjFacts.get_set in H. destruct (Z.eqb_spec id (layer_id (doc_heap doc d))).
  - injection H as <-. auto.
  - auto.
Qed.

Lemma keys_addDependentLayers (acc : JSObj.t nat) (ds : list nat) (id : Z) :
  In id (JSObj.keys (addDependentLayers doc acc ds)) <->
  In id (JSObj.keys acc) \/ exists l, In l ds /\ layer_id (doc_heap doc l) = id.
Proof.
  unfold addDependentLayers. revert acc.
  induction ds as [|d ds IH]; intros acc; simpl.
  - split; [auto | intros [H|(l & [] & _)]; exact H].
  - rewrite IH. rewrite !JSObjFacts.in_keys, JSObjFacts.get_set.
    destruct (Z.eqb_spec id (layer_id (doc_heap doc d))) as [->|Hne].
    + split; [intros _; right; eauto | intros _; left; congruence].
    + split.
      * intros [H|(l & Hl & Hid)]; [auto | right; eauto].
      * intros [H|(l & [->|Hl] & Hid)]; [auto | congruence | right; eauto].
Qed.

Lemma nodup_addDependentLayers (acc : JSObj.t nat) (ds : list nat) :
  NoDup (JSObj.keys acc) -> NoDup (JSObj.keys (addDependentLayers doc acc ds)).
Proof.
  unfold addDependentLayers. revert acc.
  induction ds as [|d ds IH]; intros acc H; simpl; [exact H|].
  apply IH, JSObjFacts.nodup_keys_set, H.
Qed.

Lemma closeLayer_stuck (fuel : nat) (layers : JSObj.t LayerChange) (ks : list Z)
    (r : Res (JSObj.t nat)) :
  (forall d, r <> Done d) ->
  fold_left (closeLayer fuel doc layers) ks r = r.
Proof.
  intros Hr. induction ks as [|k ks IH]; simpl; [reflexivity|].
  destruct r; [now destruct (Hr a) | exact IH].
Qed.

Lemma closeLayer_fold (fuel : nat) (layers : JSObj.t LayerChange) (ks : list Z) :
  forall acc deps,
  fold_left (closeLayer fuel doc layers) ks (Done acc) = Done deps ->
  (forall k, In k ks -> exists lc ds,
      JSObj.get k layers = Some lc /\
      getDependentLayers fuel doc (change_layer lc) = Done ds)
  /\ (NoDup (JSObj.keys acc) -> NoDup (JSObj.keys deps))
  /\ (forall id, In id (JSObj.keys deps) <->
        In id (JSObj.keys acc) \/
        exists k lc ds l, In k ks /\ JSObj.get k layers = Some lc /\
          getDependentLayers fuel doc (change_layer lc) = Done ds /\
          In l ds /\ layer_id (doc_heap doc l) = id)
  /\ (forall id l, JSObj.get id deps = Some l ->
        JSObj.get id acc = Some l \/
        exists k lc ds, In k ks /\ JSObj.get k layers = Some lc /\
          getDependentLayers fuel doc (change_layer lc) = Done ds /\
          In l ds /\ layer_id (doc_heap doc l) = id).
Proof.
  induction ks as [|k ks IH]; intros acc deps; simpl.
  - intros [= <-]. split; [intros k []|]. split; [auto|]. split; [|auto].
    intros id. split; [auto|].
    intros [H|(k & lc & ds & l & [] & _)]; exact H.
  - destruct (JSObj.get k layers) as [lc|] eqn:Hk;
      [|rewrite closeLayer_stuck by congruence; discriminate].
    destruct (getDependentLayers fuel doc (change_layer lc)) as [ds|e] eqn:Hds;
      try (rewrite closeLayer_stuck by congruence; discriminate).
    intros H. destruct (IH _ _ H) as (H1 & H2 & H3 & H4).
    split; [|split; [|split; [intros id; split|]]].
    + intros k' [<-|Hin]; [eauto | auto].
    + intros Hnd. apply H2, nodup_addDependentLayers, Hnd.
    + intros Hid. apply H3 in Hid.
      destruct Hid as [Hid|(k' & lc' & ds' & l & Hin & ?)].
      * apply keys_addDependentLayers in Hid.
        destruct Hid as [Hid|(l & Hl & Hid)]; [auto|].
        right. exists k, lc, ds, l. auto.
      * right. exists k', lc', ds', l. tauto.
    + intros [Hid|(k' & lc' & ds' & l & [<-|Hin] & Hk' & Hds' & Hl & Hid)];
        apply H3.
      * left. apply keys_addDependentLayers. auto.
      * left. apply keys_addDependentLayers. right.
        assert (lc' = lc) by congruence. subst.
        assert (ds' = ds) by congruence. subst. eauto.
      * right. exists k', lc', ds', l. auto.
    + intros id l Hget. apply H4 in Hget.
      destruct Hget as [Hget|(k' & lc' & ds' & Hin & ?)].
      * apply get_addDependentLayers in Hget.
        destruct Hget as [Hget|[Hl Hid]]; [auto|].
        right. exists k, lc, ds. auto.
      * right. exists k', lc', ds'. tauto.
Qed.

(** The fold over the changed layers returns when each walk does. *)
Lemma closeLayer_total (fuel : nat) (layers : JSObj.t LayerChange) (ks : list Z) :
  (forall k, In k ks -> exists lc ds,
      JSObj.get k layers = Some lc /\
      getDependentLayers fuel doc (change_layer lc) = Done ds) ->
  forall acc, exists deps,
    fold_left (closeLayer fuel doc layers) ks (Done acc) = Done deps.
Proof.
  induction ks as [|k ks IH]; intros Hks acc; simpl; [eauto|].
  destruct (Hks k (or_introl eq_refl)) as (lc & ds & -> & ->).
  apply IH. intros k' Hk'. apply Hks. now right.
Qed.

Lemma dependentLayersOf_total (fuel : nat) (layers : JSObj.t LayerChange) :
  walkable fuel doc layers ->
  exists deps, dependentLayersOf fuel doc layers = Done deps.
Proof.
  intros Hw. unfold dependentLayersOf. apply closeLayer_total.
  intros k Hk. apply JSObjFacts.in_keys in Hk.
  destruct (JSObj.get k layers) as [lc|] eqn:Hlc; [|congruence].
  destruct (Hw k lc Hlc) as (chain & Hc & Hlen).
  exists lc, (List.filter (has_name doc) chain). split; [reflexivity|].
  now apply getDependentLayers_chain.
Qed.

Lemma dependentLayersOf_walkable (fuel : nat) (layers : JSObj.t LayerChange)
    (deps : JSObj.t nat) :
  dependentLayersOf fuel doc layers = Done deps -> walkable fuel doc layers.
Proof.
  unfold dependentLayersOf. intros H k lc Hlc.
  destruct (closeLayer_fold _ _ _ _ _ H) as (H1 & _).
  assert (Hin : In k (JSObj.keys layers))
    by (apply JSObjFacts.in_keys; congruence).
  destruct (H1 _ Hin) as (lc' & ds & Hk' & Hds).
  assert (lc' = lc) by congruence. subst.
  destruct (getDependentLayers_done _ _ _ Hds) as (chain & Hc & Hlen & _). eauto.
Qed.

(** The fold throws nothing but the [RangeError] of a walk. *)
Lemma closeLayer_throw (fuel : nat) (layers : JSObj.t LayerChange) (ks : list Z) :
  (forall k, In k ks -> JSObj.get k layers <> None) ->
  forall (acc : Res (JSObj.t nat)) (e : string),
  (forall e', acc = Throw e' -> e' = "RangeError"%string) ->
  fold_left (closeLayer fuel doc layers) ks acc = Throw e -> e = "RangeError"%string.
Proof.
  induction ks as [|k ks IH]; intros Hks acc e Hacc; simpl; [apply Hacc|].
  apply IH; [intros k' Hk'; apply Hks; now right|].
  intros e'. unfold closeLayer. destruct acc as [d|e0]; [|apply Hacc].
  destruct (JSObj.get k layers) as [lc|] eqn:Hk;
    [|destruct (Hks k); [now left | exact Hk]].
  destruct (getDependentLayers fuel doc (change_layer lc)) as [ds|e1] eqn:Hds;
    [discriminate|].
  intros [= <-]. exact (getDependentLayers_throw _ _ _ Hds).
Qed.

Lemma dependentLayersOf_throw (fuel : nat) (layers : JSObj.t LayerChange)
    (e : string) :
  dependentLayersOf fuel doc layers = Throw e ->
  e = "RangeError"%string /\ ~ walkable fuel doc layers.
Proof.
  intros H. split.
  - revert H. unfold dependentLayersOf. apply closeLayer_throw; [|discriminate].
    intros k. apply JSObjFacts.in_keys.
  - intros Hw. destruct (dependentLayersOf_total fuel layers Hw) as [deps Hd].
    congruence.
Qed.

Lemma dependentLayersOf_overflow (fuel : nat) (layers : JSObj.t LayerChange) :
  ~ walkable fuel doc layers ->
  dependentLayersOf fuel doc layers = Throw "RangeError".
Proof.
  intros Hw. destruct (dependentLayersOf fuel doc layers) as [deps|e] eqn:H.
  - now destruct (Hw (dependentLayersOf_walkable _ _ _ H)).
  - now destruct (dependentLayersOf_throw _ _ _ H) as [-> _].
Qed.

(** C4.  When every changed layer has a chain of [group] references that
    the call stack has room for, the closure is computed, and the
    dependency closure of a changed layer is exactly the named layers of
    its chain, in order (so the changed layer is in it iff it has a name,
    an unnamed layer never is, and the named layers above an unnamed one
    still are); the closures of all the changed layers are united in an
    object keyed by layer id, each id once.  A layer has a name when
    [layer.name] is truthy. *)
Theorem dependency_closure (fuel : nat) (layers : JSObj.t LayerChange) :
  walkable fuel doc layers ->
  exists deps,
    dependentLayersOf fuel doc layers = Done deps
    /\ (forall k lc, JSObj.get k layers = Some lc ->
          exists chain, group_chain doc (change_layer lc) chain /\
            getDependentLayers fuel doc (change_layer lc)
            = Done (List.filter (has_name doc) chain))
    /\ NoDup (JSObj.keys deps)
    /\ (forall id, In id (JSObj.keys deps) <->
          exists k lc chain l, JSObj.get k layers = Some lc /\
            group_chain doc (change_layer lc) chain /\
            In l chain /\ has_name doc l = true /\ layer_id (doc_heap doc l) = id)
    /\ (forall id l, JSObj.get id deps = Some l ->
          layer_id (doc_heap doc l) = id /\ has_name doc l = true /\
          exists k lc chain, JSObj.get k layers = Some lc /\
            group_chain doc (change_layer lc) chain /\ In l chain).
Proof.
  intros Hw. destruct (dependentLayersOf_total fuel layers Hw) as [deps H].
  exists deps. split; [exact H|]. unfold dependentLayersOf in H.
  destruct (closeLayer_fold _ _ _ _ _ H) as (H1 & H2 & H3 & H4).
  split; [|split; [|split; [intros id; split|intros id l H0; split; [|split]]]].
  - intros k lc Hk.
    assert (Hin : In k (JSObj.keys layers))
      by (apply JSObjFacts.in_keys; congruence).
    destruct (H1 _ Hin) as (lc' & ds & Hk' & Hds).
    assert (lc' = lc) by congruence. subst.
    destruct (getDependentLayers_done _ _ _ Hds) as (chain & Hc & _ & ->).
    eauto.
  - apply H2. constructor.
  - intros Hid. apply H3 in Hid.
    destruct Hid as [[]|(k & lc & ds & l & Hin & Hk & Hds & Hl & Hid)].
    destruct (getDependentLayers_done _ _ _ Hds) as (chain & Hc & _ & ->).
    apply filter_In in Hl. exists k, lc, chain, l. tauto.
  - intros (k & lc & chain & l & Hk & Hc & Hl & Hn & Hid). apply H3. right.
    assert (Hin : In k (JSObj.keys layers))
      by (apply JSObjFacts.in_keys; congruence).
    destruct (H1 _ Hin) as (lc' & ds & Hk' & Hds).
    assert (lc' = lc) by congruence. subst.
    destruct (getDependentLayers_done _ _ _ Hds) as (chain' & Hc' & _ & ->).
    rewrite (group_chain_functional _ _ _ Hc' Hc) in Hds.
    exists k, lc, (List.filter (has_name doc) chain), l.
    rewrite filter_In. tauto.
  - destruct (H4 _ _ H0) as [[=]|(k & lc & ds & Hin & Hk & Hds & Hl & Hid)].
    exact Hid.
  - destruct (H4 _ _ H0) as [[=]|(k & lc & ds & Hin & Hk & Hds & Hl & Hid)].
    destruct (getDependentLayers_done _ _ _ Hds) as (chain & Hc & _ & ->).
    now apply filter_In in Hl.
  - destruct (H4 _ _ H0) as [[=]|(k & lc & ds & Hin & Hk & Hds & Hl & Hid)].
    destruct (getDependentLayers_done _ _ _ Hds) as (chain & Hc & _ & ->).
    apply filter_In in Hl. exists k, lc, chain. tauto.
Qed.

(** C9 (as amended).  The recursion over [group] references has no guard.
    On a layer that has a chain, that is whose [group] references reach a
    layer without group, it returns the same finite result whenever the
    call stack has room for the chain, and overflows the stack otherwise;
    it returns on no other layer: on a layer without a chain, as on a
    cycle, it ends with a [RangeError] however much room there is. *)
Theorem ancestor_walk_terminates (layer : nat) :
  (forall chain, group_chain doc layer chain ->
     exists deps, length deps <= length chain /\
       forall fuel,
         (length chain <= fuel -> getDependentLayers fuel doc layer = Done deps) /\
         (fuel < length chain ->
          getDependentLayers fuel doc layer = Throw "RangeError"))
  /\ (forall fuel deps, getDependentLayers fuel doc layer = Done deps ->
        exists chain, group_chain doc layer chain /\ length chain <= fuel)
  /\ ((forall chain, ~ group_chain doc layer chain) ->
      forall fuel, getDependentLayers fuel doc layer = Throw "RangeError").
Proof.
  split; [|split].
  - intros chain Hc. exists (List.filter (has_name doc) chain). split.
    + apply filter_length_le.
    + intros fuel. split; intros Hfuel.
      * now apply getDependentLayers_chain.
      * now apply getDependentLayers_short with chain.
  - intros fuel deps Hdone.
    destruct (getDependentLayers_done _ _ _ Hdone) as (chain & Hc & Hlen & _).
    eauto.
  - intros Hno fuel. now apply getDependentLayers_unchained.
Qed.

End Closure.

(** A chain that exists: P4's layer A. *)
Lemma p4_chain : group_chain p4_doc 1 [1; 2; 3; 0].
Proof.
  apply chain_group with 2; [reflexivity|].
  apply chain_group with 3; [reflexivity|].
  apply chain_group with 0; [reflexivity|].
  apply chain_top. reflexivity.
Qed.

Lemma p4_walkable : walkable 4 p4_doc [(11%Z, mkLayerChange "modified" 1)].
Proof.
  intros k lc Hk. simpl in Hk. destruct (k =? 11)%Z; [|discriminate].
  injection Hk as <-. exists [1; 2; 3; 0]. split; [exact p4_chain | simpl; lia].
Qed.

Lemma dependency_closure_witness :
  exists deps,
    dependentLayersOf 4 p4_doc [(11%Z, mkLayerChange "modified" 1)] = Done deps /\
    In 12%Z (JSObj.keys deps) /\ ~ In 13%Z (JSObj.keys deps).
Proof.
  destruct (dependency_closure p4_doc 4 _ p4_walkable)
    as (deps & Hdeps & _ & _ & Hkeys & _).
  exists deps. split; [exact Hdeps|]. split.
  - apply Hkeys.
    exists 11%Z, (mkLayerChange "modified" 1), [1; 2; 3; 0], 2.
    repeat split; [exact p4_chain | simpl; auto].
  - assert (H : dependentLayersOf 4 p4_doc [(11%Z, mkLayerChange "modified" 1)]
                = Done [(0%Z, 0); (11%Z, 1); (12%Z, 2)]) by reflexivity.
    rewrite H in Hdeps. injection Hdeps as <-. simpl. intros [H0|[H0|[H0|[]]]];
      discriminate.
Defined.

Lemma ancestor_walk_terminates_witness :
  exists deps, length deps <= 4 /\
    forall fuel,
      (4 <= fuel -> getDependentLayers fuel p4_doc 1 = Done deps) /\
      (fuel < 4 -> getDependentLayers fuel p4_doc 1 = Throw "RangeError").
Proof.
  exact (proj1 (ancestor_walk_terminates p4_doc 1) [1; 2; 3; 0] p4_chain).
Defined.

(** C9, as stated, fails: layer 1 of this document is its own group, and
    the recursion on it yields no closure: whatever room the call stack
    has, it ends with a [RangeError]. *)
Lemma ancestor_walk_cycle_overflows :
  layer_group (doc_heap cyclic_doc 1) = Some 1 /\
  forall fuel, getDependentLayers fuel cyclic_doc 1 = Throw "RangeError".
Proof.
  split; [reflexivity|].
  induction fuel as [|fuel IH]; simpl; [reflexivity|]. now rewrite IH.
Qed.

(** ** Reasoning about computations *)

Section Monad.

Context {CM : Type} `{!ComponentManagerOps CM}.

Lemma out_eta {A} (o : Out CM A) :
  o = mkOut (out_res o) (out_state o) (out_trace o).
Proof. now destruct o. Qed.

Lemma bind_done {A B} (m : M CM A) (k : A -> M CM B) (s : AssetManager CM) (a : A) :
  out_res (m s) = Done a ->
  bind m k s = prepend (out_trace (m s)) (k a (out_state (m s))).
Proof. unfold bind. destruct (m s) as [r s' t]. simpl. now intros ->. Qed.

Lemma bind_throw {A B} (m : M CM A) (k : A -> M CM B) (s : AssetManager CM) (e : string) :
  out_res (m s) = Throw e ->
  bind m k s = mkOut (Throw e) (out_state (m s)) (out_trace (m s)).
Proof. unfold bind. destruct (m s) as [r s' t]. simpl. now intros ->. Qed.

Lemma prepend_res {A} (t : list Event) (o : Out CM A) :
  out_res (prepend t o) = out_res o.
Proof. now destruct o. Qed.

Lemma prepend_state {A} (t : list Event) (o : Out CM A) :
  out_state (prepend t o) = out_state o.
Proof. now destruct o. Qed.

Lemma prepend_trace {A} (t : list Event) (o : Out CM A) :
  out_trace (prepend t o) = t ++ out_trace o.
Proof. now destruct o. Qed.

Section Safe.

Variable I : AssetManager CM -> Prop.
Variable Q : Event -> Prop.

Lemma safe_ret {A} (a : A) : safe I Q (ret a).
Proof. intros s Hs. split; [exact Hs | constructor]. Qed.

Lemma safe_throw {A} (e : string) : safe I Q (throw (A:=A) e).
Proof. intros s Hs. split; [exact Hs | constructor]. Qed.

Lemma safe_lift {A} (r : Res A) : safe I Q (lift r).
Proof. intros s Hs. split; [exact Hs | constructor]. Qed.

Lemma safe_gets {A} (f : AssetManager CM -> A) : safe I Q (gets f).
Proof. intros s Hs. split; [exact Hs | constructor]. Qed.

Lemma safe_deref {A} (v : option A) : safe I Q (deref v).
Proof. destruct v; [apply safe_ret | apply safe_throw]. Qed.

Lemma safe_call (e : Event) : Q e -> safe I Q (call e).
Proof. intros He s Hs. split; [exact Hs | repeat constructor; exact He]. Qed.

Lemma safe_modify (f : AssetManager CM -> AssetManager CM) :
  (forall s, I s -> I (f s)) -> safe I Q (modify f).
Proof. intros Hf s Hs. split; [now apply Hf | constructor]. Qed.

Lemma safe_bind {A B} (m : M CM A) (k : A -> M CM B) :
  safe I Q m -> (forall a, safe I Q (k a)) -> safe I Q (bind m k).
Proof.
  intros Hm Hk s Hs. destruct (Hm s Hs) as [H1 H2]. unfold bind.
  destruct (m s) as [[a|e] s' t]; simpl in *; [|auto].
  destruct (Hk a _ H1) as [H3 H4].
  rewrite prepend_state, prepend_trace. split; [exact H3|].
  apply Forall_app. auto.
Qed.

Lemma safe_try_catch {A} (m : M CM A) (h : string -> M CM A) :
  safe I Q m -> (forall e, safe I Q (h e)) -> safe I Q (try_catch m h).
Proof.
  intros Hm Hh s Hs. destruct (Hm s Hs) as [H1 H2]. unfold try_catch.
  destruct (m s) as [[a|e] s' t]; simpl in *; [auto|].
  destruct (Hh e _ H1) as [H3 H4].
  rewrite prepend_state, prepend_trace. split; [exact H3|].
  apply Forall_app. auto.
Qed.

Lemma safe_uncaught (m : M CM unit) : safe I Q m -> safe I Q (uncaught m).
Proof. intros Hm. apply safe_try_catch; [exact Hm | intros _; apply safe_ret]. Qed.

Lemma safe_when (b : bool) (m : M CM unit) : safe I Q m -> safe I Q (when b m).
Proof. destruct b; [auto | intros _; apply safe_ret]. Qed.

Lemma safe_forEach {A} (l : list A) (f : A -> M CM unit) :
  (forall x, safe I Q (f x)) -> safe I Q (forEach l f).
Proof.
  intros Hf. induction l as [|x l IH]; simpl; [apply safe_ret|].
  apply safe_bind; auto.
Qed.

Lemma safe_reduce {A B} (f : B -> A -> M CM B) (l : list A) (b : B) :
  (forall b x, safe I Q (f b x)) -> safe I Q (reduce f l b).
Proof.
  intros Hf. revert b. induction l as [|x l IH]; intros b; simpl; [apply safe_ret|].
  apply safe_bind; auto.
Qed.

Lemma safe_times (n : nat) (m : M CM unit) : safe I Q m -> safe I Q (times n m).
Proof.
  intros Hm. induction n as [|n IH]; simpl; [apply safe_ret|].
  apply safe_bind; auto.
Qed.

Lemma completes_ret {A} (a : A) : completes I (ret a).
Proof. intros s _. now exists a. Qed.

Lemma completes_gets {A} (f : AssetManager CM -> A) : completes I (gets f).
Proof. intros s _. now exists (f s). Qed.

Lemma completes_call (e : Event) : completes I (call e).
Proof. intros s _. now exists tt. Qed.

Lemma completes_modify (f : AssetManager CM -> AssetManager CM) : completes I (modify f).
Proof. intros s _. now exists tt. Qed.

Lemma completes_bind {A B} (m : M CM A) (k : A -> M CM B) :
  completes I m -> safe I Q m -> (forall a, completes I (k a)) -> completes I (bind m k).
Proof.
  intros Hm Hs Hk s H0. destruct (Hm s H0) as [a Ha].
  rewrite (bind_done _ _ _ _ Ha), prepend_res. apply Hk. now apply Hs.
Qed.

Lemma completes_when (b : bool) (m : M CM unit) : completes I m -> completes I (when b m).
Proof. destruct b; [auto | intros _; apply completes_ret]. Qed.

Lemma completes_forEach {A} (l : list A) (f : A -> M CM unit) :
  (forall x, completes I (f x)) -> (forall x, safe I Q (f x)) -> completes I (forEach l f).
Proof.
  intros Hf Hs. induction l as [|x l IH]; simpl; [apply completes_ret|].
  apply completes_bind; auto.
Qed.

End Safe.

End Monad.

(** ** Render requests and their settlement *)

Section Renders.

Context {CM : Type} `{!ComponentManagerOps CM}.

Implicit Types (s : AssetManager CM) (t : gmap Z nat).

Lemma requestRender_run (doc : Document) (c : Component) s t :
  _renderPromises s = Some t ->
  _requestRender doc c s =
  mkOut (Done tt)
    (set_renderPromises (Some (<[comp_id c := length (rm_jobs s)]> t))
       (set_jobs (rm_jobs s ++ [mkJob c Pending false]) s))
    (Render c :: if bool_decide (size t = 0) then [Emit Active (doc_id doc)] else []).
Proof.
  intros Ht. unfold _requestRender, rm_render, the_renderPromises, bind, gets,
    modify, call, when, deref, ret. simpl. rewrite Ht. simpl.
  destruct (bool_decide (size t = 0)); simpl; rewrite Ht; reflexivity.
Qed.

Lemma handlers_run (doc : Document) (c : Component) (p : PromiseState) s t :
  _renderPromises s = Some t ->
  handlers doc c p s =
  mkOut (Done tt) (set_renderPromises (Some (delete (comp_id c) t)) s)
    (outcome_events doc c p ++ idle_events doc (delete (comp_id c) t)).
Proof.
  intros Ht. unfold handlers, the_renderPromises, outcome_events, idle_events,
    success_with_path, failure, cancellation, bind, gets, modify, call, when,
    deref, ret.
  destruct p as [|tmpPath|err]; simpl.
  - rewrite Ht. simpl. now destruct (bool_decide _).
  - destruct (truthy_string tmpPath); simpl; rewrite Ht; simpl;
      now destruct (bool_decide _).
  - destruct (truthy_string err); simpl; rewrite Ht; simpl;
      now destruct (bool_decide _).
Qed.

Lemma deliver_run (doc : Document) (j : nat) (job : Job) s t :
  rm_jobs s !! j = Some job ->
  is_pending (job_state job) = false ->
  job_delivered job = false ->
  _renderPromises s = Some t ->
  deliver doc j s =
  mkOut (Done tt)
    (set_renderPromises (Some (delete (comp_id (job_component job)) t))
       (set_jobs (<[j := mkJob (job_component job) (job_state job) true]> (rm_jobs s)) s))
    (outcome_events doc (job_component job) (job_state job)
     ++ idle_events doc (delete (comp_id (job_component job)) t)).
Proof.
  intros Hj Hp Hd Ht. unfold deliver, bind at 1, gets. simpl. rewrite Hj, Hp, Hd. simpl.
  unfold bind, modify. simpl. now rewrite (handlers_run doc _ _ _ t).
Qed.

Lemma deliver_skip (doc : Document) (j : nat) s :
  match rm_jobs s !! j with
  | Some job => is_pending (job_state job) = true \/ job_delivered job = true
  | None => True
  end ->
  deliver doc j s = mkOut (Done tt) s [].
Proof.
  unfold deliver, bind, gets. simpl. destruct (rm_jobs s !! j) as [job|]; [|reflexivity].
  intros [-> | ->]; simpl; [reflexivity|].
  now rewrite andb_false_r.
Qed.

End Renders.

(** ** The outcomes of a render job *)

Section Outcomes.

Context {CM : Type} `{!ComponentManagerOps CM}.

Implicit Types (s : AssetManager CM) (t : gmap Z nat).

Lemma truthy_string_Some (v : option string) :
  truthy_string v = true -> v = Some (string_of v).
Proof. destruct v; [reflexivity | discriminate]. Qed.

Lemma in_idle_events (doc : Document) t (e : Event) :
  In e (idle_events doc t) -> e = Emit Idle (doc_id doc).
Proof.
  unfold idle_events. destruct (bool_decide _); simpl; [|tauto].
  intros [<-|[]]. reflexivity.
Qed.

Lemma in_outcome_events (doc : Document) (c : Component) (p : PromiseState)
    (e : Event) :
  In e (outcome_events doc c p) <->
  (success_with_path p = true /\ exists tmp, p = Fulfilled (Some tmp) /\
     e = MoveFileInto tmp (comp_assetPath c))
  \/ (failure p = true /\ exists err, p = Rejected (Some err) /\
     e = LogWarn (comp_name c) (layer_id (doc_heap doc (comp_layer c))) err)
  \/ (cancellation p = true /\
     e = LogCanceled (comp_name c) (layer_id (doc_heap doc (comp_layer c)))).
Proof.
  unfold outcome_events, success_with_path, failure, cancellation.
  destruct p as [|v|v]; simpl.
  - split; [intros [] | intros [[H _]|[[H _]|[H _]]]; discriminate H].
  - destruct (truthy_string v) eqn:Ev; simpl.
    + split.
      * intros [<-|[]]. left. split; [reflexivity|]. exists (string_of v).
        split; [|reflexivity]. f_equal. now apply truthy_string_Some.
      * intros [(_ & tmp & H & ->)|[[H _]|[H _]]]; try discriminate H.
        injection H as ->. left. reflexivity.
    + split; [intros [] | intros [[H _]|[[H _]|[H _]]]; discriminate H].
  - destruct (truthy_string v) eqn:Ev; simpl.
    + split.
      * intros [<-|[]]. right. left. split; [reflexivity|]. exists (string_of v).
        split; [|reflexivity]. f_equal. now apply truthy_string_Some.
      * intros [[H _]|[(_ & err & H & ->)|[H _]]]; try discriminate H.
        injection H as ->. left. reflexivity.
    + split.
      * intros [<-|[]]. right. right. split; reflexivity.
      * intros [[H _]|[[H _]|[_ ->]]]; try discriminate H. left. reflexivity.
Qed.

(** C6.  Whichever way a render job ends (success with a temporary path,
    success without one, failure with an error, cancellation), its handlers
    remove the entry of its component from the table; the asset is moved
    into the component's asset path iff the job succeeded with a non-empty
    path; a failure is only logged as a warning, a cancellation is logged
    without a warning, and nothing is recorded with the error manager. *)
Theorem render_outcomes (doc : Document) (j : nat) (job : Job) s t :
  rm_jobs s !! j = Some job ->
  is_pending (job_state job) = false ->
  job_delivered job = false ->
  _renderPromises s = Some t ->
  let c := job_component job in
  let p := job_state job in
  let o := deliver doc j s in
  (success_with_path p || success_without_path p || failure p || cancellation p = true)
  /\ out_res o = Done tt
  /\ _renderPromises (out_state o) = Some (delete (comp_id c) t)
  /\ (forall tmp path, In (MoveFileInto tmp path) (out_trace o) <->
        success_with_path p = true /\ p = Fulfilled (Some tmp) /\
        path = comp_assetPath c)
  /\ (forall name l err, In (LogWarn name l err) (out_trace o) <->
        failure p = true /\ p = Rejected (Some err) /\ name = comp_name c /\
        l = layer_id (doc_heap doc (comp_layer c)))
  /\ (forall name l, In (LogCanceled name l) (out_trace o) <->
        cancellation p = true /\ name = comp_name c /\
        l = layer_id (doc_heap doc (comp_layer c)))
  /\ (forall l message, ~ In (AddError l message) (out_trace o)).
Proof.
  intros Hj Hp Hd Ht c p o. subst o.
  rewrite (deliver_run doc j job s t Hj Hp Hd Ht).
  cbn [out_res out_state out_trace set_renderPromises set_jobs _renderPromises].
  fold c p.
  assert (Hin : forall e, e <> Emit Idle (doc_id doc) ->
            (In e (outcome_events doc c p ++ idle_events doc (delete (comp_id c) t))
             <-> In e (outcome_events doc c p))).
  { intros e He. rewrite in_app_iff. split; [|auto].
    intros [H0|H0]; [exact H0|]. apply in_idle_events in H0. contradiction. }
  split; [|split; [reflexivity|split; [reflexivity|]]].
  { unfold p in *. destruct (job_state job) as [|v|v]; [discriminate| |]; simpl;
      destruct (truthy_string v); reflexivity. }
  split; [|split; [|split]].
  - intros tmp path. rewrite Hin, in_outcome_events by discriminate. split.
    + intros [(H1 & tmp' & H2 & H3)|[(_ & ? & _ & ?)|[_ ?]]]; try discriminate.
      injection H3 as -> ->. auto.
    + intros (H1 & H2 & ->). left. eauto.
  - intros name l err. rewrite Hin, in_outcome_events by discriminate. split.
    + intros [(_ & ? & _ & ?)|[(H1 & err' & H2 & H3)|[_ ?]]]; try discriminate.
      injection H3 as -> -> ->. auto.
    + intros (H1 & H2 & -> & ->). right. left. eauto.
  - intros name l. rewrite Hin, in_outcome_events by discriminate. split.
    + intros [(_ & ? & _ & ?)|[(_ & ? & _ & ?)|[H1 H3]]]; try discriminate.
      injection H3 as -> ->. auto.
    + intros (H1 & -> & ->). right. right. auto.
  - intros l message. rewrite Hin, in_outcome_events by discriminate.
    intros [(_ & ? & _ & ?)|[(_ & ? & _ & ?)|[_ ?]]]; discriminate.
Qed.

End Outcomes.

Lemma render_outcomes_witness :
  let s := mkAssetManager (CM:=SimpleCM) (Some {[1%Z := 0]}) (Some cm_new) None
             [mkJob icon_component (Fulfilled (Some "/tmp/1.png"%string)) false] 1 in
  In (MoveFileInto "/tmp/1.png" "icon.png") (out_trace (deliver icon_doc 0 s)).
Proof.
  intros s.
  destruct (render_outcomes icon_doc 0
              (mkJob icon_component (Fulfilled (Some "/tmp/1.png"%string)) false)
              s {[1%Z := 0]} eq_refl eq_refl eq_refl eq_refl)
    as (_ & _ & _ & Hmove & _).
  apply Hmove. repeat split.
Defined.

(** ** Activity signals *)

Section Signals.

Context {CM : Type} `{!ComponentManagerOps CM}.

Implicit Types (s : AssetManager CM) (t : gmap Z nat).

Lemma in_flight_zero s :
  in_flight s = 0 <->
  forall j job, rm_jobs s !! j = Some job -> job_delivered job = true.
Proof.
  unfold in_flight. rewrite length_zero_iff_nil. split.
  - intros Hnil j job Hj.
    destruct (job_delivered job) eqn:Hd; [reflexivity|].
    assert (Hin : In job (List.filter (fun j => negb (job_delivered j)) (rm_jobs s))).
    { apply filter_In. split; [|now rewrite Hd].
      apply list_elem_of_In, list_elem_of_lookup. eauto. }
    rewrite Hnil in Hin. destruct Hin.
  - intros Hall. destruct (List.filter _ _) as [|job l] eqn:E; [reflexivity|].
    assert (Hin : In job (job :: l)) by (left; reflexivity).
    rewrite <- E in Hin. apply filter_In in Hin. destruct Hin as [Hin Hd].
    apply list_elem_of_In, list_elem_of_lookup in Hin. destruct Hin as [j Hj].
    rewrite (Hall _ _ Hj) in Hd. discriminate.
Qed.

Lemma tracks_empty s t :
  tracks s -> _renderPromises s = Some t -> (size t = 0 <-> in_flight s = 0).
Proof.
  intros (t' & Ht' & Htr) Ht. assert (t' = t) by congruence. subst t'.
  rewrite map_size_empty_iff, in_flight_zero. split.
  - intros -> j job Hj. destruct (job_delivered job) eqn:Hd; [reflexivity|].
    assert (H0 : (∅ : gmap Z nat) !! comp_id (job_component job) = Some j)
      by (apply Htr; eauto).
    rewrite lookup_empty in H0. discriminate.
  - intros Hall. apply map_empty. intros c.
    destruct (t !! c) as [j|] eqn:E; [|reflexivity].
    apply Htr in E. destruct E as (job & Hj & Hd & _).
    rewrite (Hall _ _ Hj) in Hd. discriminate.
Qed.

Lemma tracks_request (doc : Document) (c : Component) s t :
  tracks s -> _renderPromises s = Some t -> t !! comp_id c = None ->
  tracks (out_state (_requestRender doc c s)).
Proof.
  intros (t' & Ht' & Htr) Ht Hfresh. assert (t' = t) by congruence. subst t'.
  rewrite (requestRender_run doc c s t Ht). simpl.
  eexists. split; [reflexivity|]. simpl. intros c' j'. split.
  - intros Hl. destruct (decide (comp_id c = c')) as [<-|Hne].
    + rewrite lookup_insert_eq in Hl. injection Hl as <-.
      exists (mkJob c Pending false). split; [|auto].
      rewrite lookup_app_r by lia. now rewrite Nat.sub_diag.
    + rewrite lookup_insert_ne in Hl by exact Hne.
      apply Htr in Hl. destruct Hl as (job & Hj & Hd & Hc).
      exists job. split; [|auto]. now apply lookup_app_l_Some.
  - intros (job & Hj & Hd & Hc).
    apply lookup_app_Some in Hj. destruct Hj as [Hj|[Hlen Hj]].
    + assert (Hl : t !! c' = Some j') by (apply Htr; eauto).
      rewrite lookup_insert_ne; [exact Hl|]. intros <-. congruence.
    + apply list_lookup_singleton_Some in Hj. destruct Hj as [Hj <-].
      simpl in Hc. subst c'. replace j' with (length (rm_jobs s)) by lia.
      apply lookup_insert_eq.
Qed.

Lemma settle_run (j : nat) (p : PromiseState) s :
  exists jobs,
    settle j p s = mkOut (Done tt) (set_jobs jobs s) [] /\
    job_key <$> jobs = job_key <$> rm_jobs s.
Proof.
  unfold settle, bind, gets. simpl.
  destruct (rm_jobs s !! j) as [job|] eqn:Hj; simpl.
  - destruct (is_pending (job_state job) && negb (is_pending p)); simpl.
    + eexists. split; [reflexivity|]. simpl.
      rewrite list_fmap_insert. apply list_insert_id.
      rewrite list_lookup_fmap, Hj. reflexivity.
    + exists (rm_jobs s). split; [|reflexivity]. now destruct s.
  - exists (rm_jobs s). split; [|reflexivity]. now destruct s.
Qed.

Lemma lookup_job_key (jobs jobs' : list Job) (i : nat) (job' : Job) :
  job_key <$> jobs' = job_key <$> jobs ->
  jobs' !! i = Some job' ->
  exists job, jobs !! i = Some job /\ job_component job = job_component job' /\
              job_delivered job = job_delivered job'.
Proof.
  intros Heq Hi.
  assert (H0 : (job_key <$> jobs) !! i = Some (job_key job'))
    by (rewrite <- Heq, list_lookup_fmap, Hi; reflexivity).
  rewrite list_lookup_fmap in H0. destruct (jobs !! i) as [job|]; [|discriminate].
  exists job. injection H0 as H1 H2. auto.
Qed.

Lemma tracks_ext s s' :
  _renderPromises s' = _renderPromises s ->
  job_key <$> rm_jobs s' = job_key <$> rm_jobs s ->
  tracks s -> tracks s'.
Proof.
  intros Ht Hk (t & Hs & Htr). exists t. split; [congruence|].
  intros c j. rewrite Htr. split; intros (job & Hj & Hd & Hc).
  - destruct (lookup_job_key _ _ _ _ (eq_sym Hk) Hj) as (job' & Hj' & H1 & H2).
    exists job'. split; [exact Hj'|]. split; congruence.
  - destruct (lookup_job_key _ _ _ _ Hk Hj) as (job' & Hj' & H1 & H2).
    exists job'. split; [exact Hj'|]. split; congruence.
Qed.

Lemma tracks_deliver (doc : Document) (j : nat) (job : Job) s :
  tracks s ->
  rm_jobs s !! j = Some job ->
  is_pending (job_state job) = false ->
  job_delivered job = false ->
  tracks (out_state (deliver doc j s)).
Proof.
  intros (t & Ht & Htr) Hj Hp Hd.
  rewrite (deliver_run doc j job s t Hj Hp Hd Ht). simpl.
  assert (Hjt : t !! comp_id (job_component job) = Some j) by (apply Htr; eauto).
  eexists. split; [reflexivity|]. simpl. intros c' j'. split.
  - intros Hl. apply lookup_delete_Some in Hl. destruct Hl as [Hne Hl].
    apply Htr in Hl. destruct Hl as (job' & Hj' & Hd' & Hc').
    exists job'. split; [|auto]. rewrite list_lookup_insert_ne; [exact Hj'|].
    intros <-. congruence.
  - intros (job' & Hj' & Hd' & Hc').
    destruct (decide (j = j')) as [<-|Hne].
    + rewrite list_lookup_insert_eq in Hj' by (eapply lookup_lt_Some; eauto).
      injection Hj' as <-. discriminate.
    + rewrite list_lookup_insert_ne in Hj' by exact Hne.
      assert (Hl : t !! c' = Some j') by (apply Htr; eauto).
      apply lookup_delete_Some. split; [|exact Hl]. intros <-. congruence.
Qed.

Lemma emitted_app (signal : Signal) (l1 l2 : list Event) :
  emitted signal (l1 ++ l2) = emitted signal l1 + emitted signal l2.
Proof. unfold emitted. now rewrite List.filter_app, length_app. Qed.

Lemma emitted_outcome (signal : Signal) (doc : Document) (c : Component)
    (p : PromiseState) :
  emitted signal (outcome_events doc c p) = 0.
Proof.
  unfold outcome_events.
  destruct (success_with_path p), (failure p), (cancellation p); reflexivity.
Qed.

Lemma edge_quiet (n n' : nat) : (n = 0 <-> n' = 0) -> edge n n' [] = true.
Proof.
  intros H. unfold edge. simpl.
  destruct n, n'; simpl; try reflexivity; exfalso; lia.
Qed.

(** One step of a run that asks for no second render of a component id in
    the table is edge-triggered and keeps the table in step with the jobs in
    flight. *)
Lemma render_step_edge (doc : Document) (e : RenderEvent) s :
  tracks s ->
  fresh_requests doc [e] s = true ->
  tracks (out_state (render_step doc e s)) /\
  edge (in_flight s) (in_flight (out_state (render_step doc e s)))
       (out_trace (render_step doc e s)) = true.
Proof.
  intros Htr Hfresh. pose proof Htr as (t & Ht & Htab).
  destruct e as [c | j p]; simpl in *.
  - rewrite Ht, andb_true_r in Hfresh. apply bool_decide_eq_true in Hfresh.
    pose proof (tracks_request doc c s t Htr Ht Hfresh) as Htr'.
    split; [exact Htr'|].
    pose proof (tracks_empty s t Htr Ht) as Hz.
    rewrite (requestRender_run doc c s t Ht) in *. simpl in *.
    assert (Hafter : in_flight
              (set_renderPromises (Some (<[comp_id c := length (rm_jobs s)]> t))
                 (set_jobs (rm_jobs s ++ [mkJob c Pending false]) s)) <> 0).
    { rewrite in_flight_zero. simpl. intros Hall.
      specialize (Hall (length (rm_jobs s)) (mkJob c Pending false)).
      rewrite lookup_app_r, Nat.sub_diag in Hall by lia.
      specialize (Hall eq_refl). discriminate. }
    unfold edge, emitted. simpl.
    destruct (bool_decide (size t = 0)) eqn:Hsz.
    + apply bool_decide_eq_true in Hsz. apply Hz in Hsz. rewrite Hsz. simpl.
      destruct (in_flight (set_renderPromises _ _)) eqn:E;
        [congruence | reflexivity].
    + apply bool_decide_eq_false in Hsz.
      destruct (in_flight s) eqn:Hin; [tauto|]. simpl.
      destruct (in_flight (set_renderPromises _ _)) eqn:E;
        [congruence | reflexivity].
  - destruct (settle_run j p s) as (jobs & Hset & Hkey).
    set (s1 := set_jobs jobs s) in *.
    assert (Htr1 : tracks s1) by (apply (tracks_ext s s1); auto).
    assert (Ht1 : _renderPromises s1 = Some t) by exact Ht.
    assert (Hz : in_flight s = 0 <-> in_flight s1 = 0).
    { rewrite <- (tracks_empty s t Htr Ht). apply (tracks_empty s1 t Htr1 Ht1). }
    assert (Hb : bind (settle j p) (fun _ => deliver doc j) s
                 = deliver doc j s1).
    { unfold bind at 1. rewrite Hset. simpl. now destruct (deliver doc j s1). }
    rewrite Hb.
    destruct (rm_jobs s1 !! j) as [job|] eqn:Hj.
    2:{ rewrite deliver_skip by (now rewrite Hj). simpl.
        split; [exact Htr1 | now apply edge_quiet]. }
    destruct (is_pending (job_state job)) eqn:Hp.
    { rewrite deliver_skip by (rewrite Hj; auto). simpl.
      split; [exact Htr1 | now apply edge_quiet]. }
    destruct (job_delivered job) eqn:Hd.
    { rewrite deliver_skip by (rewrite Hj; auto). simpl.
      split; [exact Htr1 | now apply edge_quiet]. }
    pose proof (tracks_deliver doc j job s1 Htr1 Hj Hp Hd) as Htr'.
    split; [exact Htr'|].
    assert (Hbefore : in_flight s <> 0).
    { rewrite Hz, in_flight_zero. intros Hall. rewrite (Hall _ _ Hj) in Hd.
      discriminate. }
    rewrite (deliver_run doc j job s1 t Hj Hp Hd Ht1) in *. simpl in *.
    match goal with |- context [in_flight ?s'] =>
      match s' with s => fail 1 | _ =>
        pose proof (tracks_empty s' _ Htr' eq_refl) as Hz'; simpl in Hz';
        set (n' := in_flight s') in * end end.
    unfold edge. rewrite !emitted_app, !emitted_outcome. unfold idle_events.
    destruct (in_flight s) as [|n]; [congruence|]. simpl.
    destruct (bool_decide (size (delete (comp_id (job_component job)) t) = 0)) eqn:Hsz.
    + apply bool_decide_eq_true in Hsz. apply Hz' in Hsz. rewrite Hsz. reflexivity.
    + apply bool_decide_eq_false in Hsz.
      destruct n'; [tauto | reflexivity].
Qed.

(** C2 (as amended).  Start with a table that holds exactly the jobs in
    flight (as when nothing is in flight).  In every sequence of render
    requests and settlements in which no render is requested for a component
    id that still has an entry in the table, "active" is emitted exactly
    when the count of jobs in flight goes from zero to non-zero and "idle"
    exactly when it goes from non-zero to zero. *)
Theorem signals_edge_triggered (doc : Document) (events : list RenderEvent) s :
  tracks s ->
  fresh_requests doc events s = true ->
  edge_triggered doc events s = true.
Proof.
  revert s. induction events as [|e events IH]; intros s Htr Hfresh; [reflexivity|].
  simpl in Hfresh. apply andb_true_iff in Hfresh. destruct Hfresh as [H1 H2].
  destruct (render_step_edge doc e s Htr) as [Htr' Hedge].
  { simpl. now rewrite H1. }
  simpl. rewrite Hedge. simpl. now apply IH.
Qed.

End Signals.

Lemma started_tracks : tracks started.
Proof.
  exists ∅. split; [reflexivity|]. intros c j. rewrite lookup_empty. split.
  - discriminate.
  - intros (job & Hj & _). discriminate.
Qed.

Lemma signals_edge_triggered_witness :
  edge_triggered icon_doc
    [Request icon_component; Settlement 0 (Fulfilled None)] started = true.
Proof.
  apply signals_edge_triggered; [exact started_tracks | vm_compute; reflexivity].
Defined.

(** C2, as stated, fails: when a render is requested twice for one component
    id, the first settlement empties the table and "idle" is emitted while
    the second job is still in flight. *)
Lemma signals_not_edge_triggered :
  edge_triggered icon_doc
    [Request icon_component; Request icon_component;
     Settlement 0 (Fulfilled None)] started = false.
Proof. vm_compute. reflexivity. Qed.

(** ** Cleaning up derived components *)

Section Cleanup.

Context {CM : Type} `{!ComponentManagerOps CM}.

Implicit Types (s : AssetManager CM) (t : gmap Z nat).

Lemma set_jobs_id s : set_jobs (rm_jobs s) s = s.
Proof. now destruct s. Qed.

Lemma hasPendingRender_run (c : Z) s t :
  _renderPromises s = Some t ->
  _hasPendingRender c s = mkOut (Done (pending_in t (rm_jobs s) c)) s [].
Proof.
  intros Ht. unfold _hasPendingRender, the_renderPromises, pending_in,
    promise_pending, bind, gets, deref, ret. simpl. rewrite Ht. simpl.
  destruct (t !! c); reflexivity.
Qed.

Lemma cleanup_loop (ds : list Component) : forall s t,
  _renderPromises s = Some t ->
  forEach ds (fun derivedComponent =>
    let* pending := _hasPendingRender (comp_id derivedComponent) in
    when pending (rm_cancel (comp_id derivedComponent)) ;;
    call (RemoveFileWithin (comp_assetPath derivedComponent))) s
  = mkOut (Done tt) (set_jobs (cleanup_jobs t ds (rm_jobs s)) s)
          (cleanup_trace t ds (rm_jobs s)).
Proof.
  induction ds as [|d ds IH]; intros s t Ht; simpl.
  - unfold ret. now rewrite set_jobs_id.
  - unfold bind at 1. unfold bind at 1.
    rewrite (hasPendingRender_run _ s t Ht). simpl.
    destruct (pending_in t (rm_jobs s) (comp_id d)); simpl.
    + rewrite (IH _ t) by exact Ht. reflexivity.
    + rewrite (IH _ t) by exact Ht. reflexivity.
Qed.

Lemma cleanupDerived_run (componentId : Z) s (cm : CM) t :
  _componentManager s = Some cm ->
  _renderPromises s = Some t ->
  _cleanupDerivedComponents componentId s
  = mkOut (Done tt)
      (set_jobs (cleanup_jobs t (getDerivedComponents cm componentId) (rm_jobs s)) s)
      (cleanup_trace t (getDerivedComponents cm componentId) (rm_jobs s)).
Proof.
  intros Hcm Ht. unfold _cleanupDerivedComponents, the_componentManager.
  unfold bind at 1. unfold bind at 1. unfold gets, deref, ret. simpl.
  rewrite Hcm. simpl. rewrite (cleanup_loop _ s t Ht). reflexivity.
Qed.

(** Cancelling turns pending promises into settled ones and changes
    nothing else. *)
Lemma lookup_cancel_component (c : Z) (jobs : list Job) (j : nat) :
  cancel_component c jobs !! j =
  (fun job => if (comp_id (job_component job) =? c)%Z then cancel_job job else job)
    <$> jobs !! j.
Proof. unfold cancel_component. apply list_lookup_fmap. Qed.

Lemma cancel_job_settled (job : Job) : is_pending (job_state (cancel_job job)) = false.
Proof. unfold cancel_job. destruct (is_pending (job_state job)) eqn:E; [reflexivity | exact E]. Qed.

Lemma cancel_job_pending (job : Job) :
  is_pending (job_state (cancel_job job)) = true -> is_pending (job_state job) = true.
Proof. now rewrite cancel_job_settled. Qed.

Lemma pending_cancel_mono t (jobs : list Job) (c c' : Z) :
  pending_in t (cancel_component c' jobs) c = true -> pending_in t jobs c = true.
Proof.
  unfold pending_in. destruct (t !! c) as [j|]; [|auto].
  rewrite lookup_cancel_component. destruct (jobs !! j) as [job|]; simpl; [|auto].
  destruct (comp_id (job_component job) =? c')%Z; [apply cancel_job_pending | auto].
Qed.

Lemma pending_cleanup_mono t (ds : list Component) : forall (jobs : list Job) (c : Z),
  pending_in t (cleanup_jobs t ds jobs) c = true -> pending_in t jobs c = true.
Proof.
  induction ds as [|d ds IH]; intros jobs c; simpl; [auto|].
  intros H. apply IH in H. destruct (pending_in t jobs (comp_id d)); [|exact H].
  now apply pending_cancel_mono in H.
Qed.

Lemma table_ok_cancel t (jobs : list Job) (c : Z) :
  table_ok t jobs -> table_ok t (cancel_component c jobs).
Proof.
  intros Hok c' j Hj. destruct (Hok _ _ Hj) as (job & Hjob & Hc).
  rewrite lookup_cancel_component, Hjob. simpl.
  eexists. split; [reflexivity|].
  unfold cancel_job.
  destruct (comp_id (job_component job) =? c)%Z; [|exact Hc].
  destruct (is_pending (job_state job)); exact Hc.
Qed.

Lemma pending_cancel_same t (jobs : list Job) (c : Z) :
  table_ok t jobs -> pending_in t (cancel_component c jobs) c = false.
Proof.
  intros Hok. unfold pending_in. destruct (t !! c) as [j|] eqn:Hj; [|reflexivity].
  destruct (Hok _ _ Hj) as (job & Hjob & Hc).
  rewrite lookup_cancel_component, Hjob. simpl.
  rewrite Hc, Z.eqb_refl. apply cancel_job_settled.
Qed.

Lemma pending_cancel_other t (jobs : list Job) (c c' : Z) :
  table_ok t jobs -> c <> c' ->
  pending_in t (cancel_component c' jobs) c = pending_in t jobs c.
Proof.
  intros Hok Hne. unfold pending_in. destruct (t !! c) as [j|] eqn:Hj; [|reflexivity].
  destruct (Hok _ _ Hj) as (job & Hjob & Hc).
  rewrite lookup_cancel_component, Hjob. simpl.
  destruct (Z.eqb_spec (comp_id (job_component job)) c'); [congruence | reflexivity].
Qed.

Lemma cleanup_settles t (ds : list Component) : forall jobs : list Job,
  table_ok t jobs ->
  forall d, In d ds -> pending_in t (cleanup_jobs t ds jobs) (comp_id d) = false.
Proof.
  induction ds as [|d0 ds IH]; intros jobs Hok d; simpl; [tauto|].
  intros [<-|Hin].
  - destruct (pending_in t (cleanup_jobs t ds _) (comp_id d0)) eqn:E; [|reflexivity].
    apply pending_cleanup_mono in E.
    destruct (pending_in t jobs (comp_id d0)) eqn:E0; [|congruence].
    now rewrite pending_cancel_same in E.
  - apply IH; [|exact Hin].
    destruct (pending_in t jobs (comp_id d0)); [now apply table_ok_cancel | exact Hok].
Qed.

Lemma cleanup_settled t (ds : list Component) (jobs : list Job) :
  (forall d, In d ds -> pending_in t jobs (comp_id d) = false) ->
  cleanup_jobs t ds jobs = jobs /\
  cleanup_trace t ds jobs = map (fun d => RemoveFileWithin (comp_assetPath d)) ds.
Proof.
  induction ds as [|d ds IH]; intros Hall; simpl; [auto|].
  rewrite (Hall d) by (left; reflexivity). simpl.
  destruct IH as [IH1 IH2]; [intros d' Hd'; apply Hall; now right|].
  split; [exact IH1 | now rewrite IH2].
Qed.

Lemma cleanup_cancels_pending t (ds : list Component) : forall (jobs : list Job) (c : Z),
  In (CancelRender c) (cleanup_trace t ds jobs) ->
  pending_in t jobs c = true /\ exists d, In d ds /\ comp_id d = c.
Proof.
  induction ds as [|d ds IH]; intros jobs c; simpl; [tauto|].
  intros H. apply in_app_or in H. destruct H as [H|[H|H]]; [| discriminate |].
  - destruct (pending_in t jobs (comp_id d)) eqn:E; [|destruct H].
    destruct H as [[= <-]|[]]. eauto.
  - apply IH in H. destruct H as [H (d' & Hd' & Hc)]. split; [|eauto].
    destruct (pending_in t jobs (comp_id d)); [|exact H].
    now apply pending_cancel_mono in H.
Qed.

Lemma cleanup_pending_cancelled t (ds : list Component) : forall (jobs : list Job) d,
  table_ok t jobs -> In d ds -> pending_in t jobs (comp_id d) = true ->
  In (CancelRender (comp_id d)) (cleanup_trace t ds jobs).
Proof.
  induction ds as [|d0 ds IH]; intros jobs d Hok; simpl; [tauto|].
  intros Hin Hp. destruct (Z.eq_dec (comp_id d0) (comp_id d)) as [Heq|Hne].
  - rewrite Heq, Hp. left. reflexivity.
  - destruct Hin as [->|Hin]; [congruence|].
    apply in_or_app. right. right.
    apply IH; [| exact Hin |].
    + destruct (pending_in t jobs (comp_id d0)); [now apply table_ok_cancel | exact Hok].
    + destruct (pending_in t jobs (comp_id d0)); [|exact Hp].
      rewrite pending_cancel_other; auto.
Qed.

Lemma cleanup_removes t (ds : list Component) : forall jobs : list Job,
  List.filter is_removeFile (cleanup_trace t ds jobs)
  = map (fun d => RemoveFileWithin (comp_assetPath d)) ds.
Proof.
  induction ds as [|d ds IH]; intros jobs; simpl; [reflexivity|].
  rewrite List.filter_app. simpl. rewrite IH.
  destruct (pending_in t jobs (comp_id d)); reflexivity.
Qed.

(** C8.  Cleaning up the derived components of a basic component cancels
    the render of a derived component exactly when the table holds a
    promise for it that is still pending (a settled promise whose entry is
    not cleared yet is not cancelled), asks for the removal of the asset
    path of every derived component, and is idempotent: a second call right
    after makes no cancellation, changes nothing and does not throw. *)
Theorem derived_cleanup (componentId : Z) s (cm : CM) t :
  _componentManager s = Some cm ->
  _renderPromises s = Some t ->
  wf s ->
  let ds := getDerivedComponents cm componentId in
  let o1 := _cleanupDerivedComponents componentId s in
  let o2 := _cleanupDerivedComponents componentId (out_state o1) in
  out_res o1 = Done tt
  /\ (forall c, In (CancelRender c) (out_trace o1) <->
        pending_in t (rm_jobs s) c = true /\ exists d, In d ds /\ comp_id d = c)
  /\ List.filter is_removeFile (out_trace o1)
     = map (fun d => RemoveFileWithin (comp_assetPath d)) ds
  /\ out_res o2 = Done tt
  /\ out_trace o2 = map (fun d => RemoveFileWithin (comp_assetPath d)) ds
  /\ out_state o2 = out_state o1.
Proof.
  intros Hcm Ht Hwf ds o1 o2. subst o2 o1.
  assert (Hok : table_ok t (rm_jobs s)) by (intros c j; apply Hwf, Ht).
  rewrite (cleanupDerived_run componentId s cm t Hcm Ht).
  cbn [out_res out_state out_trace]. fold ds.
  rewrite (cleanupDerived_run componentId _ cm t) by assumption.
  cbn [out_res out_state out_trace set_jobs rm_jobs]. fold ds.
  destruct (cleanup_settled t ds (cleanup_jobs t ds (rm_jobs s))) as [H1 H2].
  { now apply cleanup_settles. }
  split; [reflexivity|]. split; [|split; [apply cleanup_removes|]].
  - intros c. split; [apply cleanup_cancels_pending|].
    intros [Hp (d & Hd & <-)]. now apply cleanup_pending_cancelled.
  - split; [reflexivity|]. split; [exact H2|]. rewrite H1. reflexivity.
Qed.

End Cleanup.

Lemma derived_cleanup_witness :
  let s := out_state (start (CM:=SimpleCM) icon_doc created) in
  out_trace (_cleanupDerivedComponents 1 s)
  = [CancelRender 1; RemoveFileWithin "icon.png"] /\
  out_trace (_cleanupDerivedComponents 1 (out_state (_cleanupDerivedComponents 1 s)))
  = [RemoveFileWithin "icon.png"].
Proof.
  intros s.
  assert (Hs : s = mkAssetManager (Some {[1%Z := 0]})
                 (Some (mkSimpleCM 2 [(1%Z, icon_component)])) (Some "/assets"%string)
                 [mkJob icon_component Pending false] 1)
    by (vm_compute; reflexivity).
  assert (Hwf : wf s).
  { rewrite Hs. intros t [= <-] c j Hj.
    exists (mkJob icon_component Pending false).
    apply lookup_singleton_Some in Hj. destruct Hj as [<- <-]. split; reflexivity. }
  destruct (derived_cleanup 1 s (mkSimpleCM 2 [(1%Z, icon_component)]) {[1%Z := 0]})
    as (_ & _ & _ & _ & H2 & _);
    [rewrite Hs; reflexivity | rewrite Hs; reflexivity | exact Hwf |].
  split; [vm_compute; reflexivity | exact H2].
Defined.

(** ** Invariants of the methods *)

Ltac safe_step :=
  match goal with
  | |- safe _ _ (bind _ _) => apply safe_bind; [|intros]
  | |- safe _ _ (ret _) => apply safe_ret
  | |- safe _ _ (throw _) => apply safe_throw
  | |- safe _ _ (lift _) => apply safe_lift
  | |- safe _ _ (gets _) => apply safe_gets
  | |- safe _ _ (deref _) => apply safe_deref
  | |- safe _ _ (when _ _) => apply safe_when
  | |- safe _ _ (forEach _ _) => apply safe_forEach; intros
  | |- safe _ _ (reduce _ _ _) => apply safe_reduce; intros
  | |- safe _ _ (times _ _) => apply safe_times
  | |- safe _ _ (try_catch _ _) => apply safe_try_catch; [|intros]
  | |- safe _ _ (call _) => apply safe_call
  | |- safe _ _ (modify _) => apply safe_modify; intros
  | |- safe _ _ (match ?x with _ => _ end) => destruct x
  | |- safe _ _ the_renderPromises => unfold the_renderPromises
  | |- safe _ _ the_componentManager => unfold the_componentManager
  | |- safe _ _ (let (_, _) := ?x in _) => destruct x
  end.

Ltac safe_tac := repeat first [safe_step | solve [auto]].

Section Invariants.

Context {CM : Type} `{!ComponentManagerOps CM}.

Variable I : AssetManager CM -> Prop.
Variable Q : Event -> Prop.

(** What the methods of an incremental update need of [I] and [Q]. *)
Hypothesis I_componentManager : forall s c, I s -> I (set_componentManager c s).
Hypothesis safe_requestRender : forall doc c, safe I Q (_requestRender doc c).
Hypothesis safe_cancel : forall c, safe I Q (rm_cancel c).
Hypothesis Q_removeFile : forall p, Q (RemoveFileWithin p).
Hypothesis Q_addError : forall l m, Q (AddError l m).
Hypothesis Q_removeErrors : forall l, Q (RemoveErrors l).
Hypothesis Q_reportErrors : Q ReportErrors.

Lemma safe_hasPendingRender (c : Z) : safe I Q (_hasPendingRender c).
Proof. unfold _hasPendingRender, promise_pending. safe_tac. Qed.

Lemma safe_cleanupDerived (c : Z) : safe I Q (_cleanupDerivedComponents c).
Proof.
  unfold _cleanupDerivedComponents. pose proof safe_hasPendingRender. safe_tac.
Qed.



Lemma safe_addCurrentComponent (doc : Document) (layer : nat) (sp : Specification) :
  safe I Q (addCurrentComponent doc layer sp).
Proof. unfold addCurrentComponent. safe_tac. Qed.





(** What a reset needs in addition. *)
Hypothesis I_renderPromises : forall s, I s -> I (set_renderPromises (Some ∅) s).
Hypothesis I_basePath : forall s p, I s -> I (set_basePath p s).
Hypothesis safe_cancelAll : forall doc, safe I Q (rm_cancelAll doc).
Hypothesis Q_updateBasePath : forall d, Q (UpdateBasePath d).
Hypothesis Q_removeAllErrors : Q RemoveAllErrors.




Hypothesis Q_logDebug : Q LogDebug.


End Invariants.

(** ** One entry per component *)

Section WellFormed.

Context {CM : Type} `{!ComponentManagerOps CM}.

Implicit Types (s : AssetManager CM) (t : gmap Z nat).

Lemma Forall_anything (l : list Event) : Forall anything l.
Proof. apply Forall_forall. intros; exact Logic.I. Qed.



Lemma wf_requestRender (doc : Document) (c : Component) :
  safe (wf (CM:=CM)) anything (_requestRender doc c).
Proof.
  intros s Hwf. split; [|apply Forall_anything].
  destruct (_renderPromises s) as [t|] eqn:Ht.
  - rewrite (requestRender_run doc c s t Ht). simpl.
    intros t' [= <-] c' j. simpl.
    destruct (decide (comp_id c = c')) as [<-|Hne].
    + rewrite lookup_insert_eq. intros [= <-].
      exists (mkJob c Pending false). split; [|reflexivity].
      rewrite lookup_app_r by lia. now rewrite Nat.sub_diag.
    + rewrite lookup_insert_ne by exact Hne. intros Hj.
      destruct (Hwf t Ht _ _ Hj) as (job & Hjob & Hc).
      exists job. split; [now apply lookup_app_l_Some | exact Hc].
  - unfold _requestRender, rm_render, the_renderPromises, bind, gets, modify,
      call, deref, ret, throw. simpl. rewrite Ht. simpl.
    intros t' Ht'. simpl in Ht'. congruence.
Qed.





Lemma deliver_unfold (doc : Document) (j : nat) (job : Job) s :
  rm_jobs s !! j = Some job ->
  is_pending (job_state job) = false ->
  job_delivered job = false ->
  deliver doc j s =
  prepend [] (prepend []
    (handlers doc (job_component job) (job_state job)
       (set_jobs (<[j := mkJob (job_component job) (job_state job) true]>
                    (rm_jobs s)) s))).
Proof.
  intros Hj Hp Hd. unfold deliver, bind at 1, gets. simpl. rewrite Hj, Hp, Hd. simpl.
  unfold bind, modify. reflexivity.
Qed.










End WellFormed.



(** ** Stopping *)

Section Stop.

Context {CM : Type} `{!ComponentManagerOps CM}.

Implicit Types (s : AssetManager CM) (t : gmap Z nat).

Lemma handlers_not_active (doc : Document) (c : Component) (p : PromiseState) :
  safe (stopped (CM:=CM)) not_active (handlers doc c p).
Proof.
  intros s Hs. destruct (_renderPromises s) as [t|] eqn:Ht.
  - rewrite (handlers_run doc c p s t Ht). simpl. split; [exact Hs|].
    apply List.Forall_forall. intros e He d ->. apply in_app_or in He.
    destruct He as [He|He].
    + apply in_outcome_events in He.
      destruct He as [(_ & ? & _ & ?)|[(_ & ? & _ & ?)|[_ ?]]]; discriminate.
    + apply in_idle_events in He. discriminate.
  - unfold handlers, the_renderPromises, bind, gets, modify, call, when,
      deref, ret, throw.
    destruct p as [|v|v]; simpl; [| destruct (truthy_string v)..]; simpl;
      rewrite Ht; simpl; (split; [exact Hs|]);
      repeat constructor; intros d; discriminate.
Qed.

Lemma step_not_active (fuel : nat) (doc : Document) (i : Input) :
  i <> DoStart -> safe (stopped (CM:=CM)) not_active (step fuel doc i).
Proof.
  intros Hi. destruct i as [| |change|j p|j]; [congruence| | | |]; simpl.
  - unfold stop, rm_cancelAll. intros s Hs. unfold bind, modify, call. simpl.
    split; [unfold stopped in *; simpl; now rewrite Hs|].
    repeat constructor; intros d; discriminate.
  - intros s Hs. unfold bind, gets. simpl. rewrite Hs. simpl.
    split; [exact Hs | constructor].
  - intros s Hs. destruct (settle_run j p s) as (jobs & -> & _). simpl.
    split; [exact Hs | constructor].
  - intros s Hs.
    destruct (rm_jobs s !! j) as [job|] eqn:Hj;
      [|rewrite deliver_skip by (now rewrite Hj); split; [exact Hs | constructor]].
    destruct (is_pending (job_state job)) eqn:Hp;
      [rewrite deliver_skip by (rewrite Hj; auto); split; [exact Hs | constructor]|].
    destruct (job_delivered job) eqn:Hd;
      [rewrite deliver_skip by (rewrite Hj; auto); split; [exact Hs | constructor]|].
    rewrite (deliver_unfold doc j job s Hj Hp Hd), !prepend_state, !prepend_trace.
    simpl. apply handlers_not_active. exact Hs.
Qed.

Lemma run_not_active (fuel : nat) (inputs : list (Document * Input)) :
  Forall (fun di => snd di <> DoStart) inputs ->
  safe (stopped (CM:=CM)) not_active (run fuel inputs).
Proof.
  induction 1 as [|[doc i] inputs Hi _ IH]; simpl; [apply safe_ret|].
  apply safe_bind; [now apply safe_uncaught, step_not_active | intros; exact IH].
Qed.

(** C7 (as amended).  [stop] cancels all the renders of the document and
    all the pending operations of the file manager, and emits no signal
    itself.  When the instance was started once, it emits no "active"
    signal afterwards unless it is started again; its jobs still settle,
    and "idle" is emitted when the handlers of one of them leave the table
    empty. *)
Theorem stop_cancels (doc : Document) s :
  listeners s <= 1 ->
  let o := stop doc s in
  out_res o = Done tt
  /\ out_trace o = [RemoveListener; CancelAll (doc_id doc); FileCancelAll]
  /\ (forall j job, rm_jobs (out_state o) !! j = Some job ->
        is_pending (job_state job) = false)
  /\ (forall fuel inputs d,
        Forall (fun di => snd di <> DoStart) inputs ->
        ~ In (Emit Active d) (out_trace (run fuel inputs (out_state o))))
  /\ (forall j job t,
        rm_jobs (out_state o) !! j = Some job ->
        job_delivered job = false ->
        _renderPromises (out_state o) = Some t ->
        (In (Emit Idle (doc_id doc)) (out_trace (deliver doc j (out_state o)))
         <-> size (delete (comp_id (job_component job)) t) = 0)).
Proof.
  intros Hl o. subst o. unfold stop, rm_cancelAll, bind, modify, call. simpl.
  assert (Hsettled : forall j job,
            (cancel_job <$> rm_jobs s) !! j = Some job ->
            is_pending (job_state job) = false).
  { intros j job Hj. rewrite list_lookup_fmap in Hj.
    destruct (rm_jobs s !! j) as [job0|]; [|discriminate].
    injection Hj as <-. apply cancel_job_settled. }
  split; [reflexivity|]. split; [reflexivity|]. split; [exact Hsettled|]. split.
  - intros fuel inputs d Hin Hact.
    destruct (run_not_active fuel inputs Hin
                (set_jobs (cancel_job <$> rm_jobs s)
                   (set_listeners (pred (listeners s)) s))) as [_ Hq].
    { unfold stopped. simpl. lia. }
    rewrite List.Forall_forall in Hq. exact (Hq _ Hact d eq_refl).
  - intros j job t Hj Hd Ht.
    rewrite (deliver_run doc j job
               (set_jobs (cancel_job <$> rm_jobs s)
                  (set_listeners (pred (listeners s)) s))
               t Hj (Hsettled _ _ Hj) Hd Ht). simpl.
    rewrite in_app_iff. unfold idle_events. split.
    + intros [Hin|Hin].
      * apply in_outcome_events in Hin.
        destruct Hin as [(_ & ? & _ & ?)|[(_ & ? & _ & ?)|[_ ?]]]; discriminate.
      * destruct (bool_decide _) eqn:E; [now apply bool_decide_eq_true in E|].
        destruct Hin.
    + intros Hsz. right. rewrite bool_decide_eq_true_2 by exact Hsz.
      left. reflexivity.
Qed.

End Stop.

Lemma stop_cancels_witness :
  out_trace (stop (CM:=SimpleCM) icon_doc started)
  = [RemoveListener; CancelAll 7; FileCancelAll].
Proof.
  assert (Hl : listeners (CM:=SimpleCM) started <= 1) by (simpl; lia).
  destruct (stop_cancels icon_doc started Hl) as (_ & H & _). exact H.
Defined.

(** C7, as stated, fails: a job that is in flight when [stop] is called
    settles afterwards, its handlers empty the table and "idle" is
    emitted. *)
Lemma idle_after_stop :
  let s1 := out_state (start (CM:=SimpleCM) icon_doc created) in
  let s2 := out_state (stop icon_doc s1) in
  in_flight s2 = 1 /\
  out_trace (step 0 icon_doc (Deliver 0) s2)
  = [LogCanceled "icon.png" 1; Emit Idle 7].
Proof. vm_compute. split; reflexivity. Qed.

(** ** The update pass *)

Section Update.

Context {CM : Type} `{!ComponentManagerOps CM}.

Implicit Types (s : AssetManager CM) (t : gmap Z nat).

Lemma bind_assoc {A B C} (m : M CM A) (k : A -> M CM B) (k' : B -> M CM C) s :
  bind (bind m k) k' s = bind m (fun a => bind (k a) k') s.
Proof.
  unfold bind. destruct (m s) as [[a|e] s1 t1]; simpl; [|reflexivity].
  destruct (k a s1) as [[b|e] s2 t2]; simpl; [|reflexivity].
  destruct (k' b s2) as [r s3 t3]. simpl. now rewrite app_assoc.
Qed.

Lemma bind_ext {A B} (m : M CM A) (k k' : A -> M CM B) s :
  (forall a s', k a s' = k' a s') -> bind m k s = bind m k' s.
Proof.
  intros Hk. unfold bind. destruct (m s) as [[a|e] s1 t1]; [|reflexivity].
  now rewrite Hk.
Qed.

Lemma forEach_app {A} (l1 l2 : list A) (f : A -> M CM unit) s :
  forEach (l1 ++ l2) f s = bind (forEach l1 f) (fun _ => forEach l2 f) s.
Proof.
  revert s. induction l1 as [|x l1 IH]; intros s; simpl.
  - unfold bind, ret. now destruct (forEach l2 f s).
  - rewrite bind_assoc. apply bind_ext. intros _ s'. apply IH.
Qed.

(** The calls a render request makes. *)
Lemma requestRender_events (doc : Document) (c : Component) s :
  Forall (fun e => e = Render c \/ e = Emit Active (doc_id doc))
         (out_trace (_requestRender doc c s)).
Proof.
  destruct (_renderPromises s) as [t|] eqn:Ht.
  - rewrite (requestRender_run doc c s t Ht). simpl.
    apply List.Forall_forall. intros e [<-|He]; [auto|].
    destruct (bool_decide (size t = 0)); [|destruct He].
    destruct He as [<-|[]]. auto.
  - unfold _requestRender, rm_render, the_renderPromises, bind, gets, modify,
      call, deref, ret, throw. simpl. rewrite Ht. simpl.
    apply List.Forall_forall. intros e [<-|[]]. auto.
Qed.

(** A specification is added, or its failure is recorded: the step itself
    never fails. *)
Lemma addCurrentComponent_done (doc : Document) (layer : nat) (sp : Specification) s :
  out_res (addCurrentComponent doc layer sp s) = Done tt.
Proof.
  unfold addCurrentComponent, try_catch.
  match goal with |- out_res (match ?body s with _ => _ end) = _ =>
    destruct (body s) as [[[]|e] s1 t1]; reflexivity
  end.
Qed.

Lemma forEach_addCurrentComponent_done (doc : Document) (layer : nat)
    (specs : list Specification) s :
  out_res (forEach specs (addCurrentComponent doc layer) s) = Done tt.
Proof.
  revert s. induction specs as [|sp specs IH]; intros s; simpl; [reflexivity|].
  rewrite (bind_done _ _ _ tt) by apply addCurrentComponent_done.
  rewrite prepend_res. apply IH.
Qed.

(** A failing [addComponent] leaves a diagnostic and nothing else. *)
Lemma addCurrentComponent_failed (doc : Document) (layer : nat) (sp : Specification)
    s (cm cm' : CM) (message : string) :
  _componentManager s = Some cm ->
  addComponent cm doc layer sp = (cm', AddFailed message) ->
  addCurrentComponent doc layer sp s
  = mkOut (Done tt) (set_componentManager (Some cm') s) [AddError layer message].
Proof.
  intros Hcm Hadd. unfold addCurrentComponent, try_catch, the_componentManager,
    bind, gets, deref, modify, throw, call, ret. simpl. rewrite Hcm. simpl.
  rewrite Hadd. reflexivity.
Qed.

(** C10.  The update pass is not atomic per layer: when [addComponent]
    throws for one specification of a layer, that specification alone
    becomes a diagnostic; the specifications added before it stay as they
    are (the component manager is the one the failing call returned,
    no render is cancelled, no asset removed, the promises and the table
    are untouched), and the specifications after it are still attempted. *)
Theorem update_not_atomic (doc : Document) (layer : nat)
    (pre post : list Specification) (bad : Specification) s
    (cm cm' : CM) (message : string) :
  let o1 := forEach pre (addCurrentComponent doc layer) s in
  _componentManager (out_state o1) = Some cm ->
  addComponent cm doc layer bad = (cm', AddFailed message) ->
  let s2 := set_componentManager (Some cm') (out_state o1) in
  let o3 := forEach post (addCurrentComponent doc layer) s2 in
  let o := forEach (pre ++ bad :: post) (addCurrentComponent doc layer) s in
  addCurrentComponent doc layer bad (out_state o1)
  = mkOut (Done tt) s2 [AddError layer message]
  /\ rm_jobs s2 = rm_jobs (out_state o1)
  /\ _renderPromises s2 = _renderPromises (out_state o1)
  /\ o = mkOut (Done tt) (out_state o3)
           (out_trace o1 ++ AddError layer message :: out_trace o3)
  /\ Forall (fun e => ~ undoes e) (out_trace o).
Proof.
  intros o1 Hcm Hadd s2 o3 o.
  pose proof (addCurrentComponent_failed doc layer bad _ cm cm' message Hcm Hadd)
    as Hbad. fold s2 in Hbad.
  split; [exact Hbad|]. split; [reflexivity|]. split; [reflexivity|]. split.
  - subst o. rewrite forEach_app.
    rewrite (bind_done _ _ _ tt) by apply forEach_addCurrentComponent_done.
    fold o1. simpl.
    unfold bind. rewrite Hbad. fold o3.
    pose proof (forEach_addCurrentComponent_done doc layer post s2) as H3.
    fold o3 in H3. destruct o3 as [r3 s3 t3]. simpl in *. now subst r3.
  - apply (safe_forEach (fun _ => True) (fun e => ~ undoes e)); [|exact Logic.I].
    intros sp. apply safe_addCurrentComponent; try (intros; exact Logic.I).
    + intros doc' c s' _. split; [exact Logic.I|].
      eapply List.Forall_impl; [|apply requestRender_events].
      intros e [->| ->]; simpl; tauto.
    + intros l m. simpl. tauto.
Qed.

End Update.

Lemma update_not_atomic_witness :
  let spec := mkSpecification "icon.png" "icon.png" false in
  let other := mkSpecification "dot.png" "dot.png" false in
  out_trace (forEach ([spec] ++ spec :: [other])
               (addCurrentComponent (CM:=SimpleCM) icon_doc 1) started)
  = [Render icon_component; Emit Active 7;
     AddError 1 "Duplicate asset path";
     Render (mkComponent 2 "dot.png" "dot.png" 1)].
Proof.
  intros spec other.
  assert (Hcm : _componentManager
                  (out_state (forEach [spec] (addCurrentComponent icon_doc 1) started))
                = Some (mkSimpleCM 2 [(1%Z, icon_component)]))
    by (vm_compute; reflexivity).
  assert (Hadd : addComponent (mkSimpleCM 2 [(1%Z, icon_component)]) icon_doc 1 spec
                 = (mkSimpleCM 2 [(1%Z, icon_component)],
                    AddFailed "Duplicate asset path"))
    by (vm_compute; reflexivity).
  destruct (update_not_atomic icon_doc 1 [spec] [other] spec started _ _ _ Hcm Hadd)
    as (_ & _ & _ & H & _).
  rewrite H. vm_compute. reflexivity.
Defined.

(** ** The specifications of the closure and the reset check *)

Section Escalation.

Context {CM : Type} `{!ComponentManagerOps CM}.

Implicit Types (s : AssetManager CM) (t : gmap Z nat).

Lemma prepend_nil {A} (o : Out CM A) : prepend [] o = o.
Proof. now destruct o. Qed.

Lemma bind_call {B} (e : Event) (k : unit -> M CM B) s :
  bind (call e) k s = prepend [e] (k tt s).
Proof. reflexivity. Qed.

Lemma bind_ret {A B} (a : A) (k : A -> M CM B) s : bind (ret a) k s = k a s.
Proof. unfold bind, ret. apply prepend_nil. Qed.

Lemma bind_modify {B} (f : AssetManager CM -> AssetManager CM) (k : unit -> M CM B) s :
  bind (modify f) k s = k tt (f s).
Proof. unfold bind, modify. apply prepend_nil. Qed.

Lemma bind_gets {A B} (f : AssetManager CM -> A) (k : A -> M CM B) s :
  bind (gets f) k s = k (f s) s.
Proof. unfold bind, gets. apply prepend_nil. Qed.

Lemma forEach_addError (layer : nat) (errors : list string) s :
  exists tr, forEach errors (fun error => call (AddError layer error)) s
             = mkOut (Done tt) s tr /\ Forall diagnostic tr.
Proof.
  induction errors as [|e errors (tr & IH & Htr)]; simpl.
  - exists []. split; [reflexivity | constructor].
  - exists (AddError layer e :: tr). rewrite bind_call, IH.
    split; [reflexivity | constructor; [exact Logic.I | exact Htr]].
Qed.

Lemma collectValid_run (layer : nat) (results : list ParseResult) :
  forall acc s, exists tr,
    reduce (collectStep layer) results acc s
    = mkOut (Done (acc ++ flat_map (fun r => match result_component r with
                                             | Some c => [c] | None => [] end)
                              results)) s tr
    /\ Forall diagnostic tr.
Proof.
  induction results as [|r results IH]; intros acc s; simpl.
  - exists []. rewrite app_nil_r. split; [reflexivity | constructor].
  - unfold collectStep at 1.
    destruct (result_component r) as [c|]; simpl.
    + rewrite bind_ret. destruct (IH (acc ++ [c]) s) as (tr & -> & Htr). exists tr.
      rewrite <- app_assoc. split; [reflexivity | exact Htr].
    + destruct (result_errors r) as [errors|]; simpl.
      * rewrite bind_assoc. unfold bind at 1.
        destruct (forEach_addError layer errors s) as (tr0 & -> & Htr0).
        rewrite bind_ret. destruct (IH acc s) as (tr & -> & Htr). exists (tr0 ++ tr).
        split; [reflexivity|]. apply Forall_app. auto.
      * rewrite bind_ret. destruct (IH acc s) as (tr & -> & Htr). exists tr. auto.
Qed.

Lemma specificationsStep_run (doc : Document) (deps : JSObj.t nat)
    (specs : JSObj.t (list Specification)) (k : Z) (layer : nat) s (cm : CM) :
  _componentManager s = Some cm ->
  JSObj.get k deps = Some layer ->
  exists tr,
    specificationsStep doc deps specs k s
    = mkOut (Done (specificationsOfStep cm doc deps specs k)) s (RemoveErrors k :: tr)
    /\ Forall diagnostic tr.
Proof.
  intros Hcm Hk. unfold specificationsOfStep. rewrite Hk.
  destruct (collectValid_run layer (findAllComponents cm doc layer) [] s)
    as (tr0 & Hrun & Htr0).
  unfold specificationsStep, the_componentManager, collectValid, bind, call,
    deref, gets, ret. simpl. rewrite Hk, Hcm. simpl. rewrite Hrun. simpl.
  exists (tr0 ++ []). split; [reflexivity|]. now rewrite app_nil_r.
Qed.

Lemma findSpecifications_run (doc : Document) (deps : JSObj.t nat) s (cm : CM) :
  _componentManager s = Some cm ->
  exists tr,
    findSpecifications doc deps s = mkOut (Done (specificationsOf cm doc deps)) s tr
    /\ Forall diagnostic tr.
Proof.
  intros Hcm. unfold findSpecifications, specificationsOf.
  assert (Hks : forall k, In k (JSObj.keys deps) -> JSObj.get k deps <> None)
    by (intros k; apply JSObjFacts.in_keys).
  revert Hks. generalize (JSObj.keys deps) as ks.
  generalize (@nil (Z * list Specification)) as acc.
  intros acc ks. revert acc. induction ks as [|k ks IH]; intros acc Hks; simpl.
  - exists []. split; [reflexivity | constructor].
  - destruct (JSObj.get k deps) as [layer|] eqn:Hk;
      [|destruct (Hks k); [now left | exact Hk]].
    destruct (specificationsStep_run doc deps acc k layer s cm Hcm Hk)
      as (tr0 & Hstep & Htr0).
    unfold bind. rewrite Hstep.
    edestruct IH as (tr & -> & Htr); [intros k' Hk'; apply Hks; now right|].
    eexists. split; [reflexivity|]. simpl.
    constructor; [exact Logic.I|]. apply Forall_app. auto.
Qed.

(** [specificationsByLayer] holds, for each layer of the closure with valid
    specifications, these specifications under the layer's id. *)
Section Specifications.

Variables (cm : CM) (doc : Document) (deps : JSObj.t nat).

Hypothesis keyed : forall k l, JSObj.get k deps = Some l -> layer_id (doc_heap doc l) = k.

Lemma nonempty_length {A} (l : list A) : (0 <? length l)%nat = true <-> l <> [].
Proof.
  destruct l as [|x l]; simpl.
  - split; [discriminate | intros H; now destruct H].
  - split; [discriminate | reflexivity].
Qed.

Lemma specs_fold_inv (ks : list Z) : forall acc k v,
  JSObj.get k (fold_left (specificationsOfStep cm doc deps) ks acc) = Some v ->
  JSObj.get k acc = Some v \/
  exists l, JSObj.get k deps = Some l /\ v = validSpecifications cm doc l /\ v <> [].
Proof.
  induction ks as [|k0 ks IH]; intros acc k v; simpl; [auto|].
  intros H. apply IH in H. destruct H as [H|H]; [|auto].
  unfold specificationsOfStep in H. destruct (JSObj.get k0 deps) as [l0|] eqn:Hk0; [|auto].
  destruct (0 <? length (validSpecifications cm doc l0))%nat eqn:Hlen; [|auto].
  rewrite JSObjFacts.get_set in H.
  destruct (Z.eqb_spec k (layer_id (doc_heap doc l0))) as [->|Hne]; [|auto].
  injection H as <-. right. exists l0. rewrite (keyed _ _ Hk0).
  split; [exact Hk0|]. split; [reflexivity|]. now apply nonempty_length.
Qed.

Lemma specs_fold_keep (ks : list Z) : forall acc k l,
  JSObj.get k deps = Some l ->
  JSObj.get k acc = Some (validSpecifications cm doc l) ->
  JSObj.get k (fold_left (specificationsOfStep cm doc deps) ks acc) = Some (validSpecifications cm doc l).
Proof.
  induction ks as [|k0 ks IH]; intros acc k l Hk Hacc; simpl; [exact Hacc|].
  apply IH; [exact Hk|]. unfold specificationsOfStep.
  destruct (JSObj.get k0 deps) as [l0|] eqn:Hk0; [|exact Hacc].
  destruct (0 <? length (validSpecifications cm doc l0))%nat; [|exact Hacc].
  rewrite JSObjFacts.get_set, (keyed _ _ Hk0).
  destruct (Z.eqb_spec k k0) as [->|Hne]; [|exact Hacc]. congruence.
Qed.

Lemma specs_fold_get (ks : list Z) : forall acc k l,
  In k ks ->
  JSObj.get k deps = Some l ->
  validSpecifications cm doc l <> [] ->
  JSObj.get k (fold_left (specificationsOfStep cm doc deps) ks acc) = Some (validSpecifications cm doc l).
Proof.
  induction ks as [|k0 ks IH]; intros acc k l Hin Hk Hv; simpl; [destruct Hin|].
  destruct (Z.eq_dec k0 k) as [->|Hne].
  - apply specs_fold_keep; [exact Hk|]. unfold specificationsOfStep. rewrite Hk.
    apply nonempty_length in Hv. rewrite Hv.
    rewrite JSObjFacts.get_set, (keyed _ _ Hk), Z.eqb_refl. reflexivity.
  - destruct Hin as [Heq|Hin]; [congruence|]. now apply IH.
Qed.

Lemma specificationsOf_get (k : Z) (v : list Specification) :
  JSObj.get k (specificationsOf cm doc deps) = Some v <->
  exists l, JSObj.get k deps = Some l /\ v = validSpecifications cm doc l /\ v <> [].
Proof.
  unfold specificationsOf. split.
  - intros H. apply specs_fold_inv in H. destruct H as [H|H]; [discriminate | exact H].
  - intros (l & Hk & -> & Hv). apply specs_fold_get; [|exact Hk|exact Hv].
    apply JSObjFacts.in_keys. congruence.
Qed.


End Specifications.

Lemma initialised_cancel (c : Z) : safe (initialised (CM:=CM)) anything (rm_cancel c).
Proof.
  intros s Hs. split; [exact Hs|]. apply List.Forall_forall. intros; exact Logic.I.
Qed.

Lemma completes_the_componentManager : completes (initialised (CM:=CM)) the_componentManager.
Proof.
  intros s [_ [cm Hcm]]. exists cm.
  unfold the_componentManager. rewrite bind_gets, Hcm. reflexivity.
Qed.

Lemma completes_cleanupDerived (c : Z) :
  completes (initialised (CM:=CM)) (_cleanupDerivedComponents c).
Proof.
  intros s [[t Ht] [cm Hcm]]. exists tt.
  now rewrite (cleanupDerived_run c s cm t Hcm Ht).
Qed.

Lemma completes_cleanup (doc : Document) : completes (initialised (CM:=CM)) (_cleanup doc).
Proof.
  assert (Hsafe : forall c, safe (initialised (CM:=CM)) anything
                              (_cleanupDerivedComponents c)).
  { intros c. apply safe_cleanupDerived;
      [apply initialised_cancel | intros; exact Logic.I]. }
  unfold _cleanup.
  eapply (completes_bind _ anything); [apply completes_gets | apply (safe_gets _ anything) | intros cm].
  eapply (completes_bind _ anything); [apply completes_gets | apply (safe_gets _ anything) | intros bp].
  destruct cm; [|apply completes_ret]. apply completes_when.
  apply (completes_forEach _ anything); intros layer;
    (destruct (layer_group (doc_heap doc layer)); [|apply completes_ret || apply safe_ret]).
  - eapply (completes_bind _ anything);
      [apply completes_the_componentManager
      |unfold the_componentManager; apply safe_bind;
         [apply safe_gets | intros; apply safe_deref]
      |intros cm'].
    apply (completes_forEach _ anything); [apply completes_cleanupDerived | exact Hsafe].
  - apply safe_bind;
      [unfold the_componentManager; apply safe_bind;
         [apply safe_gets | intros; apply safe_deref]
      |intros cm'; apply safe_forEach; exact Hsafe].
Qed.

Lemma dependentLayersOf_keyed (fuel : nat) (doc : Document)
    (layers : JSObj.t LayerChange) (deps : JSObj.t nat) :
  dependentLayersOf fuel doc layers = Done deps ->
  forall k l, JSObj.get k deps = Some l -> layer_id (doc_heap doc l) = k.
Proof.
  intros H k l Hk.
  destruct (closeLayer_fold doc fuel layers _ _ _ H) as (_ & _ & _ & H4).
  destruct (H4 _ _ Hk) as [[=]|(? & ? & ? & _ & _ & _ & _ & Hid)]. exact Hid.
Qed.

End Escalation.

(** ** Resolution changes *)

(** C1 (the code departs from it).  A change notification with a resolution
    is to be handled by a full reset and nothing more.  The code makes the
    reset and then goes on with the [layers] of the same notification: here
    it clears the errors of layer 1, cancels the render the reset has just
    requested, removes its asset, adds the component again and requests a
    second render. *)
Theorem resolution_change_continues :
  let s := out_state (start (CM:=SimpleCM) icon_doc created) in
  let change :=
    mkChange None (Some 72%Z) (Some [(1%Z, mkLayerChange "modified" 1)]) in
  out_trace (_handleChange 2 icon_doc change s)
  = LogDebug :: out_trace (_reset icon_doc s)
    ++ [RemoveErrors 1; CancelRender 1; RemoveFileWithin "icon.png";
        Render (mkComponent 2 "icon.png" "icon.png" 1); ReportErrors].
Proof. vm_compute. reflexivity. Qed.

(** ** Initialisation *)

Section Initialisation.

Context {CM : Type} `{!ComponentManagerOps CM}.

Implicit Types (s : AssetManager CM) (t : gmap Z nat).

Lemma set_componentManager_id s (cm : CM) :
  _componentManager s = Some cm -> set_componentManager (Some cm) s = s.
Proof. destruct s; simpl. now intros ->. Qed.

Lemma render_trace_busy (doc : Document) t (cs : list Component) :
  size t <> 0 -> render_trace doc t cs = map Render cs.
Proof.
  intros Ht. destruct cs as [|c cs]; simpl; [reflexivity|].
  now rewrite bool_decide_eq_false_2.
Qed.

Lemma size_insert_pos t (k : Z) (n : nat) : size (<[k := n]> t) <> 0.
Proof.
  intros H0. apply map_size_empty_iff in H0.
  apply (f_equal (fun m : gmap Z nat => m !! k)) in H0.
  rewrite lookup_insert_eq, lookup_empty in H0. discriminate.
Qed.

(** Requesting the renders of a list of components. *)
Lemma render_loop (doc : Document) (cs : list Component) : forall s t,
  _renderPromises s = Some t ->
  forEach cs (_requestRender doc) s
  = mkOut (Done tt)
      (set_renderPromises (Some (render_table t (length (rm_jobs s)) cs))
         (set_jobs (rm_jobs s ++ map new_job cs) s))
      (render_trace doc t cs).
Proof.
  induction cs as [|c cs IH]; intros s t Ht.
  - simpl. rewrite app_nil_r. unfold ret. f_equal. destruct s; simpl in *. now subst.
  - cbn [forEach]. unfold bind. rewrite (requestRender_run doc c s t Ht).
    rewrite (IH _ (<[comp_id c := length (rm_jobs s)]> t)) by reflexivity.
    rewrite render_trace_busy by apply size_insert_pos.
    cbn [prepend rm_jobs set_jobs set_renderPromises _renderPromises
         _componentManager fm_basePath listeners render_table render_trace map].
    rewrite length_app, Nat.add_1_r, <- app_assoc. cbn [app].
    reflexivity.
Qed.

Lemma derived_loop (doc : Document) (cm : CM) (basics : list Component) : forall s t,
  _componentManager s = Some cm ->
  _renderPromises s = Some t ->
  forEach basics (fun component =>
    let* cm := the_componentManager in
    forEach (getDerivedComponents cm (comp_id component)) (_requestRender doc)) s
  = forEach (flat_map (fun component => getDerivedComponents cm (comp_id component))
               basics) (_requestRender doc) s.
Proof.
  induction basics as [|b basics IH]; intros s t Hcm Ht; [reflexivity|].
  cbn [forEach flat_map]. rewrite forEach_app.
  unfold the_componentManager. rewrite !bind_assoc, bind_gets, Hcm.
  cbn [deref]. rewrite bind_ret. unfold bind.
  rewrite (render_loop doc _ s t Ht). f_equal. eapply IH; [exact Hcm | reflexivity].
Qed.

Lemma initRenders_run (doc : Document) (cm : CM) (ids : list Z) : forall s t,
  _componentManager s = Some cm ->
  _renderPromises s = Some t ->
  initRenders doc ids s = forEach (initComponents cm ids) (_requestRender doc) s.
Proof.
  unfold initRenders, initComponents.
  induction ids as [|layerId ids IH]; intros s t Hcm Ht; [reflexivity|].
  cbn [forEach flat_map]. rewrite forEach_app.
  unfold the_componentManager at 1. rewrite !bind_assoc, bind_gets, Hcm.
  cbn [deref]. rewrite bind_ret.
  unfold bind at 1. rewrite (derived_loop doc cm _ s t Hcm Ht).
  unfold bind. rewrite (render_loop doc _ s t Ht). f_equal.
  eapply IH; [exact Hcm | reflexivity].
Qed.

Lemma forEach_addErrors (layer : nat) (errors : list string) s :
  forEach errors (fun error => call (AddError layer error)) s
  = mkOut (Done tt) s (map (AddError layer) errors).
Proof.
  induction errors as [|e errors IH]; simpl; [reflexivity|].
  now rewrite bind_call, IH.
Qed.

(** The results of the initialisation passes depend on the component
    manager alone, and the passes change nothing else. *)
Lemma initResult_run (doc : Document) (layer : nat) (hv : bool) (result : ParseResult)
    (cm : CM) :
  layer_group (doc_heap doc layer) <> None ->
  exists b cm' tr,
    Forall (grouped_error doc) tr /\
    forall s, _componentManager s = Some cm ->
      initResult doc layer hv result s
      = mkOut (Done b) (set_componentManager (Some cm') s) tr.
Proof.
  intros Hg. unfold initResult.
  destruct (result_component result) as [component|].
  - destruct (addComponent cm doc layer component) as [cm' [id|message]] eqn:Hadd.
    + exists true, cm', []. split; [constructor|]. intros s Hcm.
      unfold try_catch, the_componentManager, bind, gets, deref, modify, throw,
        call, ret. simpl. rewrite Hcm. simpl. now rewrite Hadd.
    + exists hv, cm', [AddError layer message].
      split; [repeat constructor; exact Hg|]. intros s Hcm.
      unfold try_catch, the_componentManager, bind, gets, deref, modify, throw,
        call, ret. simpl. rewrite Hcm. simpl. now rewrite Hadd.
  - destruct (result_errors result) as [errors|].
    + exists hv, cm, (map (AddError layer) errors). split.
      * clear -Hg. induction errors; constructor; [exact Hg | assumption].
      * intros s Hcm. rewrite (set_componentManager_id s cm Hcm).
        unfold bind. rewrite forEach_addErrors. simpl. now rewrite app_nil_r.
    + exists hv, cm, []. split; [constructor|]. intros s Hcm.
      now rewrite (set_componentManager_id s cm Hcm).
Qed.

Lemma initResults_run (doc : Document) (layer : nat) (results : list ParseResult) :
  layer_group (doc_heap doc layer) <> None ->
  forall (hv : bool) (cm : CM),
  exists b cm' tr,
    Forall (grouped_error doc) tr /\
    forall s, _componentManager s = Some cm ->
      reduce (initResult doc layer) results hv s
      = mkOut (Done b) (set_componentManager (Some cm') s) tr.
Proof.
  intros Hg. induction results as [|r results IH]; intros hv cm.
  - exists hv, cm, []. split; [constructor|]. intros s Hcm.
    now rewrite (set_componentManager_id s cm Hcm).
  - destruct (initResult_run doc layer hv r cm Hg) as (b & cm1 & tr1 & Htr1 & H1).
    destruct (IH b cm1) as (b' & cm2 & tr2 & Htr2 & H2).
    exists b', cm2, (tr1 ++ tr2). split; [apply Forall_app; auto|]. intros s Hcm.
    cbn [reduce]. unfold bind. rewrite (H1 s Hcm).
    now rewrite (H2 (set_componentManager (Some cm1) s) eq_refl).
Qed.

Lemma initLayers_reduce (doc : Document) (layers : list nat) :
  forall (cm : CM) (ids : list Z),
  exists ids' cm' tr,
    Forall (grouped_error doc) tr /\
    (forall id, In id ids' ->
       In id ids \/
       exists layer, In layer layers /\ layer_group (doc_heap doc layer) <> None
                     /\ layer_id (doc_heap doc layer) = id) /\
    forall s, _componentManager s = Some cm ->
      reduce (initLayer doc) layers ids s
      = mkOut (Done ids') (set_componentManager (Some cm') s) tr.
Proof.
  induction layers as [|layer layers IH]; intros cm ids.
  - exists ids, cm, []. split; [constructor|]. split; [auto|]. intros s Hcm.
    now rewrite (set_componentManager_id s cm Hcm).
  - destruct (layer_group (doc_heap doc layer)) as [g|] eqn:Hg.
    + destruct (initResults_run doc layer (findAllComponents cm doc layer))
        with (hv := false) (cm := cm) as (b & cm1 & tr1 & Htr1 & H1); [congruence|].
      destruct (IH cm1 (if b then ids ++ [layer_id (doc_heap doc layer)] else ids))
        as (ids' & cm2 & tr2 & Htr2 & Hids & H2).
      exists ids', cm2, (tr1 ++ tr2). split; [apply Forall_app; auto|]. split.
      * intros id Hid. destruct (Hids id Hid) as [Hin | (l & Hl & Hgl & Hidl)].
        -- destruct b; [|auto]. apply in_app_or in Hin as [Hin | [<- | []]]; [auto|].
           right. exists layer. split; [now left | split; [congruence | reflexivity]].
        -- right. exists l. split; [now right | auto].
      * intros s Hcm. cbn [reduce]. unfold initLayer at 1. rewrite Hg.
        unfold the_componentManager. rewrite !bind_assoc, bind_gets, Hcm.
        cbn [deref]. rewrite bind_ret, bind_assoc.
        unfold bind at 1. rewrite (H1 s Hcm). rewrite bind_ret.
        now rewrite (H2 (set_componentManager (Some cm1) s) eq_refl).
    + destruct (IH cm ids) as (ids' & cm2 & tr2 & Htr2 & Hids & H2).
      exists ids', cm2, tr2. split; [exact Htr2|]. split.
      * intros id Hid. destruct (Hids id Hid) as [Hin | (l & Hl & Hgl & Hidl)]; [auto|].
        right. exists l. split; [now right | auto].
      * intros s Hcm. cbn [reduce]. unfold initLayer at 1. rewrite Hg.
        rewrite bind_ret. now apply H2.
Qed.

(** What [_init] does: the layers with a valid component, the component
    manager and the errors are those of the document, whatever the state. *)
Lemma init_run (doc : Document) :
  exists ids (cm' : CM) diag,
    Forall (grouped_error doc) diag /\
    (forall id, In id ids ->
       exists layer, In layer (doc_layers doc)
                     /\ layer_group (doc_heap doc layer) <> None
                     /\ layer_id (doc_heap doc layer) = id) /\
    forall s,
      _init doc s
      = mkOut (Done tt)
          (mkAssetManager
             (Some (render_table ∅ (length (rm_jobs s)) (initComponents cm' ids)))
             (Some cm') (doc_path doc)
             ((cancel_job <$> rm_jobs s) ++ map new_job (initComponents cm' ids))
             (listeners s))
          (UpdateBasePath (doc_id doc) :: RemoveAllErrors :: CancelAll (doc_id doc)
           :: diag ++ ReportErrors
           :: render_trace doc ∅ (initComponents cm' ids)).
Proof.
  destruct (initLayers_reduce doc (doc_layers doc) cm_new [])
    as (ids & cm' & diag & Hdiag & Hids & Hl).
  exists ids, cm', diag. split; [exact Hdiag|]. split.
  { intros id Hid. destruct (Hids id Hid) as [[] | H]. exact H. }
  intros s.
  set (s0 := mkAssetManager (Some ∅) (Some cm_new) (doc_path doc)
               (cancel_job <$> rm_jobs s) (listeners s)).
  change (_init doc) with
    (modify (set_renderPromises (Some ∅)) ;;
     modify (set_componentManager (Some cm_new)) ;;
     fm_updateBasePath doc ;;
     call RemoveAllErrors ;;
     rm_cancelAll doc ;;
     let* layerIdsWithComponents := initLayers doc in
     call ReportErrors ;;
     initRenders doc layerIdsWithComponents).
  unfold fm_updateBasePath, rm_cancelAll.
  rewrite !bind_modify, !bind_assoc, bind_modify, bind_call.
  rewrite bind_call, bind_assoc, bind_modify, bind_call.
  match goal with |- context [set_jobs ?a ?b] => change (set_jobs a b) with s0 end.
  unfold bind at 1. unfold initLayers. rewrite (Hl s0 eq_refl). rewrite bind_call.
  rewrite (initRenders_run doc cm' ids (set_componentManager (Some cm') s0) ∅
             eq_refl eq_refl).
  rewrite (render_loop doc _ (set_componentManager (Some cm') s0) ∅ eq_refl).
  cbn [prepend app rm_jobs set_jobs set_renderPromises set_componentManager
       _renderPromises _componentManager fm_basePath listeners s0].
  rewrite length_fmap. reflexivity.
Qed.

Lemma emitted_none (signal : Signal) (P : Event -> Prop) (tr : list Event) :
  (forall e, P e -> is_emit signal e = false) -> Forall P tr -> emitted signal tr = 0.
Proof.
  intros HP Htr. unfold emitted. induction Htr as [|e tr He _ IH]; [reflexivity|].
  simpl. now rewrite (HP e He).
Qed.

Lemma grouped_error_quiet (doc : Document) (signal : Signal) (e : Event) :
  grouped_error doc e -> is_emit signal e = false.
Proof. now destruct e. Qed.

Lemma emitted_renders (signal : Signal) (cs : list Component) :
  emitted signal (map Render cs) = 0.
Proof. unfold emitted. induction cs as [|c cs IH]; [reflexivity | exact IH]. Qed.

Lemma render_trace_calls (doc : Document) t (cs : list Component) :
  Forall render_call (render_trace doc t cs).
Proof.
  assert (Hmap : forall l : list Component, Forall render_call (map Render l)).
  { induction l; constructor; [exact Logic.I | assumption]. }
  destruct cs as [|c cs]; simpl; [constructor|].
  constructor; [exact Logic.I|]. apply Forall_app. split; [|apply Hmap].
  destruct (bool_decide (size t = 0)); repeat constructor.
Qed.

Lemma render_table_lookup (cs : list Component) : forall t (n : nat) (id : Z) (j : nat),
  render_table t n cs !! id = Some j ->
  t !! id = Some j \/
  (n <= j /\ exists c, cs !! (j - n) = Some c /\ comp_id c = id).
Proof.
  induction cs as [|c cs IH]; intros t n id j; simpl; [auto|].
  intros H. apply IH in H as [H | (Hle & c' & Hc' & Hid)].
  - destruct (decide (comp_id c = id)) as [<- | Hne].
    + rewrite lookup_insert_eq in H. injection H as <-. right.
      split; [lia|]. exists c. now rewrite Nat.sub_diag.
    + rewrite lookup_insert_ne in H by exact Hne. now left.
  - right. split; [lia|]. exists c'. split; [|exact Hid].
    replace (j - n) with (S (j - S n)) by lia. exact Hc'.
Qed.

Lemma render_table_keeps (cs : list Component) : forall t (n : nat) (id : Z),
  is_Some (t !! id) -> is_Some (render_table t n cs !! id).
Proof.
  induction cs as [|c cs IH]; intros t n id Hid; simpl; [exact Hid|].
  apply IH. destruct (decide (comp_id c = id)) as [<- | Hne].
  - rewrite lookup_insert_eq. eauto.
  - now rewrite lookup_insert_ne.
Qed.

Lemma render_table_dom (cs : list Component) : forall t (n : nat) (c : Component),
  In c cs -> is_Some (render_table t n cs !! comp_id c).
Proof.
  induction cs as [|c0 cs IH]; intros t n c; simpl; [tauto|].
  intros [-> | Hin]; [|now apply IH].
  apply render_table_keeps. rewrite lookup_insert_eq. eauto.
Qed.

Lemma render_table_above (cs : list Component) : forall t (n m : nat) (id : Z),
  (exists j, t !! id = Some j /\ m <= j) -> m <= n ->
  exists j, render_table t n cs !! id = Some j /\ m <= j.
Proof.
  induction cs as [|c cs IH]; intros t n m id Hid Hmn; simpl; [exact Hid|].
  apply IH; [|lia]. destruct (decide (comp_id c = id)) as [<- | Hne].
  - exists n. now rewrite lookup_insert_eq.
  - now rewrite lookup_insert_ne.
Qed.

Lemma render_table_new (cs : list Component) : forall t (n : nat) (c : Component),
  In c cs -> exists j, render_table t n cs !! comp_id c = Some j /\ n <= j.
Proof.
  induction cs as [|c0 cs IH]; intros t n c; simpl; [tauto|].
  intros [-> | Hin].
  - apply render_table_above; [|lia]. exists n. now rewrite lookup_insert_eq.
  - destruct (IH (<[comp_id c0 := n]> t) (S n) c Hin) as (j & Hj & Hle).
    exists j. split; [exact Hj | lia].
Qed.

(** A render requested in a round of requests is pending after it. *)
Lemma pending_render_table_from t (old : list Job) (cs : list Component)
    (c : Component) :
  table_ok t old -> In c cs ->
  pending_in (render_table t (length old) cs) (old ++ map new_job cs) (comp_id c) = true.
Proof.
  intros Hok Hin. unfold pending_in.
  destruct (render_table_new cs t (length old) c Hin) as (j & Hj & Hle). rewrite Hj.
  apply render_table_lookup in Hj as [Hj | (_ & c' & Hc' & _)].
  - destruct (Hok _ _ Hj) as (job & Hjob & _).
    apply lookup_lt_Some in Hjob. lia.
  - rewrite lookup_app_r by exact Hle.
    change (map new_job cs) with (new_job <$> cs).
    now rewrite list_lookup_fmap, Hc'.
Qed.

(** The pending renders of a fresh table after a round of requests are
    those of the requested components. *)
Lemma pending_render_table (old : list Job) (cs : list Component) (id : Z) :
  pending_in (render_table ∅ (length old) cs) (old ++ map new_job cs) id = true
  <-> exists c, In c cs /\ comp_id c = id.
Proof.
  unfold pending_in. split.
  - destruct (render_table ∅ (length old) cs !! id) as [j|] eqn:Hj; [|discriminate].
    intros _. apply render_table_lookup in Hj as [Hj | (_ & c & Hc & Hid)].
    + now rewrite lookup_empty in Hj.
    + exists c. split; [|exact Hid]. apply list_elem_of_In.
      eapply list_elem_of_lookup_2. exact Hc.
  - intros (c & Hin & <-).
    destruct (render_table_dom cs ∅ (length old) c Hin) as [j Hj]. rewrite Hj.
    apply render_table_lookup in Hj as [Hj | (Hle & c' & Hc' & _)].
    + now rewrite lookup_empty in Hj.
    + rewrite lookup_app_r by exact Hle.
      change (map new_job cs) with (new_job <$> cs).
      now rewrite list_lookup_fmap, Hc'.
Qed.

(** X1.  From any state [_init] ends normally, and its calls come in this
    order: the base path is updated, all errors are removed and all renders
    of the document are cancelled; then errors are recorded, each for a
    layer that lies in a group; then the errors are reported once; then
    renders are requested.  No asset is removed and no single render is
    cancelled. *)
Theorem init_order (doc : Document) s :
  exists diag renders,
    out_res (_init doc s) = Done tt /\
    out_trace (_init doc s)
    = UpdateBasePath (doc_id doc) :: RemoveAllErrors :: CancelAll (doc_id doc)
      :: diag ++ ReportErrors :: renders /\
    Forall (grouped_error doc) diag /\
    Forall render_call renders.
Proof.
  destruct (init_run doc) as (ids & cm' & diag & Hdiag & _ & Hrun).
  exists diag, (render_trace doc ∅ (initComponents cm' ids)). rewrite Hrun.
  repeat split; [exact Hdiag | apply render_trace_calls].
Qed.

(** X2.  The state [_init] leaves, from any state: both fields are set, the
    base path is that of the document, the listeners are as before, every
    job that existed before is cancelled, and each render that is pending
    according to the new table is for a derived component of a basic
    component of a layer of the document that lies in a group. *)
Theorem init_state (doc : Document) s :
  exists (cm' : CM) t,
    out_res (_init doc s) = Done tt /\
    _componentManager (out_state (_init doc s)) = Some cm' /\
    _renderPromises (out_state (_init doc s)) = Some t /\
    fm_basePath (out_state (_init doc s)) = doc_path doc /\
    listeners (out_state (_init doc s)) = listeners s /\
    take (length (rm_jobs s)) (rm_jobs (out_state (_init doc s)))
    = cancel_job <$> rm_jobs s /\
    forall id, pending_in t (rm_jobs (out_state (_init doc s))) id = true ->
      exists layer basic derived,
        In layer (doc_layers doc) /\
        layer_group (doc_heap doc layer) <> None /\
        In basic (getBasicComponentsByLayer cm' (layer_id (doc_heap doc layer))) /\
        In derived (getDerivedComponents cm' (comp_id basic)) /\
        comp_id derived = id.
Proof.
  destruct (init_run doc) as (ids & cm' & diag & _ & Hids & Hrun).
  exists cm', (render_table ∅ (length (rm_jobs s)) (initComponents cm' ids)).
  rewrite Hrun. cbn [out_res out_state _componentManager _renderPromises fm_basePath
                     listeners rm_jobs].
  repeat split.
  - rewrite <- (length_fmap cancel_job (rm_jobs s)) at 1. apply take_app_length.
  - intros id Hp. rewrite <- (length_fmap cancel_job (rm_jobs s)) in Hp.
    apply pending_render_table in Hp as (d & Hd & Hid).
    unfold initComponents in Hd. apply in_flat_map in Hd as (layerId & Hl & Hd).
    apply in_flat_map in Hd as (basic & Hb & Hd).
    destruct (Hids layerId Hl) as (layer & Hlayer & Hg & <-).
    exists layer, basic, d. auto.
Qed.

(** X3.  [_init] emits "active" exactly once if it requests at least one
    render and not at all otherwise, and it never emits "idle", whatever
    renders were in flight before. *)
Theorem init_signals (doc : Document) s :
  emitted Active (out_trace (_init doc s))
  = (if existsb is_render (out_trace (_init doc s)) then 1 else 0) /\
  emitted Idle (out_trace (_init doc s)) = 0.
Proof.
  destruct (init_run doc) as (ids & cm' & diag & Hdiag & _ & Hrun).
  rewrite Hrun. cbn [out_trace].
  change (?a :: ?b :: ?c :: diag ++ ?l) with ([a; b; c] ++ diag ++ l).
  rewrite !existsb_app, !emitted_app.
  rewrite !(emitted_none _ _ diag (fun e => grouped_error_quiet doc _ e) Hdiag).
  assert (Hd : existsb is_render diag = false).
  { clear Hrun. induction Hdiag as [|e tr He _ IH]; [reflexivity|].
    simpl. rewrite IH. now destruct e. }
  rewrite Hd. destruct (initComponents cm' ids) as [|c cs]; [split; reflexivity|].
  change (ReportErrors :: ?l) with ([ReportErrors] ++ l).
  rewrite !emitted_app. cbn [render_trace].
  change (Render c :: ?l) with ([Render c] ++ l).
  rewrite !emitted_app, !emitted_renders.
  rewrite bool_decide_eq_true_2 by apply map_size_empty. split; reflexivity.
Qed.

End Initialisation.

(** ** Pending renders and the cleanup pass *)

Section CleanupPass.

Context {CM : Type} `{!ComponentManagerOps CM}.

Implicit Types (s : AssetManager CM) (t : gmap Z nat).

Lemma pending_request_other (doc : Document) (c : Component) s t (id : Z) :
  _renderPromises s = Some t -> table_ok t (rm_jobs s) -> id <> comp_id c ->
  pending_in (<[comp_id c := length (rm_jobs s)]> t)
    (rm_jobs s ++ [mkJob c Pending false]) id
  = pending_in t (rm_jobs s) id.
Proof.
  intros Ht Hok Hne. unfold pending_in. rewrite lookup_insert_ne by congruence.
  destruct (t !! id) as [j|] eqn:Hj; [|reflexivity].
  destruct (Hok _ _ Hj) as (job & Hjob & _).
  now rewrite (lookup_app_l_Some _ _ _ _ Hjob), Hjob.
Qed.

(** X4.  A render that has just been requested is pending; once the render
    manager has cancelled it, it is not; and neither step changes whether
    the render of any other component is pending. *)
Theorem request_cancel (doc : Document) (c : Component) s t :
  _renderPromises s = Some t ->
  table_ok t (rm_jobs s) ->
  out_res (_hasPendingRender (comp_id c) (out_state (_requestRender doc c s)))
  = Done true /\
  out_res (_hasPendingRender (comp_id c)
             (out_state (rm_cancel (comp_id c) (out_state (_requestRender doc c s)))))
  = Done false /\
  forall id, id <> comp_id c ->
    out_res (_hasPendingRender id (out_state (_requestRender doc c s)))
    = out_res (_hasPendingRender id s) /\
    out_res (_hasPendingRender id
               (out_state (rm_cancel (comp_id c) (out_state (_requestRender doc c s)))))
    = out_res (_hasPendingRender id s).
Proof.
  intros Ht Hok.
  assert (Hwf : wf s).
  { intros t' Ht'. rewrite Ht in Ht'. now injection Ht' as <-. }
  pose proof (proj1 (wf_requestRender doc c s Hwf)) as Hwf1.
  rewrite (requestRender_run doc c s t Ht) in *. cbn [out_state] in *.
  set (t1 := <[comp_id c := length (rm_jobs s)]> t) in *.
  set (jobs1 := rm_jobs s ++ [mkJob c Pending false]) in *.
  specialize (Hwf1 t1 eq_refl). cbn [rm_jobs set_renderPromises set_jobs] in Hwf1.
  unfold rm_cancel. rewrite bind_modify. cbn [call out_state].
  assert (Hrun : forall id jobs,
            out_res (_hasPendingRender id
                       (set_jobs jobs (set_renderPromises (Some t1) (set_jobs jobs1 s))))
            = Done (pending_in t1 jobs id)).
  { intros id jobs. now erewrite hasPendingRender_run by reflexivity. }
  assert (Hrun1 : forall id,
            out_res (_hasPendingRender id (set_renderPromises (Some t1) (set_jobs jobs1 s)))
            = Done (pending_in t1 jobs1 id)).
  { intros id. now erewrite hasPendingRender_run by reflexivity. }
  cbn [rm_jobs set_renderPromises set_jobs] in *.
  split; [|split].
  - rewrite Hrun1. unfold pending_in, t1, jobs1. rewrite lookup_insert_eq.
    rewrite lookup_app_r by lia. now rewrite Nat.sub_diag.
  - rewrite Hrun. f_equal. apply pending_cancel_same. exact Hwf1.
  - intros id Hne. rewrite Hrun, Hrun1, (hasPendingRender_run _ s t Ht).
    cbn [out_res]. rewrite pending_cancel_other by assumption.
    unfold t1, jobs1. rewrite pending_request_other by assumption. auto.
Qed.

Lemma only_cancelled_refl (jobs : list Job) : only_cancelled jobs jobs.
Proof. apply Forall2_same_length_lookup_2; [reflexivity|]. intros; left; congruence. Qed.

Lemma only_cancelled_trans (jobs1 jobs2 jobs3 : list Job) :
  only_cancelled jobs1 jobs2 -> only_cancelled jobs2 jobs3 -> only_cancelled jobs1 jobs3.
Proof.
  unfold only_cancelled. intros H12. revert jobs3.
  induction H12 as [|j1 j2 l1 l2 H _ IH]; intros jobs3 H23; inversion H23; subst;
    constructor; [|now apply IH].
  destruct H as [-> | [Hp ->]]; [assumption|].
  match goal with H : _ \/ _ |- _ => destruct H as [-> | [Hp' _]] end.
  - right. auto.
  - now rewrite cancel_job_settled in Hp'.
Qed.

Lemma only_cancelled_component (c : Z) (jobs : list Job) :
  only_cancelled jobs (cancel_component c jobs).
Proof.
  unfold only_cancelled, cancel_component. induction jobs as [|j jobs IH]; simpl;
    constructor; [|exact IH].
  destruct (comp_id (job_component j) =? c)%Z; [|now left].
  unfold cancel_job. destruct (is_pending (job_state j)) eqn:Hp; [|now left].
  right. now split.
Qed.

Lemma only_cancelled_all (jobs : list Job) :
  only_cancelled jobs (cancel_job <$> jobs).
Proof.
  unfold only_cancelled. induction jobs as [|j jobs IH]; simpl; constructor; [|exact IH].
  unfold cancel_job. destruct (is_pending (job_state j)) eqn:Hp; [|now left].
  right. now split.
Qed.

Lemma only_cancelled_cleanup t (ds : list Component) : forall jobs : list Job,
  only_cancelled jobs (cleanup_jobs t ds jobs).
Proof.
  induction ds as [|d ds IH]; intros jobs; simpl; [apply only_cancelled_refl|].
  destruct (pending_in t jobs (comp_id d)); [|apply IH].
  eapply only_cancelled_trans; [apply only_cancelled_component | apply IH].
Qed.

Lemma cleanup_jobs_app t (ds1 ds2 : list Component) : forall jobs : list Job,
  cleanup_jobs t (ds1 ++ ds2) jobs = cleanup_jobs t ds2 (cleanup_jobs t ds1 jobs).
Proof. induction ds1 as [|d ds1 IH]; intros jobs; simpl; [reflexivity | apply IH]. Qed.

Lemma cleanup_trace_app t (ds1 ds2 : list Component) : forall jobs : list Job,
  cleanup_trace t (ds1 ++ ds2) jobs
  = cleanup_trace t ds1 jobs ++ cleanup_trace t ds2 (cleanup_jobs t ds1 jobs).
Proof.
  induction ds1 as [|d ds1 IH]; intros jobs; simpl; [reflexivity|].
  rewrite IH, <- app_assoc. reflexivity.
Qed.

Lemma cleanup_trace_calls t (ds : list Component) : forall jobs : list Job,
  Forall asset_call (cleanup_trace t ds jobs).
Proof.
  induction ds as [|d ds IH]; intros jobs; simpl; [constructor|].
  apply Forall_app. split.
  - destruct (pending_in t jobs (comp_id d)); repeat constructor.
  - constructor; [exact Logic.I | apply IH].
Qed.

(** The components whose derived components [_cleanup] visits. *)
Lemma cleanup_ids_run (cm : CM) t (ids : list Z) : forall s,
  _componentManager s = Some cm ->
  _renderPromises s = Some t ->
  forEach ids _cleanupDerivedComponents s
  = mkOut (Done tt)
      (set_jobs (cleanup_jobs t (flat_map (getDerivedComponents cm) ids) (rm_jobs s)) s)
      (cleanup_trace t (flat_map (getDerivedComponents cm) ids) (rm_jobs s)).
Proof.
  induction ids as [|id ids IH]; intros s Hcm Ht.
  - simpl. unfold ret. now rewrite set_jobs_id.
  - cbn [forEach flat_map]. unfold bind.
    rewrite (cleanupDerived_run id s cm t Hcm Ht).
    rewrite IH by assumption. rewrite cleanup_jobs_app, cleanup_trace_app. reflexivity.
Qed.

Lemma cleanup_layers_run (doc : Document) (cm : CM) t (layers : list nat) : forall s,
  _componentManager s = Some cm ->
  _renderPromises s = Some t ->
  forEach layers (fun layer =>
    match layer_group (doc_heap doc layer) with
    | None => ret tt
    | Some _ =>
        let* cm := the_componentManager in
        forEach (getComponentsByLayer cm (layer_id (doc_heap doc layer)))
          _cleanupDerivedComponents
    end) s
  = mkOut (Done tt)
      (set_jobs (cleanup_jobs t (cleanupComponents cm doc layers) (rm_jobs s)) s)
      (cleanup_trace t (cleanupComponents cm doc layers) (rm_jobs s)).
Proof.
  unfold cleanupComponents.
  induction layers as [|layer layers IH]; intros s Hcm Ht.
  - simpl. unfold ret. now rewrite set_jobs_id.
  - cbn [forEach flat_map].
    destruct (layer_group (doc_heap doc layer)) as [g|].
    + unfold the_componentManager. rewrite !bind_assoc, bind_gets, Hcm.
      cbn [deref]. rewrite bind_ret. unfold bind.
      rewrite (cleanup_ids_run cm t _ s Hcm Ht).
      rewrite IH by assumption. rewrite cleanup_jobs_app, cleanup_trace_app. reflexivity.
    + rewrite bind_ret. apply IH; assumption.
Qed.

Lemma cleanup_run (doc : Document) s (cm : CM) t :
  _componentManager s = Some cm ->
  _renderPromises s = Some t ->
  truthy_string (fm_basePath s) = true ->
  _cleanup doc s
  = mkOut (Done tt)
      (set_jobs (cleanup_jobs t (cleanupComponents cm doc (doc_layers doc)) (rm_jobs s)) s)
      (cleanup_trace t (cleanupComponents cm doc (doc_layers doc)) (rm_jobs s)).
Proof.
  intros Hcm Ht Hb. unfold _cleanup. rewrite !bind_gets, Hcm, Hb. cbn [when].
  now apply cleanup_layers_run.
Qed.

(** X5.  [_cleanup] does nothing without a component manager or a base
    path.  Otherwise it ends normally and changes only the jobs: some
    pending ones are cancelled; it calls nothing but [cancel] and
    [removeFileWithin]; and for every derived component of a component of a
    layer that lies in a group, its asset is removed and no render of it is
    pending afterwards. *)
Theorem cleanup_effect (doc : Document) s :
  (_componentManager s = None \/ truthy_string (fm_basePath s) = false ->
   _cleanup doc s = mkOut (Done tt) s []) /\
  forall (cm : CM) t,
    _componentManager s = Some cm ->
    _renderPromises s = Some t ->
    table_ok t (rm_jobs s) ->
    truthy_string (fm_basePath s) = true ->
    exists jobs,
      out_res (_cleanup doc s) = Done tt /\
      out_state (_cleanup doc s) = set_jobs jobs s /\
      only_cancelled (rm_jobs s) jobs /\
      Forall asset_call (out_trace (_cleanup doc s)) /\
      forall layer id derived,
        In layer (doc_layers doc) ->
        layer_group (doc_heap doc layer) <> None ->
        In id (getComponentsByLayer cm (layer_id (doc_heap doc layer))) ->
        In derived (getDerivedComponents cm id) ->
        pending_in t jobs (comp_id derived) = false /\
        In (RemoveFileWithin (comp_assetPath derived)) (out_trace (_cleanup doc s)).
Proof.
  split.
  - intros H. unfold _cleanup. rewrite !bind_gets.
    destruct (_componentManager s) as [cm|]; [|reflexivity].
    destruct H as [H|H]; [discriminate|]. now rewrite H.
  - intros cm t Hcm Ht Hok Hb. rewrite (cleanup_run doc s cm t Hcm Ht Hb).
    eexists. split; [reflexivity|]. split; [reflexivity|].
    split; [apply only_cancelled_cleanup|]. split; [apply cleanup_trace_calls|].
    intros layer id d Hl Hg Hid Hd. cbn [out_trace].
    assert (Hin : In d (cleanupComponents cm doc (doc_layers doc))).
    { unfold cleanupComponents. apply in_flat_map. exists layer. split; [exact Hl|].
      destruct (layer_group (doc_heap doc layer)); [|congruence].
      apply in_flat_map. eauto. }
    split; [now apply cleanup_settles|].
    assert (Hf : In (RemoveFileWithin (comp_assetPath d))
                   (List.filter is_removeFile
                      (cleanup_trace t (cleanupComponents cm doc (doc_layers doc))
                         (rm_jobs s)))).
    { rewrite cleanup_removes. apply in_map_iff. eauto. }
    apply filter_In in Hf. tauto.
Qed.

End CleanupPass.

Lemma request_cancel_witness :
  out_res (_hasPendingRender 1
             (out_state (_requestRender icon_doc icon_component started)))
  = Done true /\
  out_res (_hasPendingRender 1
             (out_state (rm_cancel 1
                (out_state (_requestRender icon_doc icon_component started)))))
  = Done false.
Proof.
  assert (Hok : table_ok ∅ (rm_jobs started)).
  { intros c j Hj. rewrite lookup_empty in Hj. discriminate. }
  destruct (request_cancel icon_doc icon_component started ∅ eq_refl Hok)
    as (H1 & H2 & _).
  split; [exact H1 | exact H2].
Defined.

Lemma cleanup_effect_witness :
  let s := out_state (start (CM:=SimpleCM) icon_doc created) in
  out_res (_cleanup icon_doc s) = Done tt /\
  In (RemoveFileWithin "icon.png") (out_trace (_cleanup icon_doc s)).
Proof.
  intros s.
  assert (Hs : s = mkAssetManager (Some {[1%Z := 0]})
                 (Some (mkSimpleCM 2 [(1%Z, icon_component)])) (Some "/assets"%string)
                 [mkJob icon_component Pending false] 1)
    by (vm_compute; reflexivity).
  assert (Hok : table_ok {[1%Z := 0]} (rm_jobs s)).
  { rewrite Hs. intros c j Hj. exists (mkJob icon_component Pending false).
    apply lookup_singleton_Some in Hj. destruct Hj as [<- <-]. split; reflexivity. }
  destruct (cleanup_effect icon_doc s) as [_ H].
  destruct (H (mkSimpleCM 2 [(1%Z, icon_component)]) {[1%Z := 0]})
    as (jobs & Hres & _ & _ & _ & Hd);
    [rewrite Hs; reflexivity | rewrite Hs; reflexivity | exact Hok
    | rewrite Hs; reflexivity |].
  split; [exact Hres|].
  destruct (Hd 1 1%Z icon_component) as [_ Hin];
    [right; left; reflexivity | discriminate | left; reflexivity | left; reflexivity|].
  exact Hin.
Defined.

(** ** The passes of an incremental update *)

Section Passes.

Context {CM : Type} `{!ComponentManagerOps CM}.

Implicit Types (s : AssetManager CM) (t : gmap Z nat).

Lemma set_fields_id s (cm : CM) :
  _componentManager s = Some cm ->
  set_componentManager (Some cm) (set_jobs (rm_jobs s) s) = s.
Proof. destruct s; simpl. now intros ->. Qed.

Lemma bind_the_componentManager {B} (k : CM -> M CM B) s (cm : CM) :
  _componentManager s = Some cm -> bind the_componentManager k s = k cm s.
Proof.
  intros Hcm. unfold the_componentManager. rewrite bind_assoc, bind_gets, Hcm.
  apply bind_ret.
Qed.

(** The loop over the components of a layer: each is cleaned up and then
    removed. *)
Lemma remove_loop t (ids : list Z) : forall s (cm : CM),
  _componentManager s = Some cm ->
  _renderPromises s = Some t ->
  exists jobs tr,
    forEach ids (fun componentId =>
      _cleanupDerivedComponents componentId ;;
      let* cm := the_componentManager in
      modify (set_componentManager (Some (removeComponent cm componentId)))) s
    = mkOut (Done tt)
        (set_componentManager (Some (fold_left removeComponent ids cm))
           (set_jobs jobs s)) tr
    /\ only_cancelled (rm_jobs s) jobs
    /\ Forall asset_call tr.
Proof.
  induction ids as [|id ids IH]; intros s cm Hcm Ht.
  - exists (rm_jobs s), []. simpl. rewrite (set_fields_id s cm Hcm).
    split; [reflexivity|]. split; [apply only_cancelled_refl | constructor].
  - cbn [forEach fold_left]. rewrite bind_assoc. unfold bind at 1.
    rewrite (cleanupDerived_run id s cm t Hcm Ht).
    cbn [prepend]. rewrite bind_assoc.
    rewrite (bind_the_componentManager _ _ cm) by exact Hcm. rewrite bind_modify.
    match goal with |- context [forEach ids ?f ?s1] =>
      destruct (IH s1 (removeComponent cm id) eq_refl Ht) as (jobs & tr & Hrun & Hj & Htr)
    end.
    rewrite Hrun. eexists jobs, _. split; [reflexivity|]. split.
    + eapply only_cancelled_trans; [apply only_cancelled_cleanup | exact Hj].
    + cbn [prepend out_trace]. apply Forall_app. split; [apply cleanup_trace_calls | exact Htr].
Qed.

(** X6.  Removing the components of a layer ends normally; every component
    the layer had when the pass began is removed from the component
    manager, in order; the table of renders is left as it is; jobs are only
    cancelled; and nothing is called but [cancel] and [removeFileWithin]. *)
Theorem remove_layer_components (layerId : Z) s (cm : CM) t :
  _componentManager s = Some cm ->
  _renderPromises s = Some t ->
  exists jobs,
    out_res (removeLayerComponents layerId s) = Done tt /\
    out_state (removeLayerComponents layerId s)
    = set_componentManager
        (Some (fold_left removeComponent (getComponentsByLayer cm layerId) cm))
        (set_jobs jobs s) /\
    only_cancelled (rm_jobs s) jobs /\
    Forall asset_call (out_trace (removeLayerComponents layerId s)).
Proof.
  intros Hcm Ht. unfold removeLayerComponents.
  rewrite (bind_the_componentManager _ _ cm) by exact Hcm.
  destruct (remove_loop t (getComponentsByLayer cm layerId) s cm Hcm Ht)
    as (jobs & tr & Hrun & Hj & Htr).
  exists jobs. rewrite Hrun. auto.
Qed.

Lemma addCurrentComponent_added (doc : Document) (layer : nat) (sp : Specification) s
    (cm cm' : CM) t (componentId : Z) :
  _componentManager s = Some cm ->
  _renderPromises s = Some t ->
  addComponent cm doc layer sp = (cm', Added componentId) ->
  addCurrentComponent doc layer sp s
  = mkOut (Done tt)
      (mkAssetManager
         (Some (render_table t (length (rm_jobs s))
                  (getDerivedComponents cm' componentId)))
         (Some cm') (fm_basePath s)
         (rm_jobs s ++ map new_job (getDerivedComponents cm' componentId))
         (listeners s))
      (render_trace doc t (getDerivedComponents cm' componentId)).
Proof.
  intros Hcm Ht Hadd. unfold addCurrentComponent, try_catch.
  rewrite (bind_the_componentManager _ _ cm) by exact Hcm.
  rewrite Hadd, bind_modify.
  rewrite (bind_the_componentManager _ _ cm') by reflexivity.
  rewrite (render_loop doc _ _ t) by exact Ht. reflexivity.
Qed.

(** X7.  When [addComponent] succeeds, the component manager it returns is
    kept, a render is requested for each of the derived components of the
    new component, in order, and nothing else is called: no error is
    recorded, and "active" is emitted with the first request if the table
    was empty.  Every requested render is pending afterwards. *)
Theorem add_success (doc : Document) (layer : nat) (sp : Specification) s
    (cm cm' : CM) t (componentId : Z) :
  _componentManager s = Some cm ->
  _renderPromises s = Some t ->
  table_ok t (rm_jobs s) ->
  addComponent cm doc layer sp = (cm', Added componentId) ->
  out_res (addCurrentComponent doc layer sp s) = Done tt /\
  out_trace (addCurrentComponent doc layer sp s)
  = render_trace doc t (getDerivedComponents cm' componentId) /\
  _componentManager (out_state (addCurrentComponent doc layer sp s)) = Some cm' /\
  forall derived, In derived (getDerivedComponents cm' componentId) ->
    out_res (_hasPendingRender (comp_id derived)
               (out_state (addCurrentComponent doc layer sp s)))
    = Done true.
Proof.
  intros Hcm Ht Hok Hadd.
  rewrite (addCurrentComponent_added doc layer sp s cm cm' t componentId Hcm Ht Hadd).
  cbn [out_res out_trace out_state _componentManager].
  split; [reflexivity|]. split; [reflexivity|]. split; [reflexivity|].
  intros d Hd. erewrite hasPendingRender_run by reflexivity.
  cbn [out_res rm_jobs]. f_equal.
  apply pending_render_table_from; assumption.
Qed.

Lemma removed_fold (layers : JSObj.t LayerChange) (ks : list Z) :
  (forall k, In k ks -> JSObj.get k layers <> None) ->
  forall (removed : list Z) (specs : JSObj.t (list Specification)) s,
  exists specs',
    reduce (fun acc layerId =>
        let removedLayerIds := fst acc in
        let specificationsByLayer := snd acc in
        let* layerChange := deref (JSObj.get layerId layers) in
        if String.eqb (change_type layerChange) "removed"
        then ret (removedLayerIds ++ [layerId],
                  JSObj.delete layerId specificationsByLayer)
        else ret (removedLayerIds, specificationsByLayer))
      ks (removed, specs) s
    = mkOut (Done (removed ++ List.filter (is_removed layers) ks, specs')) s []
    /\ forall k, JSObj.get k specs'
                 = if existsb (fun k' => (k =? k')%Z) (List.filter (is_removed layers) ks)
                   then None else JSObj.get k specs.
Proof.
  induction ks as [|k ks IH]; intros Hks removed specs s.
  - exists specs. simpl. rewrite app_nil_r. auto.
  - destruct (JSObj.get k layers) as [layerChange|] eqn:Hk;
      [|destruct (Hks k); [now left | exact Hk]].
    assert (Hr : is_removed layers k = String.eqb (change_type layerChange) "removed")
      by (unfold is_removed; now rewrite Hk).
    cbn [reduce List.filter]. rewrite Hr, Hk.
    cbn [deref fst snd]. rewrite bind_assoc, bind_ret.
    destruct (String.eqb (change_type layerChange) "removed").
    + rewrite bind_ret.
      destruct (IH (fun k' Hin => Hks k' (or_intror Hin)) (removed ++ [k])
                  (JSObj.delete k specs) s) as (specs' & Hrun & Hget).
      exists specs'. split.
      { etransitivity; [exact Hrun|]. now rewrite <- app_assoc. }
      intros k'. rewrite Hget, JSObjFacts.get_delete. cbn [existsb].
      destruct (k' =? k)%Z; [now destruct (existsb _ _) | reflexivity].
    + rewrite bind_ret.
      apply (IH (fun k' Hin => Hks k' (or_intror Hin))).
Qed.

Lemma removedLayers_run (layers : JSObj.t LayerChange)
    (specs : JSObj.t (list Specification)) s :
  exists specs',
    removedLayers layers (JSObj.keys layers) specs s
    = mkOut (Done (List.filter (is_removed layers) (JSObj.keys layers), specs')) s []
    /\ forall k, JSObj.get k specs' <> None -> JSObj.get k specs <> None.
Proof.
  destruct (removed_fold layers (JSObj.keys layers)
              (fun k => proj1 (JSObjFacts.in_keys k layers)) [] specs s)
    as (specs' & Hrun & Hget).
  exists specs'. split; [exact Hrun|]. intros k. rewrite Hget.
  now destruct (existsb _ _).
Qed.

(** X8.  The filter over the changed layers never fails and calls nothing:
    it yields the ids of the layers whose change is of type "removed", in
    the order of the keys, and the specifications without the entries of
    these layers. *)
Theorem removed_layers (layers : JSObj.t LayerChange)
    (specs : JSObj.t (list Specification)) s :
  exists specs',
    removedLayers layers (JSObj.keys layers) specs s
    = mkOut (Done (List.filter (is_removed layers) (JSObj.keys layers), specs')) s []
    /\ forall k, JSObj.get k specs'
                 = if is_removed layers k then None else JSObj.get k specs.
Proof.
  destruct (removed_fold layers (JSObj.keys layers)
              (fun k => proj1 (JSObjFacts.in_keys k layers)) [] specs s)
    as (specs' & Hrun & Hget).
  exists specs'. split; [exact Hrun|]. intros k. rewrite Hget.
  destruct (is_removed layers k) eqn:Hr.
  - replace (existsb _ _) with true; [reflexivity|].
    symmetry. apply existsb_exists. exists k. split; [|apply Z.eqb_refl].
    apply filter_In. split; [|exact Hr]. apply JSObjFacts.in_keys.
    unfold is_removed in Hr. destruct (JSObj.get k layers); [discriminate|discriminate].
  - replace (existsb _ _) with false; [reflexivity|].
    symmetry. apply not_true_is_false. intros Hex. apply existsb_exists in Hex.
    destruct Hex as (k' & Hin & Heq). apply Z.eqb_eq in Heq. subst k'.
    apply filter_In in Hin. destruct Hin as [_ Hin]. congruence.
Qed.

End Passes.

Lemma remove_layer_components_witness :
  let s := out_state (start (CM:=SimpleCM) icon_doc created) in
  out_res (removeLayerComponents 1 s) = Done tt /\
  _componentManager (out_state (removeLayerComponents 1 s)) = Some (mkSimpleCM 2 []).
Proof.
  intros s.
  assert (Hs : s = mkAssetManager (Some {[1%Z := 0]})
                 (Some (mkSimpleCM 2 [(1%Z, icon_component)])) (Some "/assets"%string)
                 [mkJob icon_component Pending false] 1)
    by (vm_compute; reflexivity).
  destruct (remove_layer_components 1 s (mkSimpleCM 2 [(1%Z, icon_component)])
              {[1%Z := 0]}) as (jobs & Hres & Hstate & _);
    [rewrite Hs; reflexivity | rewrite Hs; reflexivity |].
  split; [exact Hres|]. rewrite Hstate. reflexivity.
Defined.

Lemma add_success_witness :
  out_trace (addCurrentComponent icon_doc 1
               (mkSpecification "icon.png" "icon.png" false) started)
  = [Render icon_component; Emit Active 7].
Proof.
  assert (Hadd : addComponent (mkSimpleCM 1 []) icon_doc 1
                   (mkSpecification "icon.png" "icon.png" false)
                 = (mkSimpleCM 2 [(1%Z, icon_component)], Added 1))
    by (vm_compute; reflexivity).
  assert (Hok : table_ok ∅ (rm_jobs started)).
  { intros c j Hj. rewrite lookup_empty in Hj. discriminate. }
  destruct (add_success icon_doc 1 (mkSpecification "icon.png" "icon.png" false)
              started (mkSimpleCM 1 []) (mkSimpleCM 2 [(1%Z, icon_component)]) ∅ 1
              eq_refl eq_refl Hok Hadd) as (_ & Htrace & _).
  rewrite Htrace. reflexivity.
Defined.

(** ** Handling a change from an initialised instance *)

(** Calls that are not the report of the errors, under no invariant. *)
Ltac unreported_tac :=
  repeat first
    [ safe_step
    | solve [auto]
    | solve [exact Logic.I]
    | solve [unfold unreported; discriminate] ].

Section Handling.

Context {CM : Type} `{!ComponentManagerOps CM}.

Implicit Types (s : AssetManager CM) (t : gmap Z nat).

Lemma bind_lift {A B} (a : A) (k : A -> M CM B) s : bind (lift (Done a)) k s = k a s.
Proof. unfold bind, lift. apply prepend_nil. Qed.

Lemma completes_forEach_in {A} (I : AssetManager CM -> Prop) (Q : Event -> Prop)
    (l : list A) (f : A -> M CM unit) :
  (forall x, In x l -> completes I (f x)) -> (forall x, safe I Q (f x)) ->
  completes I (forEach l f).
Proof.
  intros Hf Hs. induction l as [|x l IH]; simpl; [apply completes_ret|].
  apply (completes_bind _ Q); [apply Hf; now left | apply Hs | intros _].
  apply IH. intros y Hy. apply Hf. now right.
Qed.

(** Ending normally and keeping the invariant, at one state. *)
Lemma completes_at {A} (I : AssetManager CM -> Prop) (Q : Event -> Prop)
    (m : M CM A) s :
  completes I m -> safe I Q m -> I s ->
  (exists a, out_res (m s) = Done a) /\ I (out_state (m s)).
Proof. intros Hc Hs H0. split; [now apply Hc | now apply Hs]. Qed.

(** *** The instance stays initialised *)

Lemma initialised_requestRender (doc : Document) (c : Component) :
  safe (initialised (CM:=CM)) anything (_requestRender doc c).
Proof.
  intros s [[t Ht] Hcm]. rewrite (requestRender_run doc c s t Ht).
  split; [|apply Forall_anything]. split; [eexists; reflexivity | exact Hcm].
Qed.

Lemma initialised_handleChange (fuel : nat) (doc : Document) (change : Change) :
  safe (initialised (CM:=CM)) anything (_handleChange fuel doc change).
Proof.
  pose proof initialised_requestRender as Hreq.
  pose proof (initialised_cancel (CM:=CM)) as Hcancel.
  assert (Hany : forall e, anything e) by (intros; exact Logic.I).
  assert (Hcm : forall s (c : CM), initialised s ->
                  initialised (set_componentManager (Some c) s))
    by (intros s c [Ht _]; split; [exact Ht | eexists; reflexivity]).
  assert (Htab : forall s t, initialised s ->
                   initialised (set_renderPromises (Some t) s))
    by (intros s t [_ Hc]; split; [eexists; reflexivity | exact Hc]).
  assert (Hbase : forall s p, initialised s -> initialised (set_basePath p s))
    by (intros s p H; exact H).
  assert (Hjobs : forall s j, initialised s -> initialised (set_jobs j s))
    by (intros s j H; exact H).
  unfold _handleChange, handleLayers, _reset, _init, _cleanup, updateLayer,
    removedLayers, removeLayerComponents, addCurrentComponent,
    _cleanupDerivedComponents, _hasPendingRender, promise_pending,
    findSpecifications, specificationsStep, collectValid, collectStep,
    fm_updateBasePath, rm_cancelAll.
  safe_tac.
Qed.


Ltac initialised_tac :=
  let Hreq := fresh in let Hcancel := fresh in let Hany := fresh in
  let Hcm := fresh in let Htab := fresh in let Hbase := fresh in
  let Hjobs := fresh in
  pose proof initialised_requestRender as Hreq;
  pose proof (initialised_cancel (CM:=CM)) as Hcancel;
  assert (Hany : forall e, anything e) by (intros; exact Logic.I);
  assert (Hcm : forall s (c : CM), initialised s ->
                  initialised (set_componentManager (Some c) s))
    by (intros ? ? [? _]; split; [assumption | eexists; reflexivity]);
  assert (Htab : forall s t, initialised s ->
                   initialised (set_renderPromises (Some t) s))
    by (intros ? ? [_ ?]; split; [eexists; reflexivity | assumption]);
  assert (Hbase : forall s p, initialised s -> initialised (set_basePath p s))
    by (intros ? ? ?; assumption);
  assert (Hjobs : forall s j, initialised s -> initialised (set_jobs j s))
    by (intros ? ? ?; assumption);
  unfold handleLayers, _reset, _init, _cleanup, updateLayer,
    removedLayers, removeLayerComponents, addCurrentComponent,
    _cleanupDerivedComponents, _hasPendingRender, promise_pending,
    findSpecifications, specificationsStep, collectValid, collectStep,
    fm_updateBasePath, rm_cancelAll;
  safe_tac.

(** *** The passes end normally *)

Lemma completes_removeLayerComponents (layerId : Z) :
  completes (initialised (CM:=CM)) (removeLayerComponents layerId).
Proof.
  intros s [[t Ht] [cm Hcm]]. exists tt. unfold removeLayerComponents.
  rewrite (bind_the_componentManager _ _ cm) by exact Hcm.
  destruct (remove_loop t (getComponentsByLayer cm layerId) s cm Hcm Ht)
    as (jobs & tr & Hrun & _).
  now rewrite Hrun.
Qed.

Lemma completes_updateLayer (doc : Document) (deps : JSObj.t nat)
    (specs : JSObj.t (list Specification)) (layerId : Z) :
  JSObj.get layerId deps <> None ->
  JSObj.get layerId specs <> None ->
  completes (initialised (CM:=CM)) (updateLayer doc deps specs layerId).
Proof.
  intros Hd Hs. unfold updateLayer.
  destruct (JSObj.get layerId deps) as [layer|]; [|congruence].
  destruct (JSObj.get layerId specs) as [currentComponents|]; [|congruence].
  intros s Hinit. cbn [deref]. rewrite !bind_ret. exists tt.
  destruct (completes_removeLayerComponents layerId s Hinit) as [[] Hdone].
  rewrite (bind_done _ _ _ tt Hdone), prepend_res.
  apply forEach_addCurrentComponent_done.
Qed.

Lemma completes_init (doc : Document) s : out_res (_init doc s) = Done tt.
Proof. destruct (init_run doc) as (ids & cm' & diag & _ & _ & Hrun). now rewrite Hrun. Qed.

(** *** The shape of the trace *)

Lemma unreported_cleanup (doc : Document) s :
  Forall unreported (out_trace (_cleanup doc s)).
Proof.
  cut (safe (fun _ : AssetManager CM => True) unreported (_cleanup doc));
    [intros H; apply (H s Logic.I)|].
  unfold _cleanup, _cleanupDerivedComponents, _hasPendingRender, promise_pending,
    rm_cancel.
  unreported_tac.
Qed.

Lemma reset_run (doc : Document) s :
  initialised s ->
  exists pre post,
    out_res (_reset doc s) = Done tt /\
    out_trace (_reset doc s) = pre ++ ReportErrors :: post /\
    Forall unreported pre /\ Forall render_call post.
Proof.
  intros Hinit. unfold _reset.
  destruct (completes_cleanup doc s Hinit) as [[] Hdone].
  rewrite (bind_done _ _ _ tt Hdone), prepend_res, prepend_trace.
  destruct (init_run doc) as (ids & cm' & diag & Hdiag & _ & Hrun). rewrite Hrun.
  exists (out_trace (_cleanup doc s)
          ++ [UpdateBasePath (doc_id doc); RemoveAllErrors; CancelAll (doc_id doc)]
          ++ diag),
         (render_trace doc ∅ (initComponents cm' ids)).
  split; [reflexivity|]. split; [now rewrite <- !app_assoc|].
  split; [|apply render_trace_calls].
  apply Forall_app. split; [apply unreported_cleanup|].
  apply Forall_app. split; [repeat constructor; discriminate|].
  eapply List.Forall_impl; [|exact Hdiag]. intros e He ->. exact He.
Qed.

Lemma incremental_run (doc : Document) (layers : JSObj.t LayerChange)
    (deps : JSObj.t nat) (specs : JSObj.t (list Specification)) s :
  initialised s ->
  (forall k, JSObj.get k specs <> None -> JSObj.get k deps <> None) ->
  exists pre,
    out_res
      ((let* removed := removedLayers layers (JSObj.keys layers) specs in
        forEach (fst removed) (fun layerId =>
          removeLayerComponents layerId ;; call (RemoveErrors layerId)) ;;
        forEach (JSObj.keys (snd removed)) (updateLayer doc deps (snd removed)) ;;
        call ReportErrors) s) = Done tt /\
    out_trace
      ((let* removed := removedLayers layers (JSObj.keys layers) specs in
        forEach (fst removed) (fun layerId =>
          removeLayerComponents layerId ;; call (RemoveErrors layerId)) ;;
        forEach (JSObj.keys (snd removed)) (updateLayer doc deps (snd removed)) ;;
        call ReportErrors) s) = pre ++ [ReportErrors] /\
    Forall unreported pre.
Proof.
  intros Hinit Hkeys.
  destruct (removedLayers_run layers specs s) as (specs' & Hrun & Hget).
  rewrite (bind_done _ _ _ (List.filter (is_removed layers) (JSObj.keys layers), specs'))
    by now rewrite Hrun.
  rewrite Hrun. cbn [fst snd out_trace out_state]. rewrite prepend_nil.
  set (removed := List.filter (is_removed layers) (JSObj.keys layers)).
  set (passes := forEach removed (fun layerId =>
                   removeLayerComponents layerId ;; call (RemoveErrors layerId)) ;;
                 forEach (JSObj.keys specs') (updateLayer doc deps specs')).
  assert (Hc : completes (initialised (CM:=CM)) passes).
  { unfold passes. apply (completes_bind _ anything).
    - apply (completes_forEach _ anything); intros layerId.
      + apply (completes_bind _ anything);
          [apply completes_removeLayerComponents | initialised_tac
          | intros _; apply completes_call].
      + initialised_tac.
    - initialised_tac.
    - intros _. apply (completes_forEach_in _ anything); [|intros; initialised_tac].
      intros k Hk. apply JSObjFacts.in_keys in Hk.
      apply completes_updateLayer; auto. }
  assert (Hq : safe (fun _ : AssetManager CM => True) unreported passes).
  { unfold passes, updateLayer, removeLayerComponents, addCurrentComponent,
      _requestRender, rm_render, _cleanupDerivedComponents, _hasPendingRender,
      promise_pending, rm_cancel.
    unreported_tac. }
  destruct (Hc s Hinit) as [[] Hdone].
  exists (out_trace (passes s)).
  match goal with |- out_res (?m s) = _ /\ _ =>
    replace (m s) with (bind passes (fun _ => call ReportErrors) s)
      by (unfold passes; now rewrite bind_assoc)
  end.
  rewrite (bind_done _ _ _ tt Hdone), prepend_res, prepend_trace.
  split; [reflexivity|]. split; [reflexivity|]. apply Hq. exact Logic.I.
Qed.


Lemma handleLayers_run (fuel : nat) (doc : Document) (layers : JSObj.t LayerChange)
    (deps : JSObj.t nat) s :
  initialised s ->
  dependentLayersOf fuel doc layers = Done deps ->
  exists pre post,
    out_res (handleLayers fuel doc layers s) = Done tt /\
    out_trace (handleLayers fuel doc layers s) = pre ++ ReportErrors :: post /\
    Forall unreported pre /\ Forall render_call post.
Proof.
  intros Hinit Hdeps. destruct Hinit as [Ht [cm Hcm]].
  assert (Hinit : initialised s) by (split; [exact Ht | eauto]).
  unfold handleLayers. rewrite Hdeps, bind_lift.
  destruct (findSpecifications_run doc deps s cm Hcm) as (tr & Hrun & Htr).
  rewrite (bind_done _ _ _ (specificationsOf cm doc deps)) by now rewrite Hrun.
  rewrite Hrun. cbn [out_trace out_state].
  assert (Hq : Forall unreported tr).
  { eapply List.Forall_impl; [|exact Htr]. intros e He ->. exact He. }
  destruct (resetRequired doc deps (specificationsOf cm doc deps)).
  - destruct (reset_run doc s Hinit) as (pre & post & Hres & Htrace & Hpre & Hpost).
    exists (tr ++ pre), post. rewrite prepend_res, prepend_trace, Htrace.
    split; [exact Hres|]. split; [now rewrite app_assoc|].
    split; [apply Forall_app; auto | exact Hpost].
  - assert (Hkeys : forall k, JSObj.get k (specificationsOf cm doc deps) <> None ->
                               JSObj.get k deps <> None).
    { intros k Hk. destruct (JSObj.get k (specificationsOf cm doc deps)) as [v|] eqn:Hv;
        [|congruence].
      apply (specificationsOf_get cm doc deps
               (dependentLayersOf_keyed fuel doc layers deps Hdeps)) in Hv.
      destruct Hv as (l & Hl & _). congruence. }
    destruct (incremental_run doc layers deps (specificationsOf cm doc deps) s Hinit
                Hkeys) as (pre & Hres & Htrace & Hpre).
    exists (tr ++ pre), []. rewrite prepend_res, prepend_trace.
    split; [exact Hres|]. split; [|split; [apply Forall_app; auto | constructor]].
    cbv zeta. rewrite Htrace. now rewrite app_assoc.
Qed.

(** A walk that overflows the call stack ends the handling at once. *)
Lemma handleLayers_overflow (fuel : nat) (doc : Document)
    (layers : JSObj.t LayerChange) (e : string) s :
  dependentLayersOf fuel doc layers = Throw e ->
  handleLayers fuel doc layers s = mkOut (Throw e) s [].
Proof. intros H. unfold handleLayers. now rewrite H. Qed.

(** A notification that the check of the file lets through. *)
Lemma handleChange_open (fuel : nat) (doc : Document) (change : Change) s :
  passes_file_check doc change ->
  _handleChange fuel doc change s
  = prepend (file_check_calls doc change)
      ((when (truthy_number (change_resolution change)) (_reset doc) ;;
        match change_layers change with
        | Some layers => handleLayers fuel doc layers
        | None => ret tt
        end) (after_file_check doc change s)).
Proof.
  intros Hgate. unfold _handleChange, file_check_calls, after_file_check.
  unfold passes_file_check in Hgate.
  rewrite bind_call. destruct (change_file change) as [file|].
  - rewrite (Hgate file eq_refl). unfold fm_updateBasePath.
    rewrite !bind_assoc, bind_modify, bind_call, bind_ret.
    match goal with |- prepend _ (prepend _ ?o) = _ => now destruct o end.
  - now rewrite bind_ret.
Qed.

Lemma initialised_after_file_check (doc : Document) (change : Change) s :
  initialised s -> initialised (after_file_check doc change s).
Proof. unfold after_file_check. now destruct (change_file change). Qed.

Lemma file_check_calls_unreported (doc : Document) (change : Change) :
  Forall unreported (file_check_calls doc change).
Proof.
  unfold file_check_calls. destruct (change_file change);
    repeat constructor; discriminate.
Qed.

(** A notification that the check stops. *)
Lemma handleChange_closed (fuel : nat) (doc : Document) (change : Change) s :
  ~ passes_file_check doc change ->
  _handleChange fuel doc change s = mkOut (Done tt) s [LogDebug].
Proof.
  intros Hgate. unfold _handleChange. rewrite bind_call.
  destruct (change_file change) as [file|] eqn:Hfile.
  - destruct (doc_saved doc && negb (file_previousSaved file)) eqn:Hcheck.
    + now rewrite bind_ret.
    + destruct Hgate. intros file' Hf. rewrite Hfile in Hf.
      injection Hf as <-. exact Hcheck.
  - destruct Hgate. intros file' Hf. rewrite Hfile in Hf. discriminate.
Qed.

Lemma completes_reset (doc : Document) : completes (initialised (CM:=CM)) (_reset doc).
Proof.
  intros s Hinit. exists tt.
  destruct (reset_run doc s Hinit) as (pre & post & Hres & _). exact Hres.
Qed.

Lemma initialised_reset (doc : Document) :
  safe (initialised (CM:=CM)) anything (_reset doc).
Proof. initialised_tac. Qed.

(** How the handling of a change ends. *)
Lemma handleChange_res (fuel : nat) (doc : Document) (change : Change) s :
  initialised s ->
  out_res (_handleChange fuel doc change s) = Done tt \/
  exists layers, change_layers change = Some layers /\
    passes_file_check doc change /\
    ~ walkable fuel doc layers /\
    out_res (_handleChange fuel doc change s) = Throw "RangeError".
Proof.
  intros Hinit.
  destruct (change_file change) as [file|] eqn:Hfile.
  2: assert (Hgate : passes_file_check doc change)
       by (intros file' Hf; rewrite Hfile in Hf; discriminate).
  1: destruct (doc_saved doc && negb (file_previousSaved file)) eqn:Hcheck;
     [left; unfold _handleChange;
      now rewrite bind_call, Hfile, Hcheck, bind_ret|].
  1: assert (Hgate : passes_file_check doc change)
       by (intros file' Hf; rewrite Hfile in Hf; now injection Hf as <-).
  all: rewrite (handleChange_open fuel doc change s Hgate), prepend_res;
    pose proof (initialised_after_file_check doc change s Hinit) as H0;
    destruct (completes_at (initialised (CM:=CM)) anything
                (when (truthy_number (change_resolution change)) (_reset doc))
                (after_file_check doc change s))
      as [[[] Hdone] H1];
      [apply completes_when, completes_reset
      |apply safe_when, initialised_reset
      |exact H0|];
    rewrite (bind_done _ _ _ tt Hdone), prepend_res;
    (destruct (change_layers change) as [layers|]; [|now left]);
    destruct (dependentLayersOf fuel doc layers) as [deps|e] eqn:Hdeps;
    [ left;
      destruct (handleLayers_run fuel doc layers deps _ H1 Hdeps)
        as (pre & post & Hres & _); exact Hres
    | right; exists layers;
      destruct (dependentLayersOf_throw doc fuel layers e Hdeps) as [-> Hw];
      rewrite (handleLayers_overflow fuel doc layers _ _ Hdeps); auto ].
Qed.

(** X9.  Handling a change leaves an initialised instance initialised.  It
    ends normally when every changed layer has a chain of [group]
    references that the call stack has room for.  It throws nothing but
    the [RangeError] of the walk over these references, and throws it when
    the change passes the check of the file and some changed layer has no
    such chain, as on a cycle.  A change that the check of the file stops
    is logged and nothing else. *)
Theorem handle_change_outcome (fuel : nat) (doc : Document) (change : Change) s :
  initialised s ->
  initialised (out_state (_handleChange fuel doc change s)) /\
  ((forall layers, change_layers change = Some layers -> walkable fuel doc layers) ->
   out_res (_handleChange fuel doc change s) = Done tt) /\
  (forall e, out_res (_handleChange fuel doc change s) = Throw e ->
     e = "RangeError"%string /\
     exists layers, change_layers change = Some layers /\
                    ~ walkable fuel doc layers) /\
  (forall layers,
     passes_file_check doc change ->
     change_layers change = Some layers ->
     ~ walkable fuel doc layers ->
     out_res (_handleChange fuel doc change s) = Throw "RangeError") /\
  (~ passes_file_check doc change ->
   _handleChange fuel doc change s = mkOut (Done tt) s [LogDebug]).
Proof.
  intros Hinit.
  pose proof (handleChange_res fuel doc change s Hinit) as Hres.
  split; [apply (initialised_handleChange fuel doc change s Hinit)|].
  split; [|split; [|split; [|apply handleChange_closed]]].
  - intros Hwalk. destruct Hres as [H | (layers & Hl & _ & Hw & _)]; [exact H|].
    now destruct (Hw (Hwalk layers Hl)).
  - intros e He. destruct Hres as [H | (layers & Hl & _ & Hw & H)];
      rewrite H in He; [discriminate|].
    injection He as <-. eauto.
  - intros layers Hgate Hl Hw.
    rewrite (handleChange_open fuel doc change s Hgate), prepend_res.
    destruct (completes_at (initialised (CM:=CM)) anything
                (when (truthy_number (change_resolution change)) (_reset doc))
                (after_file_check doc change s))
      as [[[] Hdone] H1];
      [apply completes_when, completes_reset
      |apply safe_when, initialised_reset
      |now apply initialised_after_file_check|].
    rewrite (bind_done _ _ _ tt Hdone), prepend_res, Hl.
    now rewrite (handleLayers_overflow fuel doc layers "RangeError" _
                   (dependentLayersOf_overflow doc fuel layers Hw)).
Qed.

(** X10.  A notification of changed layers that passes the check of the
    file and carries no change of resolution, handled by an initialised
    instance: when every changed layer has a chain of [group] references
    that the call stack has room for, the errors are reported exactly once,
    every error is recorded before the report, and after it nothing is
    called but the renders a reset requests; otherwise the handling ends
    with the [RangeError] of the walk before anything is done for a layer,
    and the errors are not reported. *)
Theorem report_once (fuel : nat) (doc : Document) (change : Change)
    (layers : JSObj.t LayerChange) s :
  initialised s ->
  passes_file_check doc change ->
  truthy_number (change_resolution change) = false ->
  change_layers change = Some layers ->
  (walkable fuel doc layers ->
   exists pre post,
     out_res (_handleChange fuel doc change s) = Done tt /\
     out_trace (_handleChange fuel doc change s) = pre ++ ReportErrors :: post /\
     Forall unreported pre /\ Forall render_call post) /\
  (~ walkable fuel doc layers ->
   _handleChange fuel doc change s
   = mkOut (Throw "RangeError") (after_file_check doc change s)
       (file_check_calls doc change)).
Proof.
  intros Hinit Hgate Hres Hlayers.
  rewrite (handleChange_open fuel doc change s Hgate).
  rewrite Hres, Hlayers. cbn [when]. rewrite bind_ret. split.
  - intros Hw. destruct (dependentLayersOf_total doc fuel layers Hw) as [deps Hdeps].
    destruct (handleLayers_run fuel doc layers deps _
                (initialised_after_file_check doc change s Hinit) Hdeps)
      as (pre & post & Hdone & Htrace & Hpre & Hpost).
    exists (file_check_calls doc change ++ pre), post.
    rewrite prepend_res, prepend_trace, Htrace.
    split; [exact Hdone|]. split; [now rewrite app_assoc|].
    split; [|exact Hpost]. apply Forall_app.
    split; [apply file_check_calls_unreported | exact Hpre].
  - intros Hw.
    rewrite (handleLayers_overflow fuel doc layers "RangeError" _
               (dependentLayersOf_overflow doc fuel layers Hw)).
    cbn [prepend]. now rewrite app_nil_r.
Qed.

End Handling.

(** Layer 1 of the cyclic document has no chain. *)
Lemma cyclic_unchained : forall chain, ~ group_chain cyclic_doc 1 chain.
Proof.
  intros chain H. remember 1 as layer eqn:Hl.
  induction H as [l Hg | l g anc Hg _ IH]; subst l.
  - discriminate.
  - apply IH. simpl in Hg. congruence.
Qed.

Lemma cyclic_unwalkable (fuel : nat) :
  ~ walkable fuel cyclic_doc [(1%Z, mkLayerChange "modified" 1)].
Proof.
  intros Hw. destruct (Hw 1%Z (mkLayerChange "modified" 1) eq_refl) as (chain & Hc & _).
  exact (cyclic_unchained chain Hc).
Qed.

Lemma icon_walkable : walkable 2 icon_doc [(1%Z, mkLayerChange "modified" 1)].
Proof.
  intros k lc Hk. simpl in Hk. destruct (k =? 1)%Z; [|discriminate].
  injection Hk as <-. exists [1; 0]. split; [|simpl; lia].
  apply chain_group with 0; [reflexivity|]. apply chain_top. reflexivity.
Qed.

Lemma handle_change_outcome_witness :
  let change := mkChange None None (Some [(1%Z, mkLayerChange "modified" 1)]) in
  out_res (_handleChange 2 icon_doc change
             (out_state (start (CM:=SimpleCM) icon_doc created))) = Done tt /\
  out_res (_handleChange 2 cyclic_doc change
             (out_state (start (CM:=SimpleCM) cyclic_doc created)))
  = Throw "RangeError".
Proof.
  intros change. split.
  - assert (Hinit : initialised (out_state (start (CM:=SimpleCM) icon_doc created)))
      by (split; eexists; vm_compute; reflexivity).
    destruct (handle_change_outcome 2 icon_doc change _ Hinit) as (_ & Hres & _).
    apply Hres. intros layers [= <-]. exact icon_walkable.
  - assert (Hinit : initialised (out_state (start (CM:=SimpleCM) cyclic_doc created)))
      by (split; eexists; vm_compute; reflexivity).
    destruct (handle_change_outcome 2 cyclic_doc change _ Hinit)
      as (_ & _ & _ & Hres & _).
    apply (Hres [(1%Z, mkLayerChange "modified" 1)]);
      [intros file; discriminate | reflexivity | apply cyclic_unwalkable].
Defined.

Lemma report_once_witness :
  let change := mkChange None None (Some [(1%Z, mkLayerChange "modified" 1)]) in
  In ReportErrors
     (out_trace (_handleChange 2 icon_doc change
                   (out_state (start (CM:=SimpleCM) icon_doc created)))) /\
  out_trace (_handleChange 2 cyclic_doc change
               (out_state (start (CM:=SimpleCM) cyclic_doc created)))
  = [LogDebug].
Proof.
  intros change. split.
  - assert (Hinit : initialised (out_state (start (CM:=SimpleCM) icon_doc created)))
      by (split; eexists; vm_compute; reflexivity).
    destruct (report_once 2 icon_doc change [(1%Z, mkLayerChange "modified" 1)]
                _ Hinit) as [Hone _];
      [intros file; discriminate | reflexivity | reflexivity |].
    destruct (Hone icon_walkable) as (pre & post & _ & Htrace & _).
    rewrite Htrace. apply in_or_app. right. left. reflexivity.
  - assert (Hinit : initialised (out_state (start (CM:=SimpleCM) cyclic_doc created)))
      by (split; eexists; vm_compute; reflexivity).
    destruct (report_once 2 cyclic_doc change [(1%Z, mkLayerChange "modified" 1)]
                _ Hinit) as [_ Hnone];
      [intros file; discriminate | reflexivity | reflexivity |].
    rewrite (Hnone (cyclic_unwalkable 2)). reflexivity.
Defined.

(** ** Reset, and the subscription to changes *)

Section Lifecycle.

Context {CM : Type} `{!ComponentManagerOps CM}.

Implicit Types (s : AssetManager CM) (t : gmap Z nat).

Lemma cancel_job_idem (j : Job) : cancel_job (cancel_job j) = cancel_job j.
Proof. unfold cancel_job at 1. now rewrite cancel_job_settled. Qed.

Lemma only_cancelled_all_same (jobs jobs' : list Job) :
  only_cancelled jobs jobs' ->
  cancel_job <$> jobs' = cancel_job <$> jobs /\ length jobs' = length jobs.
Proof.
  induction 1 as [|j j' l l' Hj _ [IH1 IH2]]; [split; reflexivity|].
  cbn [fmap list_fmap length]. fold (cancel_job <$> l) (cancel_job <$> l').
  rewrite IH2. split; [|reflexivity]. f_equal; [|exact IH1].
  destruct Hj as [-> | [_ ->]]; [reflexivity | apply cancel_job_idem].
Qed.

Lemma cleanup_state (doc : Document) s :
  initialised s ->
  exists jobs,
    _cleanup doc s = mkOut (Done tt) (set_jobs jobs s) (out_trace (_cleanup doc s)) /\
    only_cancelled (rm_jobs s) jobs /\
    Forall asset_call (out_trace (_cleanup doc s)).
Proof.
  intros [[t Ht] [cm Hcm]].
  destruct (truthy_string (fm_basePath s)) eqn:Hb.
  - rewrite (cleanup_run doc s cm t Hcm Ht Hb). eexists. split; [reflexivity|].
    split; [apply only_cancelled_cleanup | apply cleanup_trace_calls].
  - exists (rm_jobs s).
    assert (Hskip : _cleanup doc s = mkOut (Done tt) s []).
    { unfold _cleanup. now rewrite !bind_gets, Hcm, Hb. }
    rewrite Hskip, set_jobs_id. split; [reflexivity|].
    split; [apply only_cancelled_refl | constructor].
Qed.

(** X11.  A reset of an initialised instance ends normally and leaves
    exactly the state an initialisation would leave; its calls are those of
    the cleanup, which only cancels renders and removes assets, followed by
    those of the initialisation. *)
Theorem reset_as_init (doc : Document) s :
  initialised s ->
  out_res (_reset doc s) = Done tt /\
  out_state (_reset doc s) = out_state (_init doc s) /\
  out_trace (_reset doc s) = out_trace (_cleanup doc s) ++ out_trace (_init doc s) /\
  Forall asset_call (out_trace (_cleanup doc s)).
Proof.
  intros Hinit. destruct (cleanup_state doc s Hinit) as (jobs & Hrun & Hjobs & Hcalls).
  destruct (only_cancelled_all_same _ _ Hjobs) as [Hsame Hlen].
  destruct (init_run doc) as (ids & cm' & diag & _ & _ & Hinit_run).
  unfold _reset. rewrite (bind_done _ _ _ tt) by now rewrite Hrun.
  rewrite prepend_res, prepend_state, prepend_trace.
  rewrite Hrun at 1 2 3. cbn [out_state out_trace].
  rewrite !Hinit_run. cbn [out_res out_state out_trace rm_jobs set_jobs listeners].
  rewrite Hsame, Hlen. auto.
Qed.

Lemma bind_unit (m : M CM unit) s : bind m (fun _ => ret tt) s = m s.
Proof.
  unfold bind, ret. destruct (m s) as [[[]|e] s' tr]; simpl; [|reflexivity].
  now rewrite app_nil_r.
Qed.

Lemma start_listeners (doc : Document) s :
  listeners (out_state (start doc s)) = S (listeners s).
Proof.
  unfold start. rewrite bind_modify, bind_call, prepend_state.
  destruct (init_run doc) as (ids & cm' & diag & _ & _ & Hrun). now rewrite Hrun.
Qed.

Lemma run_ignored (fuel : nat) (inputs : list (Document * Input)) s :
  listeners s = 0 ->
  Forall (fun di => exists change, snd di = Notify change) inputs ->
  run fuel inputs s = mkOut (Done tt) s [].
Proof.
  intros Hs Hin. induction Hin as [|[doc i] inputs [change Hi] _ IH]; [reflexivity|].
  simpl in Hi. subst i. cbn [run].
  assert (Hstep : uncaught (step fuel doc (Notify change)) s = mkOut (Done tt) s []).
  { unfold uncaught, try_catch. cbn [step]. now rewrite bind_gets, Hs. }
  unfold bind at 1. rewrite Hstep. now rewrite prepend_nil.
Qed.

(** X12.  An instance that is started once handles each change
    notification exactly once; after [stop], notifications are ignored:
    they change nothing and call nothing. *)
Theorem change_subscription (fuel : nat) (doc : Document) s :
  listeners s = 0 ->
  (forall doc' change,
     step fuel doc' (Notify change) (out_state (start doc s))
     = _handleChange fuel doc' change (out_state (start doc s))) /\
  (forall inputs,
     Forall (fun di => exists change, snd di = Notify change) inputs ->
     run fuel inputs (out_state (stop doc (out_state (start doc s))))
     = mkOut (Done tt) (out_state (stop doc (out_state (start doc s)))) []).
Proof.
  intros Hs. pose proof (start_listeners doc s) as Hl. rewrite Hs in Hl. split.
  - intros doc' change. cbn [step]. rewrite bind_gets, Hl. cbn [times].
    apply bind_unit.
  - intros inputs Hin. apply run_ignored; [|exact Hin].
    unfold stop, rm_cancelAll. rewrite bind_modify, bind_call, bind_assoc, bind_modify.
    rewrite !bind_call. cbn [call prepend out_state listeners set_listeners set_jobs].
    now rewrite Hl.
Qed.

End Lifecycle.

Lemma reset_as_init_witness :
  let s := out_state (start (CM:=SimpleCM) icon_doc created) in
  out_res (_reset icon_doc s) = Done tt /\
  out_state (_reset icon_doc s) = out_state (_init icon_doc s).
Proof.
  intros s.
  assert (Hinit : initialised s) by (split; eexists; vm_compute; reflexivity).
  destruct (reset_as_init icon_doc s Hinit) as (Hres & Hstate & _).
  split; [exact Hres | exact Hstate].
Defined.

Lemma change_subscription_witness :
  let s := out_state (stop icon_doc (out_state (start (CM:=SimpleCM) icon_doc created))) in
  let change := mkChange None None (Some [(1%Z, mkLayerChange "modified" 1)]) in
  run 2 [(icon_doc, Notify change)] s = mkOut (Done tt) s [].
Proof.
  intros s change.
  destruct (change_subscription (CM:=SimpleCM) 2 icon_doc created eq_refl) as [_ H].
  apply H. repeat constructor. exists change. reflexivity.
Defined.

(** ** The escalation to a full reset *)


Section EscalationCheck.

Context {CM : Type} `{!ComponentManagerOps CM}.

Implicit Types (s : AssetManager CM) (t : gmap Z nat).




End EscalationCheck.



(** ** The steps of a run *)

Section Unfailing.

Context {CM : Type} `{!ComponentManagerOps CM}.

Implicit Types (s : AssetManager CM) (t : gmap Z nat).

Lemma unfailing_start (doc : Document) : unfailing (sound (CM:=CM)) (start doc).
Proof.
  intros s _. unfold start. rewrite bind_modify, bind_call, prepend_res, prepend_state.
  destruct (init_run doc) as (ids & cm' & diag & _ & _ & Hrun). rewrite Hrun.
  split; [now exists tt|]. left. split; eexists; reflexivity.
Qed.

Lemma unfailing_stop (doc : Document) : unfailing (sound (CM:=CM)) (stop doc).
Proof.
  intros s Hs. unfold stop, rm_cancelAll.
  rewrite bind_modify, bind_call, bind_assoc, bind_modify, !bind_call.
  cbn [call prepend out_res out_state]. split; [now exists tt|].
  destruct Hs as [Hs | [Hl Hj]]; [left; exact Hs|].
  right. cbn [listeners rm_jobs set_jobs set_listeners]. rewrite Hj, Hl.
  split; reflexivity.
Qed.

Lemma unfailing_settle (j : nat) (p : PromiseState) :
  unfailing (sound (CM:=CM)) (settle j p).
Proof.
  intros s Hs. destruct (settle_run j p s) as (jobs & -> & Hkey).
  split; [now exists tt|]. destruct Hs as [Hs | [Hl Hj]]; [left; exact Hs|].
  right. split; [exact Hl|]. rewrite Hj in Hkey. cbn [out_state rm_jobs set_jobs].
  now apply fmap_nil_inv in Hkey.
Qed.

Lemma unfailing_deliver (doc : Document) (j : nat) :
  unfailing (sound (CM:=CM)) (deliver doc j).
Proof.
  intros s Hs.
  destruct (rm_jobs s !! j) as [job|] eqn:Hj;
    [|rewrite deliver_skip by (now rewrite Hj); split; [now exists tt | exact Hs]].
  destruct (is_pending (job_state job)) eqn:Hp;
    [rewrite deliver_skip by (rewrite Hj; auto); split; [now exists tt | exact Hs]|].
  destruct (job_delivered job) eqn:Hd;
    [rewrite deliver_skip by (rewrite Hj; auto); split; [now exists tt | exact Hs]|].
  destruct Hs as [[[t Ht] Hcm] | [_ Hnil]].
  - rewrite (deliver_run doc j job s t Hj Hp Hd Ht).
    split; [now exists tt|]. left. split; [eexists; reflexivity | exact Hcm].
  - rewrite Hnil in Hj. discriminate.
Qed.

(** The listeners of a notification run in turn; the first one that throws
    ends the notification. *)
Lemma notify_outcome (fuel : nat) (doc : Document) (change : Change) (n : nat) :
  forall s, initialised s ->
  initialised (out_state (times n (_handleChange fuel doc change) s)) /\
  (out_res (times n (_handleChange fuel doc change) s) = Done tt \/
   out_res (times n (_handleChange fuel doc change) s) = Throw "RangeError" /\
   exists layers, change_layers change = Some layers /\
                  ~ walkable fuel doc layers).
Proof.
  induction n as [|n IH]; intros s Hs; cbn [times]; [split; [exact Hs | now left]|].
  pose proof (proj1 (initialised_handleChange fuel doc change s Hs)) as H1.
  destruct (handleChange_res fuel doc change s Hs)
    as [Hdone | (layers & Hl & _ & Hw & Hthrow)].
  - rewrite (bind_done _ _ _ tt Hdone), prepend_res, prepend_state. now apply IH.
  - rewrite (bind_throw _ _ _ _ Hthrow). cbn [out_res out_state].
    split; [exact H1|]. right. split; [reflexivity | eauto].
Qed.

(** A step from a state an instance reaches. *)
Lemma step_outcome (fuel : nat) (doc : Document) (i : Input) s :
  sound s ->
  sound (out_state (step fuel doc i s)) /\
  (out_res (step fuel doc i s) = Done tt \/
   out_res (step fuel doc i s) = Throw "RangeError" /\
   exists change layers,
     i = Notify change /\ change_layers change = Some layers /\
     ~ walkable fuel doc layers).
Proof.
  intros Hs.
  assert (Hun : forall m : M CM unit, unfailing (sound (CM:=CM)) m ->
            sound (out_state (m s)) /\ out_res (m s) = Done tt).
  { intros m Hm. destruct (Hm s Hs) as [[[] Hres] Hstate]. auto. }
  destruct i as [| |change|j p|j]; cbn [step].
  - destruct (Hun _ (unfailing_start doc)). auto.
  - destruct (Hun _ (unfailing_stop doc)). auto.
  - rewrite bind_gets. destruct Hs as [Hs | [Hl Hj]].
    + destruct (notify_outcome fuel doc change (listeners s) s Hs)
        as [Hstate [Hdone | (Hthrow & layers & Hl & Hw)]].
      * split; [now left | now left].
      * split; [now left|]. right. split; [exact Hthrow|]. eauto.
    + rewrite Hl. split; [right; auto | now left].
  - destruct (Hun _ (unfailing_settle j p)). auto.
  - destruct (Hun _ (unfailing_deliver doc j)). auto.
Qed.

Lemma uncaught_state (m : M CM unit) s :
  out_res (uncaught m s) = Done tt /\ out_state (uncaught m s) = out_state (m s).
Proof.
  unfold uncaught, try_catch. destruct (m s) as [[[]|e] s' tr]; split; reflexivity.
Qed.

Lemma sound_run (fuel : nat) (inputs : list (Document * Input)) : forall s,
  sound s -> sound (out_state (run fuel inputs s)).
Proof.
  induction inputs as [|[doc i] inputs IH]; intros s Hs; cbn [run]; [exact Hs|].
  destruct (uncaught_state (step fuel doc i) s) as [Hres Hstate].
  rewrite (bind_done _ _ _ tt Hres), prepend_state, Hstate.
  apply IH. now apply step_outcome.
Qed.

(** X13.  Whatever the owner, the document and the render manager have
    done to a new instance, in whatever order and whether or not a step
    threw, [_init] has run or the instance has no listener and no job; and
    the next step ends normally, unless it is a change notification with a
    changed layer that has no chain of [group] references the call stack
    has room for: this one may end with the [RangeError] of the walk, and
    with nothing else. *)
Theorem run_steps (fuel : nat) (inputs : list (Document * Input))
    (doc : Document) (i : Input) :
  sound (out_state (run (CM:=CM) fuel inputs created)) /\
  sound (out_state (step fuel doc i (out_state (run (CM:=CM) fuel inputs created)))) /\
  (out_res (step fuel doc i (out_state (run (CM:=CM) fuel inputs created))) = Done tt \/
   out_res (step fuel doc i (out_state (run (CM:=CM) fuel inputs created)))
   = Throw "RangeError" /\
   exists change layers,
     i = Notify change /\ change_layers change = Some layers /\
     ~ walkable fuel doc layers).
Proof.
  assert (Hs : sound (out_state (run (CM:=CM) fuel inputs created)))
    by (apply sound_run; right; split; reflexivity).
  split; [exact Hs|]. now apply step_outcome.
Qed.

End Unfailing.

(** ** The update of one layer *)

Section LayerUpdate.

Context {CM : Type} `{!ComponentManagerOps CM}.

Implicit Types (s : AssetManager CM) (t : gmap Z nat).

(** The loop that cleans up and removes the components of a layer. *)
Lemma removal_run t (ids : list Z) : forall s (cm : CM),
  _componentManager s = Some cm ->
  _renderPromises s = Some t ->
  forEach ids (fun componentId =>
    _cleanupDerivedComponents componentId ;;
    let* cm := the_componentManager in
    modify (set_componentManager (Some (removeComponent cm componentId)))) s
  = mkOut (Done tt)
      (set_componentManager (Some (fold_left removeComponent ids cm))
         (set_jobs (removal_jobs t ids cm (rm_jobs s)) s))
      (removal_trace t ids cm (rm_jobs s)).
Proof.
  induction ids as [|id ids IH]; intros s cm Hcm Ht.
  - simpl. now rewrite (set_fields_id s cm Hcm).
  - cbn [forEach fold_left removal_jobs removal_trace].
    rewrite bind_assoc. unfold bind at 1.
    rewrite (cleanupDerived_run id s cm t Hcm Ht).
    cbn [prepend]. rewrite bind_assoc.
    rewrite (bind_the_componentManager _ _ cm) by exact Hcm. rewrite bind_modify.
    match goal with |- context [forEach ids ?f ?s1] =>
      rewrite (IH s1 (removeComponent cm id) eq_refl Ht)
    end.
    reflexivity.
Qed.

Lemma removal_jobs_cancelled t (ids : list Z) : forall (cm : CM) (jobs : list Job),
  only_cancelled jobs (removal_jobs t ids cm jobs).
Proof.
  induction ids as [|id ids IH]; intros cm jobs; simpl; [apply only_cancelled_refl|].
  eapply only_cancelled_trans; [apply only_cancelled_cleanup | apply IH].
Qed.

Lemma removal_trace_calls t (ids : list Z) : forall (cm : CM) (jobs : list Job),
  Forall asset_call (removal_trace t ids cm jobs).
Proof.
  induction ids as [|id ids IH]; intros cm jobs; simpl; [constructor|].
  apply Forall_app. split; [apply cleanup_trace_calls | apply IH].
Qed.

Lemma render_table_app (cs1 cs2 : list Component) : forall t (n : nat),
  render_table t n (cs1 ++ cs2)
  = render_table (render_table t n cs1) (n + length cs1) cs2.
Proof.
  induction cs1 as [|c cs1 IH]; intros t n; simpl.
  - now rewrite Nat.add_0_r.
  - rewrite IH. f_equal. lia.
Qed.

(** The loop that adds the specifications of a layer. *)
Lemma addition_run (doc : Document) (layer : nat) (specs : list Specification) :
  forall s (cm : CM) t,
  _componentManager s = Some cm ->
  _renderPromises s = Some t ->
  forEach specs (addCurrentComponent doc layer) s
  = mkOut (Done tt)
      (mkAssetManager
         (Some (render_table t (length (rm_jobs s))
                  (added_components doc layer specs cm)))
         (Some (added_manager doc layer specs cm)) (fm_basePath s)
         (rm_jobs s ++ map new_job (added_components doc layer specs cm))
         (listeners s))
      (added_trace doc layer specs cm t (length (rm_jobs s))).
Proof.
  induction specs as [|sp specs IH]; intros s cm t Hcm Ht.
  - simpl. rewrite app_nil_r. unfold ret. f_equal.
    destruct s; simpl in *. now subst.
  - cbn [forEach added_components added_trace]. unfold added_manager.
    cbn [fold_left]. fold (added_manager doc layer specs).
    destruct (addComponent cm doc layer sp) as [cm' [componentId|message]] eqn:Hadd.
    + pose proof (addCurrentComponent_added doc layer sp s cm cm' t componentId
                    Hcm Ht Hadd) as Hrun.
      rewrite (bind_done _ _ _ tt) by now rewrite Hrun.
      rewrite Hrun. cbn [out_state out_trace].
      erewrite IH by reflexivity.
      cbn [prepend rm_jobs fm_basePath listeners fst].
      rewrite render_table_app, length_app, length_map, map_app, <- app_assoc.
      reflexivity.
    + pose proof (addCurrentComponent_failed doc layer sp s cm cm' message Hcm Hadd)
        as Hrun.
      rewrite (bind_done _ _ _ tt) by now rewrite Hrun.
      rewrite Hrun. cbn [out_state out_trace].
      erewrite IH by (try reflexivity; exact Ht).
      cbn [prepend rm_jobs fm_basePath listeners fst set_componentManager app].
      reflexivity.
Qed.

Lemma added_trace_calls (doc : Document) (layer : nat) (specs : list Specification) :
  forall (cm : CM) t (n : nat),
  Forall (update_call layer) (added_trace doc layer specs cm t n).
Proof.
  induction specs as [|sp specs IH]; intros cm t n; simpl; [constructor|].
  destruct (addComponent cm doc layer sp) as [cm' [componentId|message]].
  - apply Forall_app. split; [|apply IH].
    eapply List.Forall_impl; [|apply render_trace_calls].
    intros e He. now destruct e as [[] ?| | | | | | | | | | | | | | | |].
  - constructor; [reflexivity | apply IH].
Qed.

(** X14.  The update of one layer, from an initialised instance, ends
    normally whether or not a specification is refused, and is exactly
    this: every component the layer had is cleaned up (its pending renders
    cancelled, the assets of its derived components removed) and removed
    from the component manager, one after the other; then every current
    specification is given to [addComponent], in order, a render being
    requested for each derived component of each one that is accepted and
    an error recorded for the layer for each one that is refused.  So every
    cancellation and every removal of an asset comes before the first
    render request. *)
Theorem update_layer_effect (doc : Document) (deps : JSObj.t nat)
    (specs : JSObj.t (list Specification)) (layerId : Z) (layer : nat)
    (currentComponents : list Specification) s (cm : CM) t :
  _componentManager s = Some cm ->
  _renderPromises s = Some t ->
  JSObj.get layerId deps = Some layer ->
  JSObj.get layerId specs = Some currentComponents ->
  let previous := getComponentsByLayer cm layerId in
  let removed := fold_left removeComponent previous cm in
  let added := added_components doc layer currentComponents removed in
  updateLayer doc deps specs layerId s
  = mkOut (Done tt)
      (mkAssetManager
         (Some (render_table t (length (rm_jobs s)) added))
         (Some (added_manager doc layer currentComponents removed))
         (fm_basePath s)
         (removal_jobs t previous cm (rm_jobs s) ++ map new_job added)
         (listeners s))
      (removal_trace t previous cm (rm_jobs s)
       ++ added_trace doc layer currentComponents removed t (length (rm_jobs s)))
  /\ only_cancelled (rm_jobs s) (removal_jobs t previous cm (rm_jobs s))
  /\ Forall asset_call (removal_trace t previous cm (rm_jobs s))
  /\ Forall (update_call layer)
       (added_trace doc layer currentComponents removed t (length (rm_jobs s))).
Proof.
  intros Hcm Ht Hd Hs previous removed added.
  split; [|split; [apply removal_jobs_cancelled
                  |split; [apply removal_trace_calls | apply added_trace_calls]]].
  unfold updateLayer. rewrite Hd, Hs. cbn [deref]. rewrite !bind_ret.
  unfold removeLayerComponents.
  rewrite bind_assoc, (bind_the_componentManager _ _ cm) by exact Hcm.
  fold previous.
  pose proof (removal_run t previous s cm Hcm Ht) as Hrun.
  rewrite (bind_done _ _ _ tt) by now rewrite Hrun.
  rewrite Hrun. cbn [out_state out_trace]. fold removed.
  erewrite addition_run by (try reflexivity; exact Ht).
  cbn [prepend rm_jobs set_jobs set_componentManager fm_basePath listeners].
  destruct (only_cancelled_all_same _ _ (removal_jobs_cancelled t previous cm (rm_jobs s)))
    as [_ Hlen].
  now rewrite Hlen.
Qed.

End LayerUpdate.

Lemma update_layer_effect_witness :
  let s := out_state (start (CM:=SimpleCM) icon_doc created) in
  out_trace (updateLayer icon_doc [(1%Z, 1)]
               [(1%Z, [mkSpecification "icon.png" "icon.png" false])] 1 s)
  = [CancelRender 1; RemoveFileWithin "icon.png";
     Render (mkComponent 2 "icon.png" "icon.png" 1)] /\
  _componentManager
    (out_state (updateLayer icon_doc [(1%Z, 1)]
                  [(1%Z, [mkSpecification "icon.png" "icon.png" false])] 1 s))
  = Some (mkSimpleCM 3 [(1%Z, mkComponent 2 "icon.png" "icon.png" 1)]).
Proof.
  intros s.
  assert (Hs : s = mkAssetManager (Some {[1%Z := 0]})
                 (Some (mkSimpleCM 2 [(1%Z, icon_component)])) (Some "/assets"%string)
                 [mkJob icon_component Pending false] 1)
    by (vm_compute; reflexivity).
  destruct (update_layer_effect icon_doc [(1%Z, 1)]
              [(1%Z, [mkSpecification "icon.png" "icon.png" false])] 1 1
              [mkSpecification "icon.png" "icon.png" false] s
              (mkSimpleCM 2 [(1%Z, icon_component)]) {[1%Z := 0]})
    as (Hrun & _);
    [rewrite Hs; reflexivity | rewrite Hs; reflexivity | reflexivity | reflexivity |].
  rewrite Hrun, Hs. split; vm_compute; reflexivity.
Defined.
